(** * tapo-control: a shallow embedding of the device-control layer

    The JavaScript sources embedded here are
    - [lib/common.js]      (configuration, validation, argument preprocessing),
    - [scripts/ptz.js]     (the PTZ controller [controlPTZ]),
    - [scripts/preset.js]  ([extractPresets], [findPreset]),
    - [scripts/snapshot.js] ([captureSnapshot]).

    Conventions of the embedding.
    - A JavaScript string is a [string]: a sequence of code units below 256.
    - A primitive value is a [prim]; numbers met in configuration and in
      preset identifiers are integers and carried as [Z].
    - A loosely typed protocol payload is a [value]: a tree of primitives,
      arrays and objects, an object being an association list of its own
      properties.
    - A floating-point quantity of the PTZ controller is a [num]: [NaN], an
      infinity, or a rational.  Every double is a rational and comparison
      and negation of doubles are exact, so a statement for all rationals
      covers all doubles.
    - A function that may throw returns a [result]; a script that talks to
      the device is a computation in the monad [Eff.M], which records the
      calls made, and ends by returning, throwing or leaving the process. *)

From Stdlib Require Import ZArith QArith Qround Lqa List String Ascii Bool Lia DecimalString.
From stdpp Require Import base gmap strings list.

Open Scope Z_scope.

(* ================================================================== *)
(** * Part I: definitions                                              *)
(* ================================================================== *)

(** ** JavaScript values and the built-ins the sources rely on *)

Module Js.

(** Result of a call that may throw: [Throw msg] is a thrown [Error] (or
    [TypeError]) with message [msg]. *)
Inductive result (A : Type) : Type :=
| Ok (a : A)
| Throw (msg : string).
Arguments Ok {A} a.
Arguments Throw {A} msg.

Definition rbind {A B} (m : result A) (f : A -> result B) : result B :=
  match m with
  | Ok a => f a
  | Throw e => Throw e
  end.

(** [Array.prototype.map] with a callback that may throw: the first
    exception ends the traversal. *)
Fixpoint rmap {A B} (f : A -> result B) (l : list A) : result (list B) :=
  match l with
  | [] => Ok []
  | x :: l' => rbind (f x) (fun y => rbind (rmap f l') (fun ys => Ok (y :: ys)))
  end.

Inductive prim : Type :=
| PUndefined
| PNull
| PBool (b : bool)
| PNum (n : Z)
| PStr (s : string).

#[warnings="-register-all"] Inductive value : Type :=
| VPrim (p : prim)
| VArr (items : list value)
| VObj (props : list (string * value)).

Definition VUndefined : value := VPrim PUndefined.
Definition VNull : value := VPrim PNull.
Definition VStr (s : string) : value := VPrim (PStr s).

(** Characters. *)
Definition code (c : ascii) : N := N_of_ascii c.

Definition is_digit (c : ascii) : bool :=
  ((48 <=? code c) && (code c <=? 57))%N.

(** [StrWhiteSpaceChar] below 256: TAB, LF, VT, FF, CR, SP, NBSP. *)
Definition is_space (c : ascii) : bool :=
  ((9 <=? code c) && (code c <=? 13) || (code c =? 32) || (code c =? 160))%N.

Definition digit_val (c : ascii) : Z := Z.of_N (code c) - 48.

(** [String(n)] for an integer [n] (exact below 10^21 in absolute value,
    where JavaScript switches to exponent notation). *)
Definition string_of_Z (n : Z) : string :=
  NilZero.string_of_int (Z.to_int n).

(** [String(v)] and template interpolation of a primitive. *)
Definition to_string (p : prim) : string :=
  match p with
  | PUndefined => "undefined"
  | PNull => "null"
  | PBool true => "true"
  | PBool false => "false"
  | PNum n => string_of_Z n
  | PStr s => s
  end.

(** [ToBoolean]. *)
Definition truthy (p : prim) : bool :=
  match p with
  | PUndefined | PNull => false
  | PBool b => b
  | PNum n => negb (n =? 0)
  | PStr s => negb (String.eqb s "")
  end.

Definition vtruthy (v : value) : bool :=
  match v with
  | VPrim p => truthy p
  | VArr _ | VObj _ => true
  end.

Definition nullish (p : prim) : bool :=
  match p with
  | PUndefined | PNull => true
  | _ => false
  end.

Definition vnullish (v : value) : bool :=
  match v with
  | VPrim p => nullish p
  | _ => false
  end.

(** [a ?? b] and [a || b] on primitives. *)
Definition coalesce (a b : prim) : prim := if nullish a then b else a.
Definition or_else (a b : prim) : prim := if truthy a then a else b.
Definition vor_else (a b : value) : value := if vtruthy a then a else b.

(** [a ?? b] and [a || b] where the right operand may throw: it is
    evaluated only when the left one does not decide. *)
Definition coalesce_with (a : prim) (b : result prim) : result prim :=
  if nullish a then b else Ok a.
Definition or_else_with (a : prim) (b : result prim) : result prim :=
  if truthy a then Ok a else b.

(** The message of the [TypeError] of reading the property [name] of
    [null]. *)
Definition null_read (name : string) : string :=
  "Cannot read properties of null (reading '" +:+ name +:+ "')".

(** An environment-style lookup: a string, or [undefined]. *)
Definition of_env (o : option string) : prim :=
  match o with
  | Some s => PStr s
  | None => PUndefined
  end.

(** [parseInt(s, 10)] on a string; [None] is [NaN].  Leading white space
    is skipped, one sign is read, then the longest run of digits. *)
Fixpoint skip_space (s : string) : string :=
  match s with
  | String c s' => if is_space c then skip_space s' else s
  | EmptyString => EmptyString
  end.

Fixpoint read_digits (s : string) (acc : option Z) : option Z :=
  match s with
  | String c s' =>
      if is_digit c
      then read_digits s' (Some (10 * default 0 acc + digit_val c))
      else acc
  | EmptyString => acc
  end.

Definition parseInt_str (s : string) : option Z :=
  match skip_space s with
  | String "-" s' => Z.opp <$> read_digits s' None
  | String "+" s' => read_digits s' None
  | s' => read_digits s' None
  end.

(** [parseInt(p, 10)]: the argument is first converted with [String]. *)
Definition parseInt (p : prim) : option Z := parseInt_str (to_string p).

(** [s.split(sep)] for a one-character separator. *)
Fixpoint split (sep : ascii) (s : string) : list string :=
  match s with
  | EmptyString => [EmptyString]
  | String c s' =>
      if Ascii.eqb c sep then EmptyString :: split sep s'
      else match split sep s' with
           | h :: t => String c h :: t
           | [] => [String c EmptyString]
           end
  end.

(** The inverse of [split]: the groups, with the separator between them. *)
Fixpoint join (sep : ascii) (parts : list string) : string :=
  match parts with
  | [] => EmptyString
  | [p] => p
  | p :: rest => p +:+ String sep (join sep rest)
  end.

(** The string has no occurrence of the character. *)
Fixpoint free_of (sep : ascii) (s : string) : bool :=
  match s with
  | EmptyString => true
  | String c s' => negb (Ascii.eqb c sep) && free_of sep s'
  end.

(** [s.startsWith(p)] and [s.includes(p)]. *)
Fixpoint startsWith (p s : string) : bool :=
  match p, s with
  | EmptyString, _ => true
  | String a p', String b s' => Ascii.eqb a b && startsWith p' s'
  | String _ _, EmptyString => false
  end.

Fixpoint includes (s p : string) : bool :=
  startsWith p s ||
  match s with
  | EmptyString => false
  | String _ s' => includes s' p
  end.

(** [s.toLowerCase()] on code units below 256: A-Z and the Latin-1
    capitals (U+00C0-U+00DE except U+00D7) move up by 32. *)
Definition lower_char (c : ascii) : ascii :=
  let n := code c in
  if ((65 <=? n) && (n <=? 90) ||
      (192 <=? n) && (n <=? 222) && negb (n =? 215))%N
  then ascii_of_N (n + 32) else c.

Fixpoint toLowerCase (s : string) : string :=
  match s with
  | EmptyString => EmptyString
  | String c s' => String (lower_char c) (toLowerCase s')
  end.

(** Own-property read [o.k] on a non-nullish value: primitives and arrays
    have none of the keys the sources read. *)
Fixpoint assoc (k : string) (props : list (string * value)) : value :=
  match props with
  | [] => VUndefined
  | (k', v) :: rest => if String.eqb k k' then v else assoc k rest
  end.

Definition prop (v : value) (k : string) : value :=
  match v with
  | VObj props => assoc k props
  | _ => VUndefined
  end.

(** [v.k]: a [TypeError] on [null] and [undefined]. *)
Definition get (v : value) (k : string) : result value :=
  if vnullish v
  then Throw ("Cannot read properties of " +:+
              match v with VPrim p => to_string p | _ => "" end +:+
              " (reading '" +:+ k +:+ "')")
  else Ok (prop v k).

(** [v?.k]. *)
Definition opt_get (v : value) (k : string) : value :=
  if vnullish v then VUndefined else prop v k.

End Js.

(** ** lib/common.js *)

Module Common.
Import Js.

(** The flag object produced by the command-line parser, the persisted
    JSON configuration and the caller's defaults all carry these four
    (optional) fields. *)
Record fields : Type := {
  f_ip : prim;
  f_username : prim;
  f_password : prim;
  f_port : prim
}.

Definition no_fields : fields :=
  {| f_ip := PUndefined; f_username := PUndefined;
     f_password := PUndefined; f_port := PUndefined |}.

(** [process.env] and the parsed [.env] file: string-valued variables. *)
Record vars : Type := {
  IP_ADDRESS : option string;
  USERNAME : option string;
  PASSWORD : option string;
  ONVIF_PORT : option string
}.

Definition no_vars : vars :=
  {| IP_ADDRESS := None; USERNAME := None; PASSWORD := None; ONVIF_PORT := None |}.

Record config : Type := {
  ip : prim;
  username : prim;
  password : prim;
  port : Z
}.

(** What [fileConfig] holds when the sources are consulted: the initial
    [{}] when the configuration file is missing or is not valid JSON, and
    otherwise whatever [JSON.parse] returned, which need not be an object.
    The properties of an object are JSON scalars here, a missing one
    being [undefined]. *)
Inductive parsed : Type :=
| JsonObject (f : fields)
| JsonNull
| JsonOther.                     (* a number, a string, a boolean, an array *)

(** The [{}] that [fileConfig] starts from. *)
Definition no_file : parsed := JsonObject no_fields.

(** [fileConfig.name]: reading a property of [null] throws a [TypeError],
    a number, string, boolean or array has none of the four properties. *)
Definition file_prop (fileConfig : parsed) (name : string) (field : fields -> prim)
    : result prim :=
  match fileConfig with
  | JsonObject f => Ok (field f)
  | JsonNull => Throw (null_read name)
  | JsonOther => Ok PUndefined
  end.

(** The raw port that [loadConfig] parses, line 58: the first source, in
    order of priority, that is neither [undefined] nor [null]; the
    configuration file is read only when the command line, the
    environment and the dotfile give none. *)
Definition effective_port (argv : fields) (env dotenv : vars)
    (fileConfig : parsed) (defaults : fields) : result prim :=
  coalesce_with (f_port argv)
    (coalesce_with (of_env (ONVIF_PORT env))
       (coalesce_with (of_env (ONVIF_PORT dotenv))
          (rbind (file_prop fileConfig "port" f_port) (fun p =>
             Ok (coalesce p (coalesce (f_port defaults) (PNum 2020))))))).

(** The [throw] of line 61, with the template of its message. *)
Definition reject (argv : fields) (env : vars) (fileConfig : parsed) (defaults : fields)
    : result config :=
  rbind (or_else_with (f_port argv)
           (or_else_with (of_env (ONVIF_PORT env))
              (rbind (file_prop fileConfig "port" f_port) (fun p =>
                 Ok (or_else p (f_port defaults)))))) (fun shown =>
  Throw ("Invalid port number: " +:+ to_string shown +:+ ". Must be 1-65535")).

(** The object of the [return] statement, lines 64-69; its properties are
    evaluated in the order in which they are written. *)
Definition profile (argv : fields) (env dotenv : vars)
    (fileConfig : parsed) (defaults : fields) (port : Z) : result config :=
  rbind (or_else_with (f_ip argv) (or_else_with (of_env (IP_ADDRESS env))
           (or_else_with (of_env (IP_ADDRESS dotenv))
              (rbind (file_prop fileConfig "ip" f_ip) (fun v =>
                 Ok (or_else v (f_ip defaults))))))) (fun ip =>
  rbind (or_else_with (f_username argv) (or_else_with (of_env (USERNAME env))
           (or_else_with (of_env (USERNAME dotenv))
              (rbind (file_prop fileConfig "username" f_username) (fun v =>
                 Ok (or_else v (f_username defaults))))))) (fun username =>
  rbind (or_else_with (f_password argv) (or_else_with (of_env (PASSWORD env))
           (or_else_with (of_env (PASSWORD dotenv))
              (rbind (file_prop fileConfig "password" f_password) (fun v =>
                 Ok (or_else v (f_password defaults))))))) (fun password =>
  Ok {| ip := ip; username := username; password := password; port := port |}))).

(** [loadConfig(argv, defaults)].  The three ambient sources read by the
    function are arguments here: [env] is [process.env], [dotenv] the
    result of [loadDotenv()], [fileConfig] what the configuration file
    gave. *)
Definition loadConfig (argv : fields) (env dotenv : vars)
    (fileConfig : parsed) (defaults : fields) : result config :=
  rbind (effective_port argv env dotenv fileConfig defaults) (fun rawPort =>
  match parseInt rawPort with
  | None => reject argv env fileConfig defaults
  | Some port =>
      if (port <? 1) || (port >? 65535) then reject argv env fileConfig defaults
      else profile argv env dotenv fileConfig defaults port
  end).

(** The flags with only a port. *)
Definition only_port (p : prim) : fields :=
  {| f_ip := PUndefined; f_username := PUndefined;
     f_password := PUndefined; f_port := p |}.

(** [formatError(error)], on the text [error.message || String(error)]
    of the error. *)
Definition formatError (msg : string) : string :=
  if includes msg "ECONNREFUSED" || includes msg "EHOSTUNREACH" || includes msg "ETIMEDOUT"
  then "Connection failed: " +:+ msg +:+
       String (ascii_of_N 10) "   Make sure the camera is online and ONVIF is enabled"
  else if includes msg "Unauthorized" || includes msg "401"
  then "Authentication failed: " +:+ msg +:+
       String (ascii_of_N 10) "   Check your username and password"
  else if includes msg "ffmpeg" || includes msg "ENOENT"
  then "FFmpeg error: " +:+ msg +:+
       String (ascii_of_N 10) "   Make sure ffmpeg is installed: brew install ffmpeg"
  else if includes msg "timeout" || includes msg "Timeout"
  then "Operation timed out: " +:+ msg +:+
       String (ascii_of_N 10) "   The camera may be slow to respond. Try increasing --timeout"
  else msg.

(** One pass of the loop of [validateIp] over the groups: [true] when
    the loop runs to its end without returning an error. *)
Definition group_ok (part : string) : bool :=
  match parseInt_str part with
  | None => false
  | Some num =>
      negb ((num <? 0) || (num >? 255) || negb (String.eqb (string_of_Z num) part))
  end.

(** [validateIp(ip)]: [Ok None] is the [null] of an accepted address,
    [Ok (Some msg)] a rejection.  A truthy value that is not a string has
    no [split] method, and the call throws. *)
Definition validateIp (ip : prim) : result (option string) :=
  if negb (truthy ip) then Ok (Some "IP address is required (--ip or IP_ADDRESS)")
  else match ip with
       | PStr s =>
           let parts := split "." s in
           if negb (length parts =? 4)%nat then Ok (Some ("Invalid IP address: " +:+ s))
           else if forallb group_ok parts then Ok None
           else Ok (Some ("Invalid IP address: " +:+ s))
       | _ => Throw "ip.split is not a function"
       end.

(** An octet, and the dotted quad of four octets in canonical decimal
    notation. *)
Definition octet (n : Z) : Prop := 0 <= n <= 255.

Definition dotted_quad (a b c d : Z) : string :=
  string_of_Z a +:+ "." +:+ string_of_Z b +:+ "." +:+ string_of_Z c +:+ "." +:+ string_of_Z d.

(** [arg.replace(/^--/, '')]. *)
Definition strip_dashes (arg : string) : string :=
  match arg with
  | String "-" (String "-" rest) => rest
  | _ => arg
  end.

(** [/^-[\d.]/.test(next)]. *)
Definition looks_negative (next : string) : bool :=
  match next with
  | String "-" (String c _) => is_digit c || Ascii.eqb c "."
  | _ => false
  end.

(** [numericKeys.includes(key)]. *)
Definition has_key (numericKeys : list string) (key : string) : bool :=
  existsb (String.eqb key) numericKeys.

(** The condition of the [if] in the loop body, [next] being [args[i+1]]
    ([None] when past the end, i.e. [undefined]). *)
Definition fuses (numericKeys : list string) (arg : string) (next : option string) : bool :=
  match next with
  | Some nxt =>
      has_key numericKeys (strip_dashes arg) && negb (String.eqb nxt "") && looks_negative nxt
  | None => false
  end.

(** The [for] loop of [preprocessArgs], on the index [i] and the array
    [result] under construction.  Every iteration advances [i], so
    [length args] iterations are enough. *)
Fixpoint preprocess_loop (fuel : nat) (args numericKeys : list string)
    (i : nat) (result : list string) : list string :=
  match fuel with
  | O => result
  | S fuel' =>
      match args !! i with
      | None => result
      | Some arg =>
          let next := args !! (i + 1)%nat in
          if fuses numericKeys arg next
          then preprocess_loop fuel' args numericKeys (i + 2)
                 (result ++ [arg +:+ "=" +:+ default EmptyString next])
          else preprocess_loop fuel' args numericKeys (i + 1) (result ++ [arg])
      end
  end.

Definition preprocessArgs (args numericKeys : list string) : list string :=
  preprocess_loop (length args) args numericKeys 0 [].

(** The same traversal by recursion on the tokens still to read; it is
    proved equal to [preprocessArgs] in [preprocessArgs_unfold]. *)
Fixpoint fuse_pairs (numericKeys : list string) (args : list string) : list string :=
  match args with
  | [] => []
  | arg :: rest =>
      match rest with
      | next :: rest' =>
          if fuses numericKeys arg (Some next)
          then (arg +:+ "=" +:+ next) :: fuse_pairs numericKeys rest'
          else arg :: fuse_pairs numericKeys rest
      | [] => [arg]
      end
  end.

(** The decimal digits. *)
Definition digit (c : ascii) : Prop :=
  In c ["0"; "1"; "2"; "3"; "4"; "5"; "6"; "7"; "8"; "9"]%char.

(** A value that reads as negative: a minus sign, then a digit or a
    decimal point, then anything. *)
Definition negative_looking (value : string) : Prop :=
  exists c tail, value = String "-" (String c tail) /\ (digit c \/ c = "."%char).

(** A value with an optional minus sign, then a digit or a decimal point:
    the test as the specification words it. *)
Definition numeric_looking (value : string) : Prop :=
  negative_looking value \/
  exists c tail, value = String c tail /\ (digit c \/ c = "."%char).

(** The key test of the loop, [numericKeys.includes(key)] with [key] the
    token without one leading double dash when it has one: it holds of
    the flag [--pan] and of the bare token [pan] alike. *)
Definition names_numeric (numericKeys : list string) (arg : string) : Prop :=
  In (strip_dashes arg) numericKeys.

(** A flag declared numeric: the token [--name] for one of the caller's
    numeric keys. *)
Definition numeric_flag (numericKeys : list string) (arg : string) : Prop :=
  exists name, arg = "--" +:+ name /\ In name numericKeys.

(** [rewrites keys args out]: [out] is [args] where some adjacent pairs
    were fused, each of them a token naming a numeric key followed by a
    negative-looking value; every other token is kept as it is. *)
Inductive rewrites (numericKeys : list string) : list string -> list string -> Prop :=
| rewrites_nil : rewrites numericKeys [] []
| rewrites_keep arg rest out :
    rewrites numericKeys rest out ->
    rewrites numericKeys (arg :: rest) (arg :: out)
| rewrites_fuse arg next rest out :
    names_numeric numericKeys arg ->
    negative_looking next ->
    rewrites numericKeys rest out ->
    rewrites numericKeys (arg :: next :: rest) ((arg +:+ "=" +:+ next) :: out).

End Common.

(** ** Floating-point quantities of the PTZ controller *)

Module Num.

Inductive num : Type :=
| NaN
| NegInf
| Fin (q : Q)
| PosInf.

Definition isNaN (a : num) : bool :=
  match a with
  | NaN => true
  | _ => false
  end.

(** [a < b]; any comparison with [NaN] is false. *)
Definition ltb (a b : num) : bool :=
  match a, b with
  | NaN, _ | _, NaN => false
  | NegInf, NegInf => false
  | NegInf, _ => true
  | _, NegInf => false
  | PosInf, _ => false
  | Fin _, PosInf => true
  | Fin x, Fin y => negb (Qle_bool y x)
  end.

(** Unary minus. *)
Definition neg (a : num) : num :=
  match a with
  | NaN => NaN
  | NegInf => PosInf
  | Fin q => Fin (- q)
  | PosInf => NegInf
  end.

(** [a * 1000] (the exact product; a double product is its rounding). *)
Definition times1000 (a : num) : num :=
  match a with
  | Fin q => Fin (q * 1000)
  | other => other
  end.

(** [Math.round(a)]: the integer nearest to [a], halves going up. *)
Definition round (a : num) : num :=
  match a with
  | Fin q => Fin (inject_Z (Qfloor (q + (1 # 2))))
  | other => other
  end.

(** [a || 0] for a number: [NaN] and zero are falsy. *)
Definition or_zero (a : num) : num :=
  match a with
  | NaN => Fin 0
  | Fin q => if Qeq_bool q 0 then Fin 0 else a
  | other => other
  end.

End Num.

(** ** Range validation of lib/common.js *)

Module Range.
Import Num.

(** The two messages of [validateRange], kept structured: the texts
    interpolate floating-point numbers. *)
Inductive range_error : Type :=
| NotANumber (name : string) (value : num)
    (* `${name} must be a number, got: ${value}` *)
| OutOfRange (name : string) (min max value : num).
    (* `${name} must be between ${min} and ${max}, got: ${value}` *)

(** [validateRange(value, min, max, name)]; [None] is [null]. *)
Definition validateRange (value min max : num) (name : string) : option range_error :=
  if isNaN value then Some (NotANumber name value)
  else if ltb value min || ltb max value then Some (OutOfRange name min max value)
  else None.

End Range.

(** ** Effects of a script: device calls, timers, diagnostics, exit *)

Module Eff.
Import Num.

Record vec : Type := { vx : num; vy : num; vz : num }.

(** What a script does that can be observed from outside.  Output on the
    standard output stream is not recorded. *)
Inductive event : Type :=
| Init (xaddr : string) (user pass : Js.prim)
    (* new OnvifDevice({xaddr, user, pass}).init() *)
| Stop (profileToken : string) (panTilt zoom : bool)
| GotoHomePosition (profileToken : string)
| AbsoluteMove (profileToken : string) (position speed : vec)
| ContinuousMove (profileToken : string) (velocity : vec) (timeout : option num)
| GetStatus (profileToken : string)
| Sleep (ms : num)
    (* await new Promise(r => setTimeout(r, ms)) *)
| StderrText (line : string)
| StderrRange (e : Range.range_error).
    (* console.error(`Error: ${e}`) for a range error *)

(** A request sent to the device. *)
Definition is_network (ev : event) : bool :=
  match ev with
  | Init _ _ _ | Stop _ _ _ | GotoHomePosition _ | AbsoluteMove _ _ _
  | ContinuousMove _ _ _ | GetStatus _ => true
  | _ => false
  end.

(** A request that sets the camera in motion. *)
Definition is_move (ev : event) : bool :=
  match ev with
  | GotoHomePosition _ | AbsoluteMove _ _ _ | ContinuousMove _ _ _ => true
  | _ => false
  end.

Definition is_absolute_move (ev : event) : bool :=
  match ev with
  | AbsoluteMove _ _ _ => true
  | _ => false
  end.

Definition is_stop (ev : event) : bool :=
  match ev with
  | Stop _ _ _ => true
  | _ => false
  end.

Definition is_continuous_move (ev : event) : bool :=
  match ev with
  | ContinuousMove _ _ _ => true
  | _ => false
  end.

(** How a computation ends: with a value, with a thrown error (carried
    as its text [error.message || String(error)]), or with
    [process.exit(code)], which no [catch] intercepts. *)
Inductive ending (A : Type) : Type :=
| Return (a : A)
| Raise (msg : string)
| Exit (code : Z).
Arguments Return {A} a.
Arguments Raise {A} msg.
Arguments Exit {A} code.

(** A computation: the events it performed, in order, and its ending. *)
Record M (A : Type) : Type := Run { trace : list event; outcome : ending A }.
Arguments Run {A} trace outcome.
Arguments trace {A} m.
Arguments outcome {A} m.

Definition ret {A} (a : A) : M A := Run [] (Return a).

Definition bind {A B} (f : A -> M B) (m : M A) : M B :=
  match outcome m with
  | Return a => Run (trace m ++ trace (f a)) (outcome (f a))
  | Raise msg => Run (trace m) (Raise msg)
  | Exit c => Run (trace m) (Exit c)
  end.

#[global] Instance M_ret : MRet M := @ret.
#[global] Instance M_bind : MBind M := @bind.

(** [try { m } catch (e) { handler e }]. *)
Definition try_catch {A} (m : M A) (handler : string -> M A) : M A :=
  match outcome m with
  | Raise msg => Run (trace m ++ trace (handler msg)) (outcome (handler msg))
  | _ => m
  end.

Definition emit (ev : event) : M unit := Run [ev] (Return tt).
Definition exit {A} (code : Z) : M A := Run [] (Exit code).

(** An awaited request: it is sent, and the device answers with a value
    or the promise rejects with an error. *)
Definition request {A} (ev : event) (answer : Js.result A) : M A :=
  Run [ev] (match answer with
            | Js.Ok a => Return a
            | Js.Throw msg => Raise msg
            end).

Definition network_calls {A} (m : M A) : list event :=
  List.filter is_network (trace m).

End Eff.

(** ** scripts/ptz.js *)

Module Ptz.
Import Num Eff.

(** The parsed flags the controller reads.  The direction flags are
    declared boolean to the parser; [pan], [tilt] and [zoom] are declared
    string-typed and read through [parseFloat], so [a_pan] is [None] when
    [argv.pan === undefined] and [Some (parseFloat(argv.pan))] otherwise. *)
Record argv : Type := {
  a_stop : bool;
  a_home : bool;
  a_left : bool;
  a_right : bool;
  a_up : bool;
  a_down : bool;
  a_zoom_in : bool;
  a_zoom_out : bool;
  a_pan : option num;
  a_tilt : option num;
  a_zoom : option num
}.

(** The answer to [ptz.getStatus]: [StatusData x y z] carries
    [parseFloat] of the three attribute paths
    [d?.PTZStatus?.Position?.PanTilt?.['$']?.x], [...y] and
    [d?.PTZStatus?.Position?.Zoom?.['$']?.x] ([NaN] for an absent path);
    [StatusEmpty] is an answer that is falsy or has no [data]. *)
Inductive status : Type :=
| StatusEmpty
| StatusData (x y z : num).

(** The camera as the script meets it: the answer it gives at each
    place the script calls it.  The script runs top to bottom, so each
    place is reached at most once. *)
Record device : Type := {
  init_answer : Js.result unit;        (* device.init() *)
  has_ptz : bool;                      (* device.services.ptz *)
  profile : option string;             (* device.getCurrentProfile(), its token *)
  stop_answer : Js.result unit;
  home_answer : Js.result unit;
  absolute_answer : Js.result unit;
  continuous_answer : Js.result unit;
  status_first : Js.result status;     (* getStatus before a move, or alone *)
  status_second : Js.result status     (* getStatus after an absolute move *)
}.

(** The handshake [new Onvif.OnvifDevice({ xaddr, user, pass }).init()]. *)
Definition init_event (config : Common.config) : event :=
  Init ("http://" +:+ Js.to_string (Common.ip config) +:+ ":" +:+
        Js.string_of_Z (Common.port config) +:+ "/onvif/device_service")
       (Common.username config) (Common.password config).

(** [createDevice(config)] of lib/common.js. *)
Definition createDevice (config : Common.config) (answer : Js.result unit) : M unit :=
  request (init_event config) answer.

(** [x !== undefined]. *)
Definition defined {A} (x : option A) : bool :=
  match x with
  | Some _ => true
  | None => false
  end.

Definition hasAbsoluteMove (a : argv) : bool :=
  defined (a_pan a) || defined (a_tilt a) || defined (a_zoom a).

Definition hasRelativeMove (a : argv) : bool :=
  a_left a || a_right a || a_up a || a_down a || a_zoom_in a || a_zoom_out a.

Definition zero : num := Fin 0.
Definition uniform (speed : num) : vec := {| vx := speed; vy := speed; vz := speed |}.

(** The velocity built by the continuous-move branch. *)
Definition velocity (a : argv) (speed : num) : vec :=
  {| vx := if a_left a then neg speed else if a_right a then speed else zero;
     vy := if a_up a then speed else if a_down a then neg speed else zero;
     vz := if a_zoom_in a then speed else if a_zoom_out a then neg speed else zero |}.

(** The position read before an absolute move, [0] standing for every
    coordinate that is missing. *)
Definition current_position (st : status) : vec :=
  match st with
  | StatusData x y z => {| vx := or_zero x; vy := or_zero y; vz := or_zero z |}
  | StatusEmpty => {| vx := zero; vy := zero; vz := zero |}
  end.

(** The target of an absolute move: what the caller gave, else the
    current coordinate. *)
Definition target (a : argv) (current : vec) : vec :=
  {| vx := default (vx current) (a_pan a);
     vy := default (vy current) (a_tilt a);
     vz := default (vz current) (a_zoom a) |}.

Definition fail_range (e : Range.range_error) : M unit :=
  emit (StderrRange e);; exit 1.

(** The absolute-move branch, lines 177-233. *)
Definition absoluteBranch (a : argv) (speed : num) (dev : device)
    (profileToken : string) : M unit :=
  current ← try_catch
              (st ← request (GetStatus profileToken) (status_first dev);
               mret (current_position st))
              (fun _ => mret (current_position StatusEmpty));
  let t := target a current in
  match Range.validateRange (vx t) (Fin (-1)) (Fin 1) "Pan" with
  | Some panErr => fail_range panErr
  | None =>
  match Range.validateRange (vy t) (Fin (-1)) (Fin 1) "Tilt" with
  | Some tiltErr => fail_range tiltErr
  | None =>
  match Range.validateRange (vz t) (Fin 0) (Fin 1) "Zoom" with
  | Some zoomErr => fail_range zoomErr
  | None =>
      request (AbsoluteMove profileToken t (uniform speed)) (absolute_answer dev);;
      emit (Sleep (Fin 1000));;
      try_catch
        (request (GetStatus profileToken) (status_second dev);; mret tt)
        (fun _ => mret tt);;
      exit 0
  end end end.

(** The continuous-move branch, lines 144-175. *)
Definition continuousBranch (a : argv) (speed : num) (duration : option num)
    (dev : device) (profileToken : string) : M unit :=
  request (ContinuousMove profileToken (velocity a speed) (round <$> duration))
          (continuous_answer dev);;
  match duration with
  | Some d =>
      emit (Sleep (times1000 d));;
      request (Stop profileToken true true) (stop_answer dev);;
      exit 0
  | None => exit 0
  end.

(** The home branch, lines 127-142. *)
Definition homeBranch (speed : num) (dev : device) (profileToken : string) : M unit :=
  try_catch
    (request (GotoHomePosition profileToken) (home_answer dev))
    (fun _ =>
       request (AbsoluteMove profileToken (uniform zero) (uniform speed))
               (absolute_answer dev));;
  exit 0.

(** [controlPTZ()].  [config], [argv], [speed] and [duration] are the
    module-level constants of the script, computed and validated before
    the function is called. *)
Definition controlPTZ (config : Common.config) (a : argv) (speed : num)
    (duration : option num) (dev : device) : M unit :=
  try_catch
    (createDevice config (init_answer dev);;
     if negb (has_ptz dev)
     then emit (StderrText "Error: Camera does not support PTZ");; exit 1
     else match profile dev with
     | None =>
         emit (StderrText "Error: No media profile available on this camera");; exit 1
     | Some profileToken =>
         if a_stop a then
           request (Stop profileToken true true) (stop_answer dev);; exit 0
         else if a_home a then homeBranch speed dev profileToken
         else if hasRelativeMove a then continuousBranch a speed duration dev profileToken
         else if hasAbsoluteMove a then absoluteBranch a speed dev profileToken
         else
           try_catch
             (request (GetStatus profileToken) (status_first dev);; mret tt)
             (fun _ => mret tt)
     end)
    (fun error => emit (StderrText ("Error: " +:+ Common.formatError error));; exit 1).

(** A session that was opened and offers the PTZ service on a profile. *)
Definition connected (dev : device) (profileToken : string) : Prop :=
  init_answer dev = Js.Ok tt /\ has_ptz dev = true /\ profile dev = Some profileToken.

(** The position that the absolute-move branch takes as current. *)
Definition position_read (dev : device) : vec :=
  match status_first dev with
  | Js.Ok st => current_position st
  | Js.Throw _ => current_position StatusEmpty
  end.

(** How a branch ends after its last request: exit code 0, or the error
    on the error stream and exit code 1. *)
Definition report (answer : Js.result unit) : list event * ending unit :=
  match answer with
  | Js.Ok _ => ([], Exit 0)
  | Js.Throw e => ([StderrText ("Error: " +:+ Common.formatError e)], Exit 1)
  end.

(** A device call or a local wait. *)
Definition is_action (ev : event) : bool :=
  match ev with
  | StderrText _ | StderrRange _ => false
  | _ => true
  end.

(** The documented ranges, stated on the numbers themselves: a finite
    value between the two bounds. *)
Definition within (v : num) (lo hi : Q) : Prop :=
  match v with
  | Fin q => (lo <= q)%Q /\ (q <= hi)%Q
  | _ => False
  end.

Definition in_range (t : vec) : Prop :=
  within (vx t) (-1) 1 /\ within (vy t) (-1) 1 /\ within (vz t) 0 1.

(** Sample data: a camera that accepts every request and reports the
    position (0, 0, 0); a camera whose goto-home request is refused; a
    configuration; flags with nothing set. *)
Definition friendly_camera : device :=
  {| init_answer := Js.Ok tt; has_ptz := true; profile := Some "profile_1";
     stop_answer := Js.Ok tt; home_answer := Js.Ok tt;
     absolute_answer := Js.Ok tt; continuous_answer := Js.Ok tt;
     status_first := Js.Ok (StatusData (Fin 0) (Fin 0) (Fin 0));
     status_second := Js.Ok (StatusData (Fin 0) (Fin 0) (Fin 0)) |}.

Definition homeless_camera : device :=
  {| init_answer := Js.Ok tt; has_ptz := true; profile := Some "profile_1";
     stop_answer := Js.Ok tt; home_answer := Js.Throw "Action Not Supported";
     absolute_answer := Js.Ok tt; continuous_answer := Js.Ok tt;
     status_first := Js.Ok (StatusData (Fin 0) (Fin 0) (Fin 0));
     status_second := Js.Ok (StatusData (Fin 0) (Fin 0) (Fin 0)) |}.

Definition sample_config : Common.config :=
  {| Common.ip := Js.PStr "192.168.0.107"; Common.username := Js.PStr "admin";
     Common.password := Js.PStr "secret"; Common.port := 2020 |}.

Definition no_flags : argv :=
  {| a_stop := false; a_home := false; a_left := false; a_right := false;
     a_up := false; a_down := false; a_zoom_in := false; a_zoom_out := false;
     a_pan := None; a_tilt := None; a_zoom := None |}.

Definition flag_home : argv :=
  {| a_stop := false; a_home := true; a_left := false; a_right := false;
     a_up := false; a_down := false; a_zoom_in := false; a_zoom_out := false;
     a_pan := None; a_tilt := None; a_zoom := None |}.

Definition flag_left : argv :=
  {| a_stop := false; a_home := false; a_left := true; a_right := false;
     a_up := false; a_down := false; a_zoom_in := false; a_zoom_out := false;
     a_pan := None; a_tilt := None; a_zoom := None |}.

Definition flag_pan (v : num) : argv :=
  {| a_stop := false; a_home := false; a_left := false; a_right := false;
     a_up := false; a_down := false; a_zoom_in := false; a_zoom_out := false;
     a_pan := Some v; a_tilt := None; a_zoom := None |}.

End Ptz.

(** ** scripts/preset.js *)

Module Preset.
Import Js.

(** The object literal [{ token: ..., name: ... }] built for each record
    of the payload.  Either field is whatever truthy value the payload
    held, or the empty string. *)
Record raw_preset : Type := {
  rp_token : value;
  rp_name : value
}.

(** The callback of [arr.map]: [p => ({ token: p.$?.token || '',
    name: p.Name || '' })]. *)
Definition normalize (p : value) : result raw_preset :=
  rbind (get p "$") (fun attrs =>
  rbind (get p "Name") (fun nm =>
  Ok {| rp_token := vor_else (opt_get attrs "token") (VStr "");
        rp_name := vor_else nm (VStr "") |})).

(** [result?.data?.GetPresetsResponse?.Preset]. *)
Definition preset_field (response : value) : value :=
  opt_get (opt_get (opt_get response "data") "GetPresetsResponse") "Preset".

(** [extractPresets(result)]. *)
Definition extractPresets (response : value) : result (list raw_preset) :=
  let raw := preset_field response in
  if negb (vtruthy raw) then Ok []
  else
    let arr := match raw with
               | VArr items => items
               | _ => [raw]
               end in
    rmap normalize arr.

(** The record expected for a payload element that is neither [null] nor
    [undefined]: the token found under the attribute holder, the name
    found in the field Name, the empty string standing for either when
    absent (or otherwise falsy). *)
Definition record_of (p : value) : raw_preset :=
  {| rp_token := vor_else (opt_get (prop p "$") "token") (VStr "");
     rp_name := vor_else (prop p "Name") (VStr "") |}.

(** A response whose Preset field is [preset]. *)
Definition response_with (preset : value) : value :=
  VObj [("data", VObj [("GetPresetsResponse", VObj [("Preset", preset)])])].

(** A record with a token and a name, and one with a token only. *)
Definition record (tok nm : string) : value :=
  VObj [("$", VObj [("token", VStr tok)]); ("Name", VStr nm)].

Definition nameless_record (tok : string) : value :=
  VObj [("$", VObj [("token", VStr tok)])].

(** A preset of the data model: an opaque token and a display name, both
    strings. *)
Record preset : Type := {
  token : string;
  name : string
}.

(** The predicate given to [presets.find]. *)
Definition matches (valStr : string) (p : preset) : bool :=
  String.eqb (token p) valStr ||
  (negb (String.eqb (name p) "") &&
   String.eqb (toLowerCase (name p)) (toLowerCase valStr)).

(** [findPreset(presets, val)]; [None] is the [undefined] that
    [Array.prototype.find] returns when nothing matches. *)
Definition findPreset (presets : list preset) (val : prim) : option preset :=
  let valStr := to_string val in
  List.find (matches valStr) presets.

(** The matching rule in the words of the specification. *)
Definition is_match (text : string) (p : preset) : Prop :=
  token p = text \/
  (name p <> EmptyString /\ toLowerCase (name p) = toLowerCase text).

(** Sample data: the three presets of the test suite. *)
Definition sample_presets : list preset :=
  [ {| token := "1"; name := "Home" |};
    {| token := "2"; name := "Door" |};
    {| token := "3"; name := "Yard" |} ].

End Preset.

(** ** scripts/snapshot.js *)

Module Snapshot.
Import Js.

Inductive method : Type :=
| Rtsp
| Onvif.

(** What [fs.writeFileSync] did: it wrote the data, or it threw, leaving
    at the destination whatever it had written by then (if anything). *)
Inductive write_outcome : Type :=
| Written
| WriteFails (msg : string) (leftover : option string).

(** The collaborators of one invocation: the camera, the HTTP endpoint,
    the transcoder and the disk. *)
Record world : Type := {
  init_answer : result unit;             (* createDevice(config) *)
  http_answer : result string;           (* fetchUrl(snapshotUrl, timeout) *)
  write_answer : write_outcome;          (* fs.writeFileSync(resolvedOutput, data) *)
  ffmpeg_answer : result unit;           (* 'end', or 'error' / the timeout *)
  ffmpeg_leaves : option string          (* bytes the transcoder left at the destination *)
}.

(** A file system: the regular files, by resolved path. *)
Abbreviation files := (gmap string string).

(** State of a run: the disk, the lines written to the error stream. *)
Record state : Type := {
  disk : files;
  stderr : list string
}.

(** [captureViaOnvif()], lines 152-192, as far as it touches the disk. *)
Definition captureViaOnvif (w : world) (resolvedOutput : string) (d : files)
    : files * result unit :=
  match init_answer w with
  | Throw e => (d, Throw e)
  | Ok _ =>
      match http_answer w with
      | Throw e => (d, Throw e)
      | Ok data =>
          if String.eqb data "" then (d, Throw "Empty response from snapshot endpoint")
          else match write_answer w with
               | Written => (<[resolvedOutput := data]> d, Ok tt)
               | WriteFails e None => (d, Throw e)
               | WriteFails e (Some part) => (<[resolvedOutput := part]> d, Throw e)
               end
      end
  end.

(** [captureViaRtsp()], lines 194-260, as far as it touches the disk. *)
Definition captureViaRtsp (w : world) (resolvedOutput : string) (d : files)
    : files * result unit :=
  match init_answer w with
  | Throw e => (d, Throw e)
  | Ok _ =>
      let d' := match ffmpeg_leaves w with
                | Some bytes => <[resolvedOutput := bytes]> d
                | None => d
                end in
      match ffmpeg_answer w with
      | Throw e => (d', Throw e)
      | Ok _ =>
          if bool_decide (is_Some (d' !! resolvedOutput)) then (d', Ok tt)
          else (d', Throw "Snapshot file was not created")
      end
  end.

(** [captureSnapshot()], lines 262-277: the state after the run and the
    exit code. *)
Definition captureSnapshot (m : method) (w : world) (resolvedOutput : string)
    (d : files) : state * Z :=
  let '(d', r) := match m with
                  | Onvif => captureViaOnvif w resolvedOutput d
                  | Rtsp => captureViaRtsp w resolvedOutput d
                  end in
  match r with
  | Ok _ => ({| disk := d'; stderr := [] |}, 0)
  | Throw error =>
      ({| disk := if bool_decide (is_Some (d' !! resolvedOutput))
                  then delete resolvedOutput d' else d';
          stderr := ["Error: " +:+ Common.formatError error] |}, 1)
  end.

(** The ways in which a capture fails.  With either strategy the session
    cannot be opened.  With the ONVIF strategy the request for the picture
    fails (a status outside 2xx, a network error, the timeout), its body
    is empty, or the file cannot be written.  With the RTSP strategy the
    transcoder reports an error or runs into the timeout, or it ends and
    there is no file at the destination. *)
Inductive fails : method -> world -> string -> files -> Prop :=
| fails_session m w out d e :
    init_answer w = Throw e -> fails m w out d
| fails_request w out d e :
    http_answer w = Throw e -> fails Onvif w out d
| fails_empty_body w out d :
    http_answer w = Ok "" -> fails Onvif w out d
| fails_write w out d e leftover :
    write_answer w = WriteFails e leftover -> fails Onvif w out d
| fails_transcoder w out d e :
    ffmpeg_answer w = Throw e -> fails Rtsp w out d
| fails_no_file w out d :
    ffmpeg_leaves w = None -> d !! out = None -> fails Rtsp w out d.

(** Sample data: a camera that cannot be reached, a camera that answers
    the request for the picture with an error, and a disk that already
    holds a picture at the destination. *)
Definition refusing_camera : world :=
  {| init_answer := Ok tt;
     http_answer := Throw "HTTP 401 from snapshot endpoint";
     write_answer := Written;
     ffmpeg_answer := Throw "FFmpeg error: Connection refused";
     ffmpeg_leaves := Some "" |}.

Definition unreachable_camera : world :=
  {| init_answer := Throw "connect ECONNREFUSED 192.168.0.107:2020";
     http_answer := Throw "";
     write_answer := Written;
     ffmpeg_answer := Throw "";
     ffmpeg_leaves := None |}.

Definition disk_with_old_picture : files :=
  {[ "/home/user/snap.jpg" := "old picture" ]}.

End Snapshot.

(** ** lib/common.js: the dotfile *)

Module Dotenv.
Import Js.

Definition newline : ascii := "010"%char.

(** [s.trim()]: white space removed at both ends. *)
Fixpoint trim_end (s : string) : string :=
  match s with
  | EmptyString => EmptyString
  | String c s' =>
      match trim_end s' with
      | EmptyString => if is_space c then EmptyString else String c EmptyString
      | t => String c t
      end
  end.

Definition trim (s : string) : string := trim_end (skip_space s).

(** [s.indexOf(sep)] together with the two slices taken around it,
    [s.slice(0, idx)] and [s.slice(idx + 1)]; [None] is the index -1. *)
Fixpoint cut (sep : ascii) (s : string) : option (string * string) :=
  match s with
  | EmptyString => None
  | String c s' =>
      if Ascii.eqb c sep then Some (EmptyString, s')
      else match cut sep s' with
           | Some (before, after) => Some (String c before, after)
           | None => None
           end
  end.

(** [s.endsWith(c)] for a one-character string. *)
Fixpoint ends_with (c : ascii) (s : string) : bool :=
  match s with
  | EmptyString => false
  | String a EmptyString => Ascii.eqb a c
  | String _ s' => ends_with c s'
  end.

(** [s.slice(0, -1)]. *)
Fixpoint drop_last (s : string) : string :=
  match s with
  | EmptyString => EmptyString
  | String _ EmptyString => EmptyString
  | String c s' => String c (drop_last s')
  end.

(** [s.slice(1, -1)]; empty for a string of one character. *)
Definition slice_inner (s : string) : string :=
  match s with
  | EmptyString => EmptyString
  | String _ s' => drop_last s'
  end.

Definition double_quote : ascii := "034"%char.
Definition single_quote : ascii := "039"%char.

(** The stripping of matching surrounding quotes, lines 31-34. *)
Definition unquote (val : string) : string :=
  if (startsWith (String double_quote EmptyString) val && ends_with double_quote val) ||
     (startsWith (String single_quote EmptyString) val && ends_with single_quote val)
  then slice_inner val
  else val.

(** The body of the loop over the lines, lines 25-35: the object [result]
    after the line has been read.  The assignment [result[key] = val]
    creates or replaces the property, except for the key [__proto__],
    which an object literal routes to the setter of its prototype: given
    a string, that setter does nothing. *)
Definition read_line (result : gmap string string) (line : string) : gmap string string :=
  let trimmed := trim line in
  if String.eqb trimmed "" || startsWith "#" trimmed then result
  else match cut "=" trimmed with
       | None => result
       | Some (before, after) =>
           let key := trim before in
           let val := unquote (trim after) in
           if String.eqb key "__proto__" then result else <[key := val]> result
       end.

Definition read_lines (lines : list string) : gmap string string :=
  foldl read_line ∅ lines.

(** [loadDotenv()], on the text of the file [.env] of the working
    directory; [None] is a file that does not exist or cannot be read. *)
Definition loadDotenv (file : option string) : gmap string string :=
  match file with
  | None => ∅
  | Some content => read_lines (split newline content)
  end.

(** The four variables that [loadConfig] reads in such an object. *)
Definition vars_of (object : gmap string string) : Common.vars :=
  {| Common.IP_ADDRESS := object !! "IP_ADDRESS";
     Common.USERNAME := object !! "USERNAME";
     Common.PASSWORD := object !! "PASSWORD";
     Common.ONVIF_PORT := object !! "ONVIF_PORT" |}.

(** A text without white space at either end. *)
Definition tidy (s : string) : Prop := skip_space s = s /\ trim_end s = s.

(** A name that a line can define: not empty, tidy, on one line, without
    equals sign, not starting a comment, and not [__proto__]. *)
Definition plain_key (k : string) : Prop :=
  k <> EmptyString /\ tidy k /\ free_of "=" k = true /\ free_of newline k = true /\
  startsWith "#" k = false /\ k <> "__proto__".

(** A value that a line carries as it is: tidy, on one line, and not
    wrapped in quotes. *)
Definition plain_value (v : string) : Prop :=
  tidy v /\ free_of newline v = true /\ unquote v = v.

(** The text of a dotfile with one line [KEY=VALUE] per pair. *)
Definition render (pairs : list (string * string)) : string :=
  join newline (map (fun kv => kv.1 +:+ "=" +:+ kv.2) pairs).

(** A line that defines nothing: blank, a comment, or without equals
    sign. *)
Definition ignorable (line : string) : Prop :=
  trim line = EmptyString \/ startsWith "#" (trim line) = true \/
  cut "=" (trim line) = None.

End Dotenv.

(** ** Notions used to state further properties of lib/common.js *)

Module Notions.
Import Js Common.

(** Every character is a decimal digit. *)
Fixpoint all_digits (s : string) : bool :=
  match s with
  | EmptyString => true
  | String c s' => is_digit c && all_digits s'
  end.

(** Every character is a decimal digit or a dot. *)
Fixpoint digits_and_dots (s : string) : bool :=
  match s with
  | EmptyString => true
  | String c s' => (is_digit c || Ascii.eqb c ".") && digits_and_dots s'
  end.

(** A text that cannot continue a number: empty, or starting with a
    character that is not a digit. *)
Definition stops_number (tail : string) : Prop :=
  match tail with
  | EmptyString => True
  | String c _ => is_digit c = false
  end.

(** Each of the address, the user name and the password is given on the
    command line, in the environment or in the dotfile, so that the
    configuration file is not read for any of them. *)
Definition credentials_above (argv : fields) (env dotenv : vars) : bool :=
  truthy (or_else (f_ip argv)
            (or_else (of_env (IP_ADDRESS env)) (of_env (IP_ADDRESS dotenv)))) &&
  truthy (or_else (f_username argv)
            (or_else (of_env (USERNAME env)) (of_env (USERNAME dotenv)))) &&
  truthy (or_else (f_password argv)
            (or_else (of_env (PASSWORD env)) (of_env (PASSWORD dotenv)))).

(** The error is the [TypeError] of reading one of the four properties
    of a configuration file that holds [null]. *)
Definition null_file_error (msg : string) : Prop :=
  In msg [null_read "port"; null_read "ip"; null_read "username"; null_read "password"].

(** The port of a resolved configuration, if there is one. *)
Definition port_of (r : result config) : option Z :=
  match r with
  | Ok cfg => Some (port cfg)
  | Throw _ => None
  end.

(** The call returns a configuration with the port [p]; the one way out
    is a configuration file that holds [null] and is read for the address,
    the user name or the password, which throws. *)
Definition keeps_port (argv : fields) (env dotenv : vars) (fileConfig : parsed)
    (r : result config) (p : Z) : Prop :=
  match r with
  | Ok cfg =>
      port cfg = p /\ (fileConfig = JsonNull -> credentials_above argv env dotenv = true)
  | Throw msg =>
      fileConfig = JsonNull /\ credentials_above argv env dotenv = false /\
      In msg [null_read "ip"; null_read "username"; null_read "password"]
  end.

(** The substrings that [formatError] looks for. *)
Definition keywords : list string :=
  ["ECONNREFUSED"; "EHOSTUNREACH"; "ETIMEDOUT"; "Unauthorized"; "401";
   "ffmpeg"; "ENOENT"; "timeout"; "Timeout"].

(** The check of one integer by enumeration: it prints to digits only and
    is read back from them. *)
Definition prints_and_reads (n : Z) : bool :=
  all_digits (string_of_Z n) &&
  match read_digits (string_of_Z n) None with
  | Some m => m =? n
  | None => false
  end.

(** The check of one octet by enumeration: it prints to one, two or three
    digits. *)
Definition prints_short (n : Z) : bool :=
  let s := string_of_Z n in
  (1 <=? String.length s)%nat && (String.length s <=? 3)%nat && all_digits s.

(** No token that names a numeric key is directly followed by a token
    that reads as a negative value. *)
Fixpoint no_exposed_value (numericKeys : list string) (tokens : list string) : Prop :=
  match tokens with
  | [] => True
  | arg :: rest =>
      match rest with
      | [] => True
      | next :: _ =>
          ~ (names_numeric numericKeys arg /\ negative_looking next) /\
          no_exposed_value numericKeys rest
      end
  end.

(** Checks by enumeration: [f] holds of the [count] integers from
    [start] on. *)
Fixpoint holds_from (f : Z -> bool) (start : Z) (count : nat) : bool :=
  match count with
  | O => true
  | S k => f start && holds_from f (start + 1) k
  end.

End Notions.

(** ** scripts/ptz.js: the script around [controlPTZ] *)

Module PtzScript.
Import Num Eff.

(** What the flag parser hands to the script: the help flag, the four
    connection flags, the motion flags, and [--speed] and [--duration],
    which are declared string-typed and read through [parseFloat]
    ([None] when the flag is [undefined]). *)
Record cli : Type := {
  c_help : bool;
  c_fields : Common.fields;
  c_flags : Ptz.argv;
  c_speed : option num;
  c_duration : option num
}.

(** [argv.speed !== undefined ? parseFloat(argv.speed) : 0.5]. *)
Definition speed_of (c : cli) : num := default (Fin 0.5) (c_speed c).

(** The script from its first statement after the parsing of the flags to
    the call of [controlPTZ], lines 29-99 and 265.  An exception thrown
    outside [controlPTZ] is not caught: the run ends with [Raise]. *)
Definition main (c : cli) (env dotenv : Common.vars) (fileConfig : Common.parsed)
    (dev : Ptz.device) : M unit :=
  if c_help c then exit 0
  else match Common.loadConfig (c_fields c) env dotenv fileConfig Common.no_fields with
  | Js.Throw e => Run [] (Raise e)
  | Js.Ok config =>
      match Common.validateIp (Common.ip config) with
      | Js.Throw e => Run [] (Raise e)
      | Js.Ok (Some ipErr) => emit (StderrText ("Error: " +:+ ipErr));; exit 1
      | Js.Ok None =>
          if negb (Js.truthy (Common.username config)) ||
             negb (Js.truthy (Common.password config))
          then emit (StderrText
                 "Error: Username and password are required (--username/--password or USERNAME/PASSWORD)");;
               exit 1
          else
            match Range.validateRange (speed_of c) (Fin 0) (Fin 1) "Speed" with
            | Some speedErr => Ptz.fail_range speedErr
            | None =>
                match c_duration c with
                | Some d =>
                    match Range.validateRange d (Fin 0.1) (Fin 300) "Duration" with
                    | Some durErr => Ptz.fail_range durErr
                    | None => Ptz.controlPTZ config (c_flags c) (speed_of c) (Some d) dev
                    end
                | None => Ptz.controlPTZ config (c_flags c) (speed_of c) None dev
                end
            end
      end
  end.

(** The run was let through by every check made before the camera is
    contacted. *)
Definition validated (c : cli) (env dotenv : Common.vars) (fileConfig : Common.parsed) : Prop :=
  exists config,
    Common.loadConfig (c_fields c) env dotenv fileConfig Common.no_fields = Js.Ok config /\
    Common.validateIp (Common.ip config) = Js.Ok None /\
    Js.truthy (Common.username config) = true /\
    Js.truthy (Common.password config) = true /\
    Ptz.within (speed_of c) 0 1 /\
    match c_duration c with
    | Some d => Ptz.within d 0.1 300
    | None => True
    end.

(** Sample data: the command line [--ip 192.168.0.107 -u admin -p secret
    --left --speed 0.3 --duration 2]. *)
Definition sample_cli : cli :=
  {| c_help := false;
     c_fields := {| Common.f_ip := Js.PStr "192.168.0.107";
                    Common.f_username := Js.PStr "admin";
                    Common.f_password := Js.PStr "secret";
                    Common.f_port := Js.PNum 2020 |};
     c_flags := Ptz.flag_left;
     c_speed := Some (Fin 0.3);
     c_duration := Some (Fin 2) |}.

(** More sample data: a camera that cannot be reached, a camera whose
    status query fails, and flags that ask for everything at once. *)
Definition deaf_camera : Ptz.device :=
  {| Ptz.init_answer := Js.Throw "connect ECONNREFUSED 192.168.0.107:2020";
     Ptz.has_ptz := true; Ptz.profile := Some "profile_1";
     Ptz.stop_answer := Js.Ok tt; Ptz.home_answer := Js.Ok tt;
     Ptz.absolute_answer := Js.Ok tt; Ptz.continuous_answer := Js.Ok tt;
     Ptz.status_first := Js.Ok Ptz.StatusEmpty;
     Ptz.status_second := Js.Ok Ptz.StatusEmpty |}.

Definition blind_camera : Ptz.device :=
  {| Ptz.init_answer := Js.Ok tt;
     Ptz.has_ptz := true; Ptz.profile := Some "profile_1";
     Ptz.stop_answer := Js.Ok tt; Ptz.home_answer := Js.Ok tt;
     Ptz.absolute_answer := Js.Ok tt; Ptz.continuous_answer := Js.Ok tt;
     Ptz.status_first := Js.Throw "timeout";
     Ptz.status_second := Js.Ok Ptz.StatusEmpty |}.

Definition all_flags : Ptz.argv :=
  {| Ptz.a_stop := true; Ptz.a_home := true; Ptz.a_left := true; Ptz.a_right := false;
     Ptz.a_up := false; Ptz.a_down := false; Ptz.a_zoom_in := false;
     Ptz.a_zoom_out := false;
     Ptz.a_pan := Some (Fin 1); Ptz.a_tilt := None; Ptz.a_zoom := None |}.

End PtzScript.

(** ** scripts/preset.js: [managePresets] *)

Module PresetScript.
Import Js Preset.

(** [String(v)] and template interpolation of any value: an array joins
    its elements with commas, [null] and [undefined] elements giving the
    empty text; an object gives [[object Object]]. *)
Fixpoint vto_string (v : value) : string :=
  match v with
  | VPrim p => to_string p
  | VArr items =>
      join "," (map (fun x => if vnullish x then EmptyString else vto_string x) items)
  | VObj _ => "[object Object]"
  end.

(** The predicate of [findPreset] on the records that [extractPresets]
    builds, whose fields are not known to be strings:
    [p.token === valStr || (p.name && p.name.toLowerCase() ===
    valStr.toLowerCase())].  A truthy name that is not a string has no
    [toLowerCase] method. *)
Definition matches_raw (valStr : string) (p : raw_preset) : result bool :=
  if match rp_token p with
     | VPrim (PStr t) => String.eqb t valStr
     | _ => false
     end
  then Ok true
  else if negb (vtruthy (rp_name p)) then Ok false
  else match rp_name p with
       | VPrim (PStr n) => Ok (String.eqb (toLowerCase n) (toLowerCase valStr))
       | _ => Throw "p.name.toLowerCase is not a function"
       end.

(** [presets.find(...)] with that predicate. *)
Fixpoint find_raw (valStr : string) (presets : list raw_preset) : result (option raw_preset) :=
  match presets with
  | [] => Ok None
  | p :: rest =>
      rbind (matches_raw valStr p)
            (fun found => if found then Ok (Some p) else find_raw valStr rest)
  end.

(** [findPreset(presets, val)] as the script calls it, on the result of
    [extractPresets]. *)
Definition findPresetRaw (presets : list raw_preset) (val : prim) : result (option raw_preset) :=
  find_raw (to_string val) presets.

(** A preset of the data model as a record of [extractPresets], and as
    the payload element it comes from. *)
Definition raw_of (p : preset) : raw_preset :=
  {| rp_token := VStr (token p); rp_name := VStr (name p) |}.

Definition value_of (p : preset) : value := record (token p) (name p).

(** The flags the function reads: [--list] is declared boolean, the
    others are whatever the parser produced. *)
Record argv : Type := {
  a_list : bool;
  a_save : prim;
  a_goto : prim;
  a_delete : prim;
  a_name : prim
}.

(** The camera, by the answer it gives at each place of the script. *)
Record camera : Type := {
  init_answer : result unit;
  has_ptz : bool;
  profile : option string;
  presets_answer : result value;       (* ptz.getPresets *)
  set_answer : result unit;            (* ptz.setPreset *)
  goto_answer : result unit;           (* ptz.gotoPreset *)
  remove_answer : result unit          (* ptz.removePreset *)
}.

Inductive event : Type :=
| Init (xaddr : string) (user pass : prim)
| GetPresets (profileToken : string)
| SetPreset (profileToken : string) (presetToken presetName : prim)
| GotoPreset (profileToken : string) (presetToken : value)
| RemovePreset (profileToken : string) (presetToken : value)
| Stderr (line : string).

(** A request that changes the camera: its presets or its position. *)
Definition is_mutation (ev : event) : bool :=
  match ev with
  | SetPreset _ _ _ | GotoPreset _ _ | RemovePreset _ _ => true
  | _ => false
  end.

(** The events of a run and the code given to [process.exit]; [None] when
    the function returns without leaving the process. *)
Definition run : Type := (list event * option Z)%type.

(** The [catch] of the function: the error on the error stream, then
    exit code 1. *)
Definition fail (done_so_far : list event) (error : string) : run :=
  (done_so_far ++ [Stderr ("Error: " +:+ Common.formatError error)], Some 1).

Definition init_event (config : Common.config) : event :=
  Init ("http://" +:+ to_string (Common.ip config) +:+ ":" +:+
        string_of_Z (Common.port config) +:+ "/onvif/device_service")
       (Common.username config) (Common.password config).

(** The lines printed when the identifier resolves to nothing. *)
Definition not_found_lines (val : prim) (presets : list raw_preset) : list event :=
  Stderr (String Dotenv.newline ("Error: Preset " +:+ String Dotenv.double_quote
            (to_string val +:+ String Dotenv.double_quote " not found"))) ::
  Stderr "Available presets:" ::
  map (fun p => Stderr ("  [" +:+ vto_string (rp_token p) +:+ "] " +:+
                        vto_string (vor_else (rp_name p) (VStr "(unnamed)"))))
      presets.

(** The common shape of the goto and delete branches: fetch the presets,
    resolve the identifier, send the request with the token found. *)
Definition resolve_and_send (config : Common.config) (cam : camera) (profileToken : string)
    (val : prim) (send : value -> event) (answer : result unit) : run :=
  let fetched := [init_event config; GetPresets profileToken] in
  match presets_answer cam with
  | Throw e => fail fetched e
  | Ok response =>
      match extractPresets response with
      | Throw e => fail fetched e
      | Ok presets =>
          match findPresetRaw presets val with
          | Throw e => fail fetched e
          | Ok None => (fetched ++ not_found_lines val presets, Some 1)
          | Ok (Some found) =>
              let sent := fetched ++ [send (rp_token found)] in
              match answer with
              | Ok _ => (sent, Some 0)
              | Throw e => fail sent e
              end
          end
      end
  end.

(** [(preset.token || '').padEnd(21)] in the listing: only a string has
    the method, so a truthy token that is not one throws a [TypeError]. *)
Definition padded_token (p : raw_preset) : result unit :=
  match vor_else (rp_token p) (VStr "") with
  | VPrim (PStr _) => Ok tt
  | _ =>
      Throw ("(preset.token || " +:+
             String Dotenv.double_quote
               (String Dotenv.double_quote ").padEnd is not a function"))
  end.

(** [managePresets()], lines 398-494 of the file. *)
Definition managePresets (config : Common.config) (a : argv) (cam : camera) : run :=
  match init_answer cam with
  | Throw e => fail [init_event config] e
  | Ok _ =>
      if negb (has_ptz cam)
      then ([init_event config; Stderr "Error: Camera does not support PTZ/presets"], Some 1)
      else match profile cam with
      | None =>
          ([init_event config; Stderr "Error: No media profile available on this camera"],
           Some 1)
      | Some profileToken =>
          if a_list a then
            let fetched := [init_event config; GetPresets profileToken] in
            match presets_answer cam with
            | Throw e => fail fetched e
            | Ok response =>
                match extractPresets response with
                | Throw e => fail fetched e
                | Ok presets =>
                    match rmap padded_token presets with
                    | Throw e => fail fetched e
                    | Ok _ => (fetched, Some 0)
                    end
                end
            end
          else if truthy (a_save a) then
            let sent := [init_event config;
                         SetPreset profileToken (a_save a) (or_else (a_name a) (a_save a))] in
            match set_answer cam with
            | Ok _ => (sent, Some 0)
            | Throw e => fail sent e
            end
          else if truthy (a_goto a) then
            resolve_and_send config cam profileToken (a_goto a)
              (GotoPreset profileToken) (goto_answer cam)
          else if truthy (a_delete a) then
            resolve_and_send config cam profileToken (a_delete a)
              (RemovePreset profileToken) (remove_answer cam)
          else ([init_event config], None)
      end
  end.

(** A session that was opened and offers the PTZ service on a profile,
    with a preset query answered by the given presets. *)
Definition serves (cam : camera) (profileToken : string) (presets : list preset) : Prop :=
  init_answer cam = Ok tt /\ has_ptz cam = true /\ profile cam = Some profileToken /\
  presets_answer cam = Ok (response_with (VArr (map value_of presets))).

(** Sample data: a camera with the three presets of the test suite, and
    the flags [--delete door]. *)
Definition sample_camera : camera :=
  {| init_answer := Ok tt; has_ptz := true; profile := Some "profile_1";
     presets_answer := Ok (response_with (VArr (map value_of sample_presets)));
     set_answer := Ok tt; goto_answer := Ok tt; remove_answer := Ok tt |}.

Definition delete_door : argv :=
  {| a_list := false; a_save := PUndefined; a_goto := PUndefined;
     a_delete := PStr "door"; a_name := PUndefined |}.

Definition goto_unknown : argv :=
  {| a_list := false; a_save := PUndefined; a_goto := PStr "garage";
     a_delete := PUndefined; a_name := PUndefined |}.

End PresetScript.

(** ** scripts/snapshot.js: addresses and file names *)

Module SnapshotNames.
Import Js.

(** [encodeURIComponent(s)] on code units below 256: letters, digits and
    the marks [- _ . ! ~ * ' ( )] stay; any other character becomes the
    percent-escapes of its UTF-8 bytes, one byte below 128 and two bytes
    from 128 on. *)
Definition unreserved (c : ascii) : bool :=
  let n := code c in
  ((48 <=? n) && (n <=? 57) || (65 <=? n) && (n <=? 90) || (97 <=? n) && (n <=? 122) ||
   (n =? 45) || (n =? 95) || (n =? 46) || (n =? 33) || (n =? 126) || (n =? 42) ||
   (n =? 39) || (n =? 40) || (n =? 41))%N.

Definition hex_digit (n : N) : ascii :=
  if (n <? 10)%N then ascii_of_N (48 + n) else ascii_of_N (55 + n).

Definition percent (byte : N) : string :=
  String "%" (String (hex_digit (byte / 16)) (String (hex_digit (byte mod 16)) EmptyString)).

Definition encode_unit (c : ascii) : string :=
  let n := code c in
  if unreserved c then String c EmptyString
  else if (n <? 128)%N then percent n
  else percent (192 + n / 64) +:+ percent (128 + n mod 64).

Fixpoint encodeURIComponent (s : string) : string :=
  match s with
  | EmptyString => EmptyString
  | String c s' => encode_unit c +:+ encodeURIComponent s'
  end.

(** The fallback stream address of [captureViaRtsp], line 210. *)
Definition fallback_rtsp_url (config : Common.config) : string :=
  "rtsp://" +:+ encodeURIComponent (to_string (Common.username config)) +:+ ":" +:+
  encodeURIComponent (to_string (Common.password config)) +:+ "@" +:+
  to_string (Common.ip config) +:+ ":554/stream1".

(** The local time read from [new Date()]: [getFullYear()], [getMonth()]
    (from 0), [getDate()], [getHours()], [getMinutes()], [getSeconds()]. *)
Record date : Type := {
  year : Z;
  month : Z;
  day : Z;
  hours : Z;
  minutes : Z;
  seconds : Z
}.

(** [String(n).padStart(2, '0')]. *)
Definition pad2 (n : Z) : string :=
  let s := string_of_Z n in
  match s with
  | EmptyString => "00"
  | String c EmptyString => String "0" s
  | _ => s
  end.

(** The suffix built by [applyTimestamp], lines 110-116. *)
Definition timestamp (now : date) : string :=
  string_of_Z (year now) +:+ pad2 (month now + 1) +:+ pad2 (day now) +:+ "_" +:+
  pad2 (hours now) +:+ pad2 (minutes now) +:+ pad2 (seconds now).

(** [s.slice(0, n)] for [0 <= n]. *)
Fixpoint take (n : nat) (s : string) : string :=
  match n, s with
  | S k, String c s' => String c (take k s')
  | _, _ => EmptyString
  end.

(** [applyTimestamp(filePath)], lines 105-118; [flag] is [argv.timestamp],
    [ext] is the result of [path.extname(filePath)], a library function
    taken here by its result. *)
Definition applyTimestamp (flag : bool) (filePath ext : string) (now : date) : string :=
  if negb flag then filePath
  else
    let base := take (String.length filePath - String.length ext) filePath in
    base +:+ "_" +:+ timestamp now +:+ ext.

(** A date that a clock gives, from year 1000 to year 9999. *)
Definition calendar (d : date) : Prop :=
  1000 <= year d <= 9999 /\ 0 <= month d <= 11 /\ 1 <= day d <= 31 /\
  0 <= hours d <= 23 /\ 0 <= minutes d <= 59 /\ 0 <= seconds d <= 59.

(** A number of two digits at most is padded to two digits that read
    back as the number. *)
Definition pads_and_reads (n : Z) : bool :=
  (String.length (pad2 n) =? 2)%nat &&
  match read_digits (pad2 n) None with
  | Some m => m =? n
  | None => false
  end.

(** A year of four digits prints to four characters. *)
Definition prints_four (y : Z) : bool :=
  (y <? 1000) || (String.length (string_of_Z y) =? 4)%nat.

(** Every character of an escaped text is free of the delimiters of an
    address. *)
Definition escapes_delimiters (c : ascii) : bool :=
  free_of ":" (encode_unit c) && free_of "@" (encode_unit c) && free_of "/" (encode_unit c) &&
  free_of "?" (encode_unit c) && free_of "#" (encode_unit c) && free_of " " (encode_unit c).

(** Every character is one that [encodeURIComponent] leaves as it is. *)
Fixpoint all_unreserved (s : string) : bool :=
  match s with
  | EmptyString => true
  | String c s' => unreserved c && all_unreserved s'
  end.

(** Sample data: credentials with delimiters in them. *)
Definition tricky_config : Common.config :=
  {| Common.ip := PStr "192.168.0.107"; Common.username := PStr "ad:min";
     Common.password := PStr "p@ss/word"; Common.port := 2020 |}.

Definition noon : date :=
  {| year := 2024; month := 0; day := 1; hours := 12; minutes := 0; seconds := 0 |}.

End SnapshotNames.

(* ================================================================== *)
(** * Part II: properties                                              *)
(* ================================================================== *)

(** ** Argument preprocessing *)

Section PreprocessLoop.
Import Js Common.

Variable numericKeys : list string.

Lemma is_digit_digit (c : ascii) : is_digit c = true <-> digit c.
Proof.
  unfold digit. split.
  - destruct c as [[] [] [] [] [] [] [] []]; vm_compute; intros H;
      try discriminate H; tauto.
  - intros H. simpl in H.
    repeat (destruct H as [<- | H]; [reflexivity |]). destruct H.
Qed.

Lemma looks_negative_spec (s : string) :
  looks_negative s = true <-> negative_looking s.
Proof.
  unfold negative_looking. split.
  - destruct s as [| a [| c tail]]; simpl.
    + discriminate.
    + destruct a as [[] [] [] [] [] [] [] []]; discriminate.
    + intros H.
      assert (a = "-"%char) as ->
        by (destruct a as [[] [] [] [] [] [] [] []]; try discriminate H; reflexivity).
      exists c, tail. split; [reflexivity |].
      apply orb_true_iff in H as [H | H].
      * left. by apply is_digit_digit.
      * right. by apply Ascii.eqb_eq.
  - intros (c & tail & -> & [H | ->]); simpl.
    + apply is_digit_digit in H. by rewrite H.
    + reflexivity.
Qed.

Lemma has_key_In (key : string) : has_key numericKeys key = true <-> In key numericKeys.
Proof.
  unfold has_key. rewrite existsb_exists. split.
  - intros (x & Hin & Heq). apply String.eqb_eq in Heq. by subst.
  - intros H. exists key. split; [done | apply String.eqb_refl].
Qed.

Lemma negative_looking_nonempty (s : string) : negative_looking s -> s <> EmptyString.
Proof. intros (c & tail & -> & _). discriminate. Qed.

(** The condition of the loop, in words. *)
Lemma fuses_spec (arg next : string) :
  fuses numericKeys arg (Some next) = true <->
  names_numeric numericKeys arg /\ negative_looking next.
Proof.
  unfold fuses, names_numeric.
  rewrite !andb_true_iff, has_key_In, looks_negative_spec, negb_true_iff. split.
  - tauto.
  - intros [H1 H2]. repeat split; try done.
    apply String.eqb_neq. by apply negative_looking_nonempty.
Qed.

Lemma fuse_pairs_cons2 (arg next : string) (rest : list string) :
  fuse_pairs numericKeys (arg :: next :: rest)
  = if fuses numericKeys arg (Some next)
    then (arg +:+ "=" +:+ next) :: fuse_pairs numericKeys rest
    else arg :: fuse_pairs numericKeys (next :: rest).
Proof. reflexivity. Qed.

(** The loop started at position [length pre] with [result] built so far
    appends the recursive traversal of the remaining tokens. *)
Lemma preprocess_loop_fuse_pairs (fuel : nat) :
  forall (pre l result : list string),
    (length l <= fuel)%nat ->
    preprocess_loop fuel (pre ++ l) numericKeys (length pre) result
    = result ++ fuse_pairs numericKeys l.
Proof.
  induction fuel as [| fuel IH]; intros pre l result Hlen.
  - destruct l; [simpl; by rewrite app_nil_r | simpl in Hlen; lia].
  - destruct l as [| arg [| next rest]]; simpl preprocess_loop.
    + rewrite app_nil_r, lookup_ge_None_2 by lia. simpl. by rewrite app_nil_r.
    + rewrite list_lookup_middle by done.
      rewrite (lookup_ge_None_2 (pre ++ [arg])) by (rewrite length_app; simpl; lia).
      simpl fuses. cbv iota.
      replace (pre ++ [arg]) with ((pre ++ [arg]) ++ []) by apply app_nil_r.
      replace (length pre + 1)%nat with (length (pre ++ [arg]))
        by (rewrite length_app; simpl; lia).
      rewrite IH by (simpl; lia). simpl. by rewrite app_nil_r.
    + rewrite list_lookup_middle by done.
      replace ((pre ++ arg :: next :: rest) !! (length pre + 1)%nat) with (Some next).
      2:{ change (pre ++ arg :: next :: rest) with (pre ++ [arg] ++ next :: rest).
          rewrite app_assoc. symmetry. apply list_lookup_middle.
          rewrite length_app. simpl. lia. }
      simpl in Hlen. rewrite fuse_pairs_cons2.
      destruct (fuses numericKeys arg (Some next)).
      * replace (pre ++ arg :: next :: rest) with ((pre ++ [arg; next]) ++ rest)
          by (by rewrite <- app_assoc).
        replace (length pre + 2)%nat with (length (pre ++ [arg; next]))
          by (rewrite length_app; simpl; lia).
        rewrite IH by lia. rewrite <- app_assoc. reflexivity.
      * replace (pre ++ arg :: next :: rest) with ((pre ++ [arg]) ++ next :: rest)
          by (by rewrite <- app_assoc).
        replace (length pre + 1)%nat with (length (pre ++ [arg]))
          by (rewrite length_app; simpl; lia).
        rewrite IH by (simpl; lia). rewrite <- app_assoc. reflexivity.
Qed.

Lemma preprocessArgs_unfold (args : list string) :
  preprocessArgs args numericKeys = fuse_pairs numericKeys args.
Proof.
  unfold preprocessArgs.
  apply (preprocess_loop_fuse_pairs (length args) [] args []). lia.
Qed.

End PreprocessLoop.

Section PreprocessProperties.
Import Js Common.

Lemma string_length_append (a b : string) :
  String.length (a +:+ b) = (String.length a + String.length b)%nat.
Proof. induction a as [| c a IH]; simpl; [reflexivity | by rewrite IH]. Qed.

Lemma fused_token_differs (arg next : string) : arg +:+ "=" +:+ next <> arg.
Proof.
  intros H. apply (f_equal String.length) in H.
  rewrite string_length_append in H. simpl in H. lia.
Qed.

(** A token that does not read as a negative value is never absorbed by
    the token before it, so the traversal can be cut in front of it. *)
Lemma fuse_pairs_cut (numericKeys : list string) (n : nat) :
  forall before tok rest,
    (length before <= n)%nat ->
    looks_negative tok = false ->
    fuse_pairs numericKeys (before ++ tok :: rest)
    = fuse_pairs numericKeys before ++ fuse_pairs numericKeys (tok :: rest).
Proof.
  induction n as [| n IH]; intros before tok rest Hlen Htok.
  - destruct before; [reflexivity | simpl in Hlen; lia].
  - destruct before as [| a [| b before]].
    + reflexivity.
    + change ([a] ++ tok :: rest) with (a :: tok :: rest).
      rewrite fuse_pairs_cons2. unfold fuses. rewrite Htok, andb_false_r.
      reflexivity.
    + change ((a :: b :: before) ++ tok :: rest) with (a :: b :: (before ++ tok :: rest)).
      rewrite !fuse_pairs_cons2. simpl in Hlen.
      destruct (fuses numericKeys a (Some b)).
      * rewrite IH by (done || lia). reflexivity.
      * change (b :: before ++ tok :: rest) with ((b :: before) ++ tok :: rest).
        rewrite IH by (done || simpl; lia). reflexivity.
Qed.

Lemma fuse_pairs_rewrites (numericKeys : list string) (n : nat) :
  forall args, (length args <= n)%nat ->
    rewrites numericKeys args (fuse_pairs numericKeys args).
Proof.
  induction n as [| n IH]; intros args Hlen.
  - destruct args; [constructor | simpl in Hlen; lia].
  - destruct args as [| a [| b rest]].
    + constructor.
    + repeat constructor.
    + rewrite fuse_pairs_cons2. simpl in Hlen.
      destruct (fuses numericKeys a (Some b)) eqn:Hf.
      * apply fuses_spec in Hf as [Hk Hv].
        apply rewrites_fuse; [done | done | apply IH; lia].
      * apply rewrites_keep, IH. simpl. lia.
Qed.

Lemma fuse_pairs_not_numeric (numericKeys : list string) (arg : string) (rest : list string) :
  ~ names_numeric numericKeys arg ->
  fuse_pairs numericKeys (arg :: rest) = arg :: fuse_pairs numericKeys rest.
Proof.
  intros Hn. destruct rest as [| next rest]; [reflexivity |].
  rewrite fuse_pairs_cons2.
  destruct (fuses numericKeys arg (Some next)) eqn:Hf; [| reflexivity].
  apply fuses_spec in Hf as [Hk _]. contradiction.
Qed.

(** C1, as the claim words it, fails on the code: in the example the
    value 0.3 has no minus sign and stays a token of its own, although it
    is an optional minus sign followed by a digit and its flag is in the
    numeric set. *)
Lemma preprocessArgs_example_keeps_positive_value :
  numeric_looking "0.3" /\
  In "tilt" ["pan"; "tilt"] /\
  preprocessArgs ["--pan"; "-0.8"; "--tilt"; "0.3"] ["pan"; "tilt"]
  = ["--pan=-0.8"; "--tilt"; "0.3"] /\
  preprocessArgs ["--pan"; "-0.8"; "--tilt"; "0.3"] ["pan"; "tilt"]
  <> ["--pan=-0.8"; "--tilt=0.3"].
Proof.
  split; [| split; [| split]].
  - right. exists "0"%char, ".3". split; [reflexivity |]. left.
    unfold digit. simpl. tauto.
  - simpl. tauto.
  - reflexivity.
  - discriminate.
Qed.

(** C1 (amended): on the example the result is
    ['--pan=-0.8', '--tilt', '0.3'], and in general every adjacent pair
    (--name, value) with name in the numeric set and value made of a minus
    sign followed by a digit or '.' is fused into the single token
    '--name=value', the tokens before and after the pair being processed
    on their own. *)
Theorem preprocessArgs_fuses_negative_values :
  preprocessArgs ["--pan"; "-0.8"; "--tilt"; "0.3"] ["pan"; "tilt"]
  = ["--pan=-0.8"; "--tilt"; "0.3"] /\
  forall (numericKeys before after : list string) (name value : string),
    In name numericKeys ->
    negative_looking value ->
    preprocessArgs (before ++ ("--" +:+ name) :: value :: after) numericKeys
    = preprocessArgs before numericKeys
      ++ ("--" +:+ name +:+ "=" +:+ value) :: preprocessArgs after numericKeys.
Proof.
  split; [reflexivity |].
  intros numericKeys before after name value Hname Hvalue.
  rewrite !preprocessArgs_unfold.
  rewrite (fuse_pairs_cut numericKeys (length before)) by (lia || reflexivity).
  f_equal. rewrite fuse_pairs_cons2.
  assert (fuses numericKeys ("--" +:+ name) (Some value) = true) as ->
    by (apply fuses_spec; split; [exact Hname | exact Hvalue]).
  reflexivity.
Qed.

Lemma preprocessArgs_fuses_negative_values_witness :
  preprocessArgs (["--ip"; "10.0.0.1"] ++ ("--" +:+ "pan") :: "-.5" :: ["--left"])
                 ["pan"; "tilt"]
  = preprocessArgs ["--ip"; "10.0.0.1"] ["pan"; "tilt"]
    ++ ("--" +:+ "pan" +:+ "=" +:+ "-.5") :: preprocessArgs ["--left"] ["pan"; "tilt"].
Proof.
  apply (proj2 preprocessArgs_fuses_negative_values).
  - simpl. tauto.
  - exists "."%char, "5". split; [reflexivity | right; reflexivity].
Defined.

Lemma strip_dashes_first (a : ascii) (s : string) :
  a <> "-"%char -> strip_dashes (String a s) = String a s.
Proof.
  intros Ha. destruct a as [[] [] [] [] [] [] [] []]; try reflexivity; congruence.
Qed.

Lemma strip_dashes_second (b : ascii) (s : string) :
  b <> "-"%char -> strip_dashes (String "-" (String b s)) = String "-" (String b s).
Proof.
  intros Hb. destruct b as [[] [] [] [] [] [] [] []]; try reflexivity; congruence.
Qed.

(** The key that the loop compares: the rest of a token that starts with
    a double dash, the whole token otherwise. *)
Lemma strip_dashes_spec (arg : string) :
  (exists name, arg = "--" +:+ name /\ strip_dashes arg = name) \/
  ((forall name, arg <> "--" +:+ name) /\ strip_dashes arg = arg).
Proof.
  destruct arg as [| a [| b rest]].
  - right. split; [intros name H; discriminate H | reflexivity].
  - right. split; [intros name H; discriminate H |].
    destruct (decide (a = "-"%char)) as [-> | Ha]; [reflexivity |].
    by apply strip_dashes_first.
  - destruct (decide (a = "-"%char)) as [-> | Ha].
    + destruct (decide (b = "-"%char)) as [-> | Hb].
      * left. exists rest. split; reflexivity.
      * right. split; [| by apply strip_dashes_second].
        intros name H. injection H as H _. congruence.
    + right. split; [| by apply strip_dashes_first].
      intros name H. injection H as H _. congruence.
Qed.

Lemma names_numeric_cases (numericKeys : list string) (arg : string) :
  names_numeric numericKeys arg <->
  numeric_flag numericKeys arg \/
  (In arg numericKeys /\ forall name, arg <> "--" +:+ name).
Proof.
  unfold names_numeric, numeric_flag.
  destruct (strip_dashes_spec arg) as [(name & -> & Hs) | [Hbare ->]].
  - rewrite Hs. split.
    + intros Hin. left. by exists name.
    + intros [(name' & Heq & Hin) | [_ Hno]].
      * cbv in Heq. injection Heq as <-. exact Hin.
      * by destruct (Hno name).
  - split.
    + intros Hin. right. by split.
    + intros [(name & Heq & _) | [Hin _]]; [by destruct (Hbare name) | exact Hin].
Qed.

(** C4, as the claim words it, fails on the code: in
    [--username pan -1 --left] the token [pan] is the value of the flag
    [--username] and no flag at all, and still the value [-1] is fused
    with it, because the loop compares the token without its leading
    double dash, if it has one, with the numeric keys. *)
Lemma preprocessArgs_fuses_after_bare_key :
  ~ numeric_flag ["pan"] "pan" /\
  preprocessArgs ["--username"; "pan"; "-1"; "--left"] ["pan"]
  = ["--username"; "pan=-1"; "--left"] /\
  ~ (forall numericKeys arg next rest out,
       preprocessArgs (arg :: next :: rest) numericKeys = (arg +:+ "=" +:+ next) :: out ->
       numeric_flag numericKeys arg).
Proof.
  assert (Hbare : ~ numeric_flag ["pan"] "pan")
    by (intros (name & Heq & _); discriminate Heq).
  split; [exact Hbare |]. split; [reflexivity |].
  intros Hall. apply Hbare.
  apply (Hall ["pan"] "pan" "-1" ["--left"] ["--left"]). reflexivity.
Qed.

(** C4 (amended): whatever the tokens and the numeric keys,
    - the result is the input in which some adjacent pairs were fused, each
      pair being a token that names a numeric key followed by a value that
      starts with a minus sign and a digit or decimal point; all other
      tokens are kept, unchanged and in order;
    - the pair at the head of the tokens is fused if and only if these two
      conditions hold, the second looking at two characters of the value
      only;
    - a token that does not name a numeric key is emitted as it is;
    - when no token names a numeric key the result is the input;
    - the tokens that name a numeric key are the flags [--name] of the
      numeric keys and the bare tokens equal to a numeric key, and no
      others. *)
Theorem preprocessArgs_fuses_only_numeric_flags (numericKeys args : list string) :
  rewrites numericKeys args (preprocessArgs args numericKeys) /\
  (forall arg next rest,
      (exists out, preprocessArgs (arg :: next :: rest) numericKeys
                   = (arg +:+ "=" +:+ next) :: out)
      <-> names_numeric numericKeys arg /\ negative_looking next) /\
  (forall arg rest,
      ~ names_numeric numericKeys arg ->
      preprocessArgs (arg :: rest) numericKeys = arg :: preprocessArgs rest numericKeys) /\
  ((forall arg, In arg args -> ~ names_numeric numericKeys arg) ->
   preprocessArgs args numericKeys = args) /\
  (forall arg,
      names_numeric numericKeys arg <->
      numeric_flag numericKeys arg \/
      (In arg numericKeys /\ forall name, arg <> "--" +:+ name)).
Proof.
  split; [| split; [| split; [| split]]].
  - rewrite preprocessArgs_unfold. by apply (fuse_pairs_rewrites numericKeys (length args)).
  - intros arg next rest. rewrite preprocessArgs_unfold, fuse_pairs_cons2.
    rewrite <- fuses_spec.
    destruct (fuses numericKeys arg (Some next)); split.
    + reflexivity.
    + intros _. eexists. reflexivity.
    + intros [out Hout]. injection Hout as Hhead _.
      symmetry in Hhead. by apply fused_token_differs in Hhead.
    + discriminate.
  - intros arg rest Hn. rewrite !preprocessArgs_unfold.
    by apply fuse_pairs_not_numeric.
  - intros Hall. rewrite preprocessArgs_unfold.
    induction args as [| arg rest IH]; [reflexivity |].
    rewrite fuse_pairs_not_numeric by (apply Hall; left; reflexivity).
    f_equal. apply IH. intros a Ha. apply Hall. right. exact Ha.
  - apply names_numeric_cases.
Qed.

Lemma preprocessArgs_fuses_only_numeric_flags_witness :
  preprocessArgs ["--verbose"; "-5"] ["pan"] = ["--verbose"; "-5"] /\
  preprocessArgs ["--verbose"; "-5"] ["pan"] = "--verbose" :: preprocessArgs ["-5"] ["pan"].
Proof.
  assert (Hv : ~ names_numeric ["pan"] "--verbose")
    by (intros [H | []]; discriminate H).
  assert (H5 : ~ names_numeric ["pan"] "-5")
    by (intros [H | []]; discriminate H).
  pose proof (preprocessArgs_fuses_only_numeric_flags ["pan"] ["--verbose"; "-5"])
    as (_ & _ & Hkeep & Hid & _).
  split.
  - apply Hid. intros arg [<- | [<- | []]]; assumption.
  - apply Hkeep. exact Hv.
Defined.

End PreprocessProperties.

(** ** Address validation *)

Section AddressProperties.
Import Js Common.

Lemma join_split (sep : ascii) (s : string) : join sep (split sep s) = s.
Proof.
  induction s as [| c s IH]; [reflexivity |].
  simpl split. destruct (Ascii.eqb_spec c sep) as [-> | Hne].
  - destruct (split sep s) as [| h t] eqn:Hs.
    + simpl in IH. subst s. simpl in Hs. discriminate Hs.
    + change (join sep ("" :: h :: t)) with (String sep (join sep (h :: t))).
      by rewrite IH.
  - destruct (split sep s) as [| h t] eqn:Hs.
    + simpl in IH. subst s. simpl in Hs. discriminate Hs.
    + assert (join sep (String c h :: t) = String c (join sep (h :: t))) as ->
        by (destruct t; reflexivity).
      by rewrite IH.
Qed.

Lemma split_free (sep : ascii) (s : string) :
  free_of sep s = true -> split sep s = [s].
Proof.
  induction s as [| c s IH]; [reflexivity |].
  simpl. intros [Hc Hs]%andb_true_iff.
  apply negb_true_iff in Hc. rewrite Hc, (IH Hs). reflexivity.
Qed.

Lemma split_app_free (sep : ascii) (s rest : string) :
  free_of sep s = true ->
  split sep (s +:+ String sep EmptyString +:+ rest) = s :: split sep rest.
Proof.
  induction s as [| c s IH]; simpl.
  - intros _. by rewrite Ascii.eqb_refl.
  - intros [Hc Hs]%andb_true_iff.
    apply negb_true_iff in Hc. rewrite Hc, (IH Hs). reflexivity.
Qed.

(** [string_of_Z] is the usual decimal notation. *)
Lemma string_of_Z_examples :
  string_of_Z 0 = "0" /\ string_of_Z 7 = "7" /\ string_of_Z 107 = "107" /\
  string_of_Z 255 = "255" /\ string_of_Z (-12) = "-12".
Proof. repeat split; reflexivity. Qed.

(** Every octet prints to a group that the loop accepts and that has no
    dot: checked on the 256 values. *)
Lemma octets_checked :
  forallb (fun k => group_ok (string_of_Z (Z.of_nat k))
                    && free_of "." (string_of_Z (Z.of_nat k)))
          (seq 0 256) = true.
Proof. vm_compute. reflexivity. Qed.

Lemma octet_group (n : Z) :
  octet n ->
  group_ok (string_of_Z n) = true /\ free_of "." (string_of_Z n) = true.
Proof.
  intros [Hlo Hhi].
  pose proof octets_checked as H.
  rewrite forallb_forall in H.
  specialize (H (Z.to_nat n)).
  rewrite Z2Nat.id in H by exact Hlo.
  apply andb_true_iff, H, in_seq. lia.
Qed.

Lemma group_ok_octet (part : string) :
  group_ok part = true -> exists n, octet n /\ part = string_of_Z n.
Proof.
  unfold group_ok. destruct (parseInt_str part) as [num |]; [| discriminate].
  rewrite negb_true_iff, !orb_false_iff, negb_false_iff.
  intros [[Hlo Hhi] Heq].
  exists num. split.
  - unfold octet. lia.
  - symmetry. by apply String.eqb_eq.
Qed.

(** C9: [validateIp] accepts a string exactly when it is a dotted quad:
    four groups separated by dots, each the canonical decimal notation of
    an integer between 0 and 255.  (The loop checks that each group parses
    to an integer in range whose [String] is the group itself.) *)
Theorem validateIp_accepts_iff_dotted_quad (s : string) :
  validateIp (PStr s) = Ok None <->
  exists a b c d : Z,
    octet a /\ octet b /\ octet c /\ octet d /\ s = dotted_quad a b c d.
Proof.
  split.
  - unfold validateIp. destruct (truthy (PStr s)); simpl; [| discriminate].
    pose proof (join_split "." s) as Hjoin.
    destruct (split "." s) as [| p1 [| p2 [| p3 [| p4 [| p5 rest]]]]];
      simpl; try discriminate.
    destruct (group_ok p1) eqn:H1; simpl; [| discriminate].
    destruct (group_ok p2) eqn:H2; simpl; [| discriminate].
    destruct (group_ok p3) eqn:H3; simpl; [| discriminate].
    destruct (group_ok p4) eqn:H4; simpl; [| discriminate].
    intros _.
    apply group_ok_octet in H1 as (a & Ha & ->).
    apply group_ok_octet in H2 as (b & Hb & ->).
    apply group_ok_octet in H3 as (c & Hc & ->).
    apply group_ok_octet in H4 as (d & Hd & ->).
    exists a, b, c, d. repeat (split; [assumption |]).
    symmetry. exact Hjoin.
  - intros (a & b & c & d & Ha & Hb & Hc & Hd & ->).
    destruct (octet_group a Ha) as [Ga Fa].
    destruct (octet_group b Hb) as [Gb Fb].
    destruct (octet_group c Hc) as [Gc Fc].
    destruct (octet_group d Hd) as [Gd Fd].
    unfold validateIp, dotted_quad.
    assert (Hsplit : split "." (string_of_Z a +:+ "." +:+ string_of_Z b +:+ "." +:+
                                string_of_Z c +:+ "." +:+ string_of_Z d)
                     = [string_of_Z a; string_of_Z b; string_of_Z c; string_of_Z d]).
    { rewrite !split_app_free by assumption. by rewrite split_free. }
    assert (Htruthy : truthy (PStr (string_of_Z a +:+ "." +:+ string_of_Z b +:+ "." +:+
                                    string_of_Z c +:+ "." +:+ string_of_Z d)) = true).
    { simpl. destruct (string_of_Z a); reflexivity. }
    rewrite Htruthy, Hsplit. simpl. by rewrite Ga, Gb, Gc, Gd.
Qed.

Lemma validateIp_accepts_iff_dotted_quad_witness :
  validateIp (PStr "10.0.0.1") = Ok None.
Proof.
  apply validateIp_accepts_iff_dotted_quad.
  exists 10, 0, 0, 1. unfold octet.
  repeat split; (lia || reflexivity).
Defined.

(** The rejections listed with the claim, on examples: wrong group count,
    octet out of range, group that is not a number, leading zero. *)
Lemma validateIp_rejects_examples :
  validateIp (PStr "192.168.0") = Ok (Some "Invalid IP address: 192.168.0") /\
  validateIp (PStr "256.1.1.1") = Ok (Some "Invalid IP address: 256.1.1.1") /\
  validateIp (PStr "abc.def.ghi.jkl") = Ok (Some "Invalid IP address: abc.def.ghi.jkl") /\
  validateIp (PStr "192.168.00.1") = Ok (Some "Invalid IP address: 192.168.00.1") /\
  validateIp (PStr "192.168.0.107") = Ok None.
Proof. repeat split; reflexivity. Qed.

End AddressProperties.

(** ** Configuration resolution *)

Section ConfigProperties.
Import Js Common.

(** Reading a property of the configuration file fails only when the
    file holds [null]. *)
Lemma file_prop_total (fileConfig : parsed) (name : string) (field : fields -> prim) :
  fileConfig <> JsonNull -> exists v, file_prop fileConfig name field = Ok v.
Proof. destruct fileConfig; [eexists; reflexivity | done | eexists; reflexivity]. Qed.

(** The object returned for an accepted port carries that port; building
    it fails only by reading a configuration file that holds [null]. *)
Lemma profile_port (argv : fields) (env dotenv : vars) (fileConfig : parsed)
    (defaults : fields) (p : Z) :
  match profile argv env dotenv fileConfig defaults p with
  | Ok cfg => port cfg = p
  | Throw msg =>
      fileConfig = JsonNull /\
      In msg [null_read "ip"; null_read "username"; null_read "password"]
  end.
Proof.
  unfold profile, or_else_with.
  destruct fileConfig as [f | |]; simpl;
    repeat match goal with
           | |- context [if truthy ?x then _ else _] => destruct (truthy x); simpl
           end;
    first [reflexivity | split; [reflexivity | tauto]].
Qed.

Lemma profile_returns (argv : fields) (env dotenv : vars) (fileConfig : parsed)
    (defaults : fields) (p : Z) :
  fileConfig <> JsonNull ->
  exists cfg, profile argv env dotenv fileConfig defaults p = Ok cfg /\ port cfg = p.
Proof.
  intros Hfile. pose proof (profile_port argv env dotenv fileConfig defaults p) as H.
  destruct (profile argv env dotenv fileConfig defaults p) as [cfg | msg].
  - by exists cfg.
  - by destruct H.
Qed.

(** A port that is read and lies in range leads to the [return]
    statement. *)
Lemma loadConfig_accepts (argv : fields) (env dotenv : vars) (fileConfig : parsed)
    (defaults : fields) (raw : prim) (p : Z) :
  effective_port argv env dotenv fileConfig defaults = Ok raw ->
  parseInt raw = Some p -> 1 <= p <= 65535 ->
  loadConfig argv env dotenv fileConfig defaults
  = profile argv env dotenv fileConfig defaults p.
Proof.
  intros Hraw Hparse Hp. unfold loadConfig. rewrite Hraw. simpl. rewrite Hparse.
  assert ((p <? 1) || (p >? 65535) = false) as ->
    by (apply orb_false_iff; split; lia).
  reflexivity.
Qed.

(** The [throw] statement never returns. *)
Lemma reject_throws (argv : fields) (env : vars) (fileConfig : parsed) (defaults : fields) :
  exists msg, reject argv env fileConfig defaults = Throw msg /\
    ((fileConfig = JsonNull /\ msg = null_read "port") \/
     exists shown, msg = "Invalid port number: " +:+ shown +:+ ". Must be 1-65535").
Proof.
  unfold reject, or_else_with.
  destruct (truthy (f_port argv)); [eexists; split; [reflexivity | right; eauto] |].
  destruct (truthy (of_env (ONVIF_PORT env)));
    [eexists; split; [reflexivity | right; eauto] |].
  destruct fileConfig as [f | |]; simpl; eexists; (split; [reflexivity |]); eauto.
Qed.

(** A port given on the command line wins over every other source, as
    long as the configuration file does not hold [null]. *)
Lemma loadConfig_cli_port_wins (argv : fields) (env dotenv : vars)
    (fileConfig : parsed) (defaults : fields) :
  f_port argv = PNum 8080 -> fileConfig <> JsonNull ->
  exists cfg, loadConfig argv env dotenv fileConfig defaults = Ok cfg /\ port cfg = 8080.
Proof.
  intros H Hfile.
  rewrite (loadConfig_accepts _ _ _ _ _ (PNum 8080) 8080);
    [by apply profile_returns | | reflexivity | lia].
  unfold effective_port, coalesce_with. by rewrite H.
Qed.

(** With no port in any source the port is 2020. *)
Lemma loadConfig_default_port (argv : fields) (env dotenv : vars)
    (fileConfig defaults : fields) :
  nullish (f_port argv) = true -> ONVIF_PORT env = None -> ONVIF_PORT dotenv = None ->
  nullish (f_port fileConfig) = true -> nullish (f_port defaults) = true ->
  exists cfg, loadConfig argv env dotenv (JsonObject fileConfig) defaults = Ok cfg /\
              port cfg = 2020.
Proof.
  intros H1 H2 H3 H4 H5.
  rewrite (loadConfig_accepts _ _ _ _ _ (PNum 2020) 2020);
    [by apply profile_returns | | reflexivity | lia].
  unfold effective_port, coalesce_with, coalesce.
  rewrite H1, H2, H3. simpl. by rewrite H4, H5.
Qed.

(** The ports 0 and 70000 and the text abc are refused, whichever source
    they come from: the call throws and no profile is returned. *)
Lemma loadConfig_rejects_bad_port (argv : fields) (env dotenv : vars)
    (fileConfig : parsed) (defaults : fields) (raw : prim) :
  effective_port argv env dotenv fileConfig defaults = Ok raw ->
  In raw [PNum 0; PNum 70000; PStr "0"; PStr "70000"; PStr "abc"] ->
  exists msg, loadConfig argv env dotenv fileConfig defaults = Throw msg.
Proof.
  intros Hraw Hin. unfold loadConfig. rewrite Hraw. simpl rbind.
  destruct (reject_throws argv env fileConfig defaults) as (msg & Hmsg & _).
  exists msg. simpl in Hin.
  repeat (destruct Hin as [<- | Hin]; [exact Hmsg |]). destruct Hin.
Qed.

(** C2: the process [loadConfig({ port: 0 })] with nothing in the
    environment, no dotfile and no configuration file throws, as the claim
    says, but the message reads "Invalid port number: undefined" instead of
    naming the offending 0; the same happens to a port 70000 that comes
    from the dotfile, a source that the message does not consult. *)
Theorem loadConfig_message_omits_offending_port :
  loadConfig (only_port (PNum 0)) no_vars no_vars no_file no_fields
  = Throw "Invalid port number: undefined. Must be 1-65535" /\
  loadConfig no_fields no_vars
    {| IP_ADDRESS := None; USERNAME := None; PASSWORD := None; ONVIF_PORT := Some "70000" |}
    no_file no_fields
  = Throw "Invalid port number: undefined. Must be 1-65535".
Proof. split; reflexivity. Qed.

End ConfigProperties.

(** ** The PTZ controller *)

Section PtzProperties.
Import Num Range Eff Ptz.

Lemma validateRange_within (v : num) (lo hi : Q) (name : string) :
  validateRange v (Fin lo) (Fin hi) name = None <-> within v lo hi.
Proof.
  unfold validateRange, within.
  destruct v as [| | q |]; simpl; try (split; [discriminate | tauto]).
  destruct (Qle_bool lo q) eqn:Hlo, (Qle_bool q hi) eqn:Hhi; simpl.
  - apply Qle_bool_iff in Hlo, Hhi. tauto.
  - split; [discriminate |]. intros [_ H]. apply Qle_bool_iff in H. congruence.
  - split; [discriminate |]. intros [H _]. apply Qle_bool_iff in H. congruence.
  - split; [discriminate |]. intros [H _]. apply Qle_bool_iff in H. congruence.
Qed.

(** The run of the home branch when the dedicated request fails. *)
Lemma controlPTZ_home (config : Common.config) (a : argv) (speed : num)
    (duration : option num) (dev : device) (tok e : string) :
  a_stop a = false -> a_home a = true -> connected dev tok ->
  home_answer dev = Js.Throw e ->
  controlPTZ config a speed duration dev
  = Run ([init_event config; GotoHomePosition tok;
          AbsoluteMove tok (uniform zero) (uniform speed)]
         ++ fst (report (absolute_answer dev)))
        (snd (report (absolute_answer dev))).
Proof.
  intros Hstop Hhome (Hinit & Hptz & Hprof) Hans.
  unfold controlPTZ, homeBranch, createDevice.
  rewrite Hinit, Hptz, Hprof, Hstop, Hhome, Hans.
  destruct (absolute_answer dev) as [[] | e2]; reflexivity.
Qed.

(** C5: when home is asked (and stop is not), the session is open and the
    goto-home request fails, the controller sends exactly one absolute
    move, to the neutral vector {0,0,0} at the configured speed on the
    three axes; the whole run is determined by the answer to that move and
    never mentions the failure [e] of the goto-home request: it ends with
    exit code 0 when the move is accepted. *)
Theorem home_unsupported_falls_back_to_neutral_move
    (config : Common.config) (a : argv) (speed : num) (duration : option num)
    (dev : device) (tok e : string) :
  a_stop a = false -> a_home a = true -> connected dev tok ->
  home_answer dev = Js.Throw e ->
  let run := controlPTZ config a speed duration dev in
  run = Run ([init_event config; GotoHomePosition tok;
              AbsoluteMove tok {| vx := Fin 0; vy := Fin 0; vz := Fin 0 |}
                               {| vx := speed; vy := speed; vz := speed |}]
             ++ fst (report (absolute_answer dev)))
            (snd (report (absolute_answer dev))) /\
  List.filter is_absolute_move (trace run)
  = [AbsoluteMove tok {| vx := Fin 0; vy := Fin 0; vz := Fin 0 |}
                      {| vx := speed; vy := speed; vz := speed |}] /\
  (absolute_answer dev = Js.Ok tt ->
   outcome run = Exit 0 /\
   trace run = [init_event config; GotoHomePosition tok;
                AbsoluteMove tok {| vx := Fin 0; vy := Fin 0; vz := Fin 0 |}
                                 {| vx := speed; vy := speed; vz := speed |}]).
Proof.
  intros Hstop Hhome Hconn Hans run. subst run.
  rewrite (controlPTZ_home config a speed duration dev tok e) by assumption.
  split; [reflexivity |]. split.
  - destruct (absolute_answer dev) as [[] | e2]; reflexivity.
  - intros ->. split; reflexivity.
Qed.

(** The run of the continuous-move branch with a duration, when the move
    request is accepted. *)
Lemma controlPTZ_continuous (config : Common.config) (a : argv) (speed d : num)
    (dev : device) (tok : string) :
  a_stop a = false -> a_home a = false -> hasRelativeMove a = true ->
  connected dev tok -> continuous_answer dev = Js.Ok tt ->
  controlPTZ config a speed (Some d) dev
  = Run ([init_event config;
          ContinuousMove tok (velocity a speed) (Some (round d));
          Sleep (times1000 d);
          Stop tok true true] ++ fst (report (stop_answer dev)))
        (snd (report (stop_answer dev))).
Proof.
  intros Hstop Hhome Hrel (Hinit & Hptz & Hprof) Hans.
  unfold controlPTZ, continuousBranch, createDevice.
  rewrite Hinit, Hptz, Hprof, Hstop, Hhome, Hrel, Hans.
  destruct (stop_answer dev) as [[] | e2]; reflexivity.
Qed.

(** C6: with the flag left, speed 0.3 and duration 2 (no stop, no home, an
    open session that accepts the move request), the device calls and
    waits of the run are, in this order: one continuous move whose velocity
    has x = -0.3 and whose timeout hint is the integer 2, a local wait of
    2000 ms, one stop.  And for every continuous move with a duration [d],
    whatever the camera does with the timeout hint: one continuous move
    with hint [Math.round(d)], then the local wait of [d * 1000] ms, then
    one stop on both axes. *)
Theorem continuous_move_waits_then_stops :
  (forall (config : Common.config) (a : argv) (dev : device) (tok : string),
      a_stop a = false -> a_home a = false -> a_left a = true ->
      connected dev tok -> continuous_answer dev = Js.Ok tt ->
      exists vel,
        vx vel = Fin (-0.3) /\
        List.filter is_action
          (trace (controlPTZ config a (Fin 0.3) (Some (Fin 2)) dev))
        = [init_event config; ContinuousMove tok vel (Some (Fin 2));
           Sleep (Fin 2000); Stop tok true true]) /\
  (forall (config : Common.config) (a : argv) (speed d : num) (dev : device)
          (tok : string),
      a_stop a = false -> a_home a = false -> hasRelativeMove a = true ->
      connected dev tok -> continuous_answer dev = Js.Ok tt ->
      let run := controlPTZ config a speed (Some d) dev in
      List.filter is_action (trace run)
      = [init_event config; ContinuousMove tok (velocity a speed) (Some (round d));
         Sleep (times1000 d); Stop tok true true] /\
      List.filter is_continuous_move (trace run)
      = [ContinuousMove tok (velocity a speed) (Some (round d))] /\
      List.filter is_stop (trace run) = [Stop tok true true]).
Proof.
  split.
  - intros config a dev tok Hstop Hhome Hleft Hconn Hans.
    assert (Hrel : hasRelativeMove a = true) by (unfold hasRelativeMove; by rewrite Hleft).
    rewrite (controlPTZ_continuous config a _ _ dev tok) by assumption.
    exists (velocity a (Fin 0.3)). split.
    + unfold velocity. rewrite Hleft. reflexivity.
    + destruct (stop_answer dev) as [[] | e2]; reflexivity.
  - intros config a speed d dev tok Hstop Hhome Hrel Hconn Hans run. subst run.
    rewrite (controlPTZ_continuous config a speed d dev tok) by assumption.
    destruct (stop_answer dev) as [[] | e2]; repeat split; reflexivity.
Qed.

Lemma home_unsupported_falls_back_to_neutral_move_witness :
  List.filter is_absolute_move
    (trace (controlPTZ sample_config flag_home (Fin 0.5) None homeless_camera))
  = [AbsoluteMove "profile_1" {| vx := Fin 0; vy := Fin 0; vz := Fin 0 |}
                  {| vx := Fin 0.5; vy := Fin 0.5; vz := Fin 0.5 |}].
Proof.
  apply (home_unsupported_falls_back_to_neutral_move
           sample_config flag_home (Fin 0.5) None homeless_camera
           "profile_1" "Action Not Supported").
  - reflexivity.
  - reflexivity.
  - repeat split; reflexivity.
  - reflexivity.
Defined.

Lemma continuous_move_waits_then_stops_witness :
  exists vel,
    vx vel = Fin (-0.3) /\
    List.filter is_action
      (trace (controlPTZ sample_config flag_left (Fin 0.3) (Some (Fin 2)) friendly_camera))
    = [init_event sample_config; ContinuousMove "profile_1" vel (Some (Fin 2));
       Sleep (Fin 2000); Stop "profile_1" true true].
Proof.
  apply (proj1 continuous_move_waits_then_stops
           sample_config flag_left friendly_camera "profile_1").
  - reflexivity.
  - reflexivity.
  - reflexivity.
  - repeat split; reflexivity.
  - reflexivity.
Defined.

(** The runs of the absolute-move branch. *)
Lemma controlPTZ_absolute_rejected (config : Common.config) (a : argv) (speed : num)
    (duration : option num) (dev : device) (tok : string) :
  a_stop a = false -> a_home a = false -> hasRelativeMove a = false ->
  hasAbsoluteMove a = true -> connected dev tok ->
  ~ in_range (target a (position_read dev)) ->
  exists e,
    controlPTZ config a speed duration dev
    = Run [init_event config; GetStatus tok; StderrRange e] (Exit 1).
Proof.
  intros Hstop Hhome Hrel Habs (Hinit & Hptz & Hprof) Hout.
  unfold controlPTZ, absoluteBranch, createDevice, fail_range.
  rewrite Hinit, Hptz, Hprof, Hstop, Hhome, Hrel, Habs.
  unfold in_range, position_read in Hout.
  destruct (status_first dev) as [st | err];
    cbn -[validateRange target current_position];
    (destruct (validateRange _ _ _ "Pan") as [e1 |] eqn:H1; [by exists e1 |];
     destruct (validateRange _ _ _ "Tilt") as [e2 |] eqn:H2; [by exists e2 |];
     destruct (validateRange _ _ _ "Zoom") as [e3 |] eqn:H3; [by exists e3 |];
     apply validateRange_within in H1, H2, H3; tauto).
Qed.

Lemma controlPTZ_absolute_accepted (config : Common.config) (a : argv) (speed : num)
    (duration : option num) (dev : device) (tok : string) :
  a_stop a = false -> a_home a = false -> hasRelativeMove a = false ->
  hasAbsoluteMove a = true -> connected dev tok ->
  in_range (target a (position_read dev)) ->
  List.filter is_move (trace (controlPTZ config a speed duration dev))
  = [AbsoluteMove tok (target a (position_read dev)) (uniform speed)].
Proof.
  intros Hstop Hhome Hrel Habs (Hinit & Hptz & Hprof) (H1 & H2 & H3).
  unfold controlPTZ, absoluteBranch, createDevice, fail_range.
  rewrite Hinit, Hptz, Hprof, Hstop, Hhome, Hrel, Habs.
  unfold position_read in *.
  apply (validateRange_within _ _ _ "Pan") in H1.
  apply (validateRange_within _ _ _ "Tilt") in H2.
  apply (validateRange_within _ _ _ "Zoom") in H3.
  destruct (status_first dev) as [st | err];
    cbn -[validateRange target current_position];
    rewrite H1, H2, H3;
    destruct (absolute_answer dev) as [[] | e2]; try reflexivity;
    destruct (status_second dev) as [st2 | e3]; reflexivity.
Qed.

(** C3, as the claim words it, fails on the code: asked for pan 2 on a
    camera at (0, 0, 0), the controller has opened the session and queried
    the status before it rejects the value. *)
Lemma absolute_move_out_of_range_after_network_calls :
  ~ in_range (target (flag_pan (Fin 2)) (position_read friendly_camera)) /\
  network_calls (controlPTZ sample_config (flag_pan (Fin 2)) (Fin 0.5) None friendly_camera)
  = [init_event sample_config; GetStatus "profile_1"] /\
  network_calls (controlPTZ sample_config (flag_pan (Fin 2)) (Fin 0.5) None friendly_camera)
  <> [].
Proof.
  split; [| split].
  - intros [[_ H] _]. vm_compute in H. by apply H.
  - reflexivity.
  - discriminate.
Qed.

(** C3 (amended): in every run that reaches the absolute-move branch, if
    the resulting pan, tilt or zoom is out of range the command ends with
    exit code 1 after the session handshake and one status query, and no
    request that moves the camera is sent; and when a move is sent, it
    carries the resulting values unchanged: nothing is clamped. *)
Theorem absolute_move_out_of_range_sends_no_move
    (config : Common.config) (a : argv) (speed : num) (duration : option num)
    (dev : device) (tok : string) :
  a_stop a = false -> a_home a = false -> hasRelativeMove a = false ->
  hasAbsoluteMove a = true -> connected dev tok ->
  let run := controlPTZ config a speed duration dev in
  let wanted := target a (position_read dev) in
  (~ in_range wanted ->
   network_calls run = [init_event config; GetStatus tok] /\
   List.filter is_move (trace run) = [] /\
   outcome run = Exit 1) /\
  (in_range wanted ->
   List.filter is_move (trace run) = [AbsoluteMove tok wanted (uniform speed)]).
Proof.
  intros Hstop Hhome Hrel Habs Hconn run wanted. subst run wanted. split.
  - intros Hout.
    destruct (controlPTZ_absolute_rejected config a speed duration dev tok)
      as [e ->]; try assumption.
    repeat split; reflexivity.
  - intros Hin. by apply controlPTZ_absolute_accepted.
Qed.

Lemma absolute_move_out_of_range_sends_no_move_witness :
  List.filter is_move
    (trace (controlPTZ sample_config (flag_pan (Fin 2)) (Fin 0.5) None friendly_camera))
  = [] /\
  List.filter is_move
    (trace (controlPTZ sample_config (flag_pan (Fin (-0.8))) (Fin 0.5) None friendly_camera))
  = [AbsoluteMove "profile_1" {| vx := Fin (-0.8); vy := Fin 0; vz := Fin 0 |}
                  (uniform (Fin 0.5))].
Proof.
  split.
  - apply (absolute_move_out_of_range_sends_no_move
             sample_config (flag_pan (Fin 2)) (Fin 0.5) None friendly_camera "profile_1");
      try reflexivity.
    + repeat split; reflexivity.
    + intros [[_ H] _]. vm_compute in H. by apply H.
  - apply (absolute_move_out_of_range_sends_no_move
             sample_config (flag_pan (Fin (-0.8))) (Fin 0.5) None friendly_camera "profile_1");
      try reflexivity.
    + repeat split; reflexivity.
    + repeat split; vm_compute; discriminate.
Defined.

End PtzProperties.

(** ** Presets *)

Section PresetProperties.
Import Js Preset.

Lemma vtruthy_not_nullish (v : value) : vtruthy v = true -> vnullish v = false.
Proof. destruct v as [[] | |]; simpl; congruence. Qed.

Lemma normalize_record_of (p : value) :
  vnullish p = false -> normalize p = Ok (record_of p).
Proof. intros H. unfold normalize, get. rewrite H. reflexivity. Qed.

Lemma normalize_nullish (p : value) :
  vnullish p = true -> exists msg, normalize p = Throw msg.
Proof. intros H. unfold normalize, get. rewrite H. eexists. reflexivity. Qed.

Lemma rmap_normalize_ok (items : list value) :
  Forall (fun p => vnullish p = false) items ->
  rmap normalize items = Ok (map record_of items).
Proof.
  induction 1 as [| p items Hp _ IH]; [reflexivity |].
  simpl. rewrite (normalize_record_of p Hp). simpl. rewrite IH. reflexivity.
Qed.

Lemma rmap_normalize_throw (items : list value) (msg : string) :
  rmap normalize items = Throw msg ->
  Exists (fun p => vnullish p = true) items.
Proof.
  induction items as [| p items IH]; [discriminate |].
  destruct (vnullish p) eqn:Hp.
  - intros _. apply Exists_cons_hd. exact Hp.
  - simpl. rewrite (normalize_record_of p Hp). simpl.
    destruct (rmap normalize items) as [ys | e]; [discriminate |].
    intros H. injection H as ->. apply Exists_cons_tl. by apply IH.
Qed.

(** C7, as the claim words it, fails on the code: a response whose
    Preset field is an array holding [null] makes [extractPresets] throw a
    TypeError instead of returning a list. *)
Lemma extractPresets_throws_on_null_element :
  extractPresets (response_with (VArr [VNull]))
  = Throw "Cannot read properties of null (reading '$')" /\
  forall presets, extractPresets (response_with (VArr [VNull])) <> Ok presets.
Proof. split; [reflexivity | discriminate]. Qed.

(** C7 (amended): for every response, with [raw] its Preset field read
    through optional chaining,
    - a missing (or otherwise falsy) field gives the empty list, and so do
      the inputs [null], [undefined] and the empty object;
    - a single record, that is a truthy value that is not an array, gives
      a one-element list;
    - an array without [null] or [undefined] element gives one record per
      element, in the order of the array;
    - the name of a record is the empty string when the field Name is
      absent;
    - the call throws only when the field is an array with a [null] or
      [undefined] element. *)
Theorem extractPresets_normalizes (response : value) :
  let raw := preset_field response in
  (vtruthy raw = false -> extractPresets response = Ok []) /\
  (extractPresets VNull = Ok [] /\ extractPresets VUndefined = Ok [] /\
   extractPresets (VObj []) = Ok [] /\
   extractPresets (VObj [("data", VObj [("GetPresetsResponse", VObj [])])]) = Ok []) /\
  (vtruthy raw = true -> (forall items, raw <> VArr items) ->
   extractPresets response = Ok [record_of raw]) /\
  (forall items,
      raw = VArr items -> Forall (fun p => vnullish p = false) items ->
      extractPresets response = Ok (map record_of items)) /\
  (forall p, prop p "Name" = VUndefined -> rp_name (record_of p) = VStr "") /\
  (forall msg,
      extractPresets response = Throw msg ->
      exists items, raw = VArr items /\ Exists (fun p => vnullish p = true) items).
Proof.
  intros raw. unfold extractPresets. fold raw.
  split; [| split; [| split; [| split; [| split]]]].
  - intros ->. reflexivity.
  - repeat split; reflexivity.
  - intros Ht Hna. rewrite Ht. simpl.
    destruct raw as [p | items | props] eqn:Hraw.
    + simpl. rewrite normalize_record_of by (by apply vtruthy_not_nullish). reflexivity.
    + by destruct (Hna items).
    + reflexivity.
  - intros items -> Hall. simpl. by apply rmap_normalize_ok.
  - intros p Hp. unfold record_of. rewrite Hp. reflexivity.
  - intros msg. destruct (vtruthy raw) eqn:Ht; simpl; [| discriminate].
    destruct raw as [p | items | props] eqn:Hraw.
    + simpl. rewrite normalize_record_of by (by apply vtruthy_not_nullish). discriminate.
    + intros H. exists items. split; [reflexivity |]. by apply (rmap_normalize_throw items msg).
    + discriminate.
Qed.

Lemma extractPresets_normalizes_witness :
  extractPresets (response_with (record "1" "Home"))
  = Ok [{| rp_token := VStr "1"; rp_name := VStr "Home" |}] /\
  extractPresets
    (response_with (VArr [record "1" "Home"; nameless_record "2"; record "3" "Yard"]))
  = Ok [{| rp_token := VStr "1"; rp_name := VStr "Home" |};
        {| rp_token := VStr "2"; rp_name := VStr "" |};
        {| rp_token := VStr "3"; rp_name := VStr "Yard" |}].
Proof.
  split.
  - apply (extractPresets_normalizes (response_with (record "1" "Home"))).
    + reflexivity.
    + intros items. discriminate.
  - apply (proj1 (proj2 (proj2 (proj2
      (extractPresets_normalizes
         (response_with (VArr [record "1" "Home"; nameless_record "2"; record "3" "Yard"])))))))
      with (items := [record "1" "Home"; nameless_record "2"; record "3" "Yard"]).
    + reflexivity.
    + repeat constructor.
Defined.

Lemma matches_is_match (text : string) (p : preset) :
  matches text p = true <-> is_match text p.
Proof.
  unfold matches, is_match.
  rewrite orb_true_iff, andb_true_iff, negb_true_iff, !String.eqb_eq, String.eqb_neq.
  reflexivity.
Qed.

(** C8: [findPreset] turns the identifier into text and returns the first
    preset, in the order of the list, whose token is that text or whose
    name is not empty and equals the text once both are put in lower case;
    it returns [undefined] (here [None]) exactly when no preset matches.
    The function is total: it never throws. *)
Theorem findPreset_returns_first_match (presets : list preset) (val : prim) :
  match findPreset presets val with
  | Some p =>
      exists before after,
        presets = before ++ p :: after /\
        is_match (to_string val) p /\
        Forall (fun q => ~ is_match (to_string val) q) before
  | None => Forall (fun q => ~ is_match (to_string val) q) presets
  end.
Proof.
  unfold findPreset.
  induction presets as [| q presets IH]; simpl.
  - constructor.
  - destruct (matches (to_string val) q) eqn:Hq.
    + exists [], presets. split; [reflexivity |]. split; [| constructor].
      by apply matches_is_match.
    + assert (Hnot : ~ is_match (to_string val) q)
        by (rewrite <- matches_is_match; congruence).
      destruct (find (matches (to_string val)) presets) as [p |].
      * destruct IH as (before & after & -> & Hp & Hbefore).
        exists (q :: before), after. split; [reflexivity |]. split; [exact Hp |].
        by constructor.
      * by constructor.
Qed.

(** The lookups of the test suite: by token, by number turned into a
    token, by name in any case, and the two that find nothing. *)
Lemma findPreset_examples :
  findPreset sample_presets (PStr "2") = Some {| token := "2"; name := "Door" |} /\
  findPreset sample_presets (PNum 1) = Some {| token := "1"; name := "Home" |} /\
  findPreset sample_presets (PStr "home") = Some {| token := "1"; name := "Home" |} /\
  findPreset sample_presets (PStr "HOME") = Some {| token := "1"; name := "Home" |} /\
  findPreset sample_presets (PStr "Home") = Some {| token := "1"; name := "Home" |} /\
  findPreset sample_presets (PStr "99") = None /\
  findPreset sample_presets (PStr "nonexistent") = None.
Proof. repeat split; reflexivity. Qed.

End PresetProperties.

(** ** Snapshot capture *)

Section SnapshotProperties.
Import Js Snapshot.

(** Neither strategy touches a path other than the destination. *)
Lemma capture_frame (m : method) (w : world) (out : string) (d : files) (p : string) :
  p <> out ->
  fst (match m with
       | Onvif => captureViaOnvif w out d
       | Rtsp => captureViaRtsp w out d
       end) !! p = d !! p.
Proof.
  intros Hp. destruct m; unfold captureViaOnvif, captureViaRtsp.
  - destruct (init_answer w); [| reflexivity].
    destruct (ffmpeg_leaves w), (ffmpeg_answer w); simpl;
      try case_bool_decide; simpl; by rewrite ?lookup_insert_ne.
  - destruct (init_answer w); [| reflexivity].
    destruct (http_answer w) as [data |]; [| reflexivity].
    destruct (String.eqb data ""); [reflexivity |].
    destruct (write_answer w) as [| e [part |]]; simpl; by rewrite ?lookup_insert_ne.
Qed.

(** What a strategy leaves on the disk is the initial disk, possibly with
    new content at the destination. *)
Lemma capture_disk (m : method) (w : world) (out : string) (d : files) :
  delete out (match m with
              | Onvif => captureViaOnvif w out d
              | Rtsp => captureViaRtsp w out d
              end).1 = delete out d.
Proof.
  destruct m; unfold captureViaOnvif, captureViaRtsp.
  - destruct (init_answer w); [| reflexivity].
    destruct (ffmpeg_leaves w), (ffmpeg_answer w); simpl;
      try case_bool_decide; simpl; by rewrite ?delete_insert_eq.
  - destruct (init_answer w); [| reflexivity].
    destruct (http_answer w) as [data |]; [| reflexivity].
    destruct (String.eqb data ""); [reflexivity |].
    destruct (write_answer w) as [| e [part |]]; simpl; by rewrite ?delete_insert_eq.
Qed.

(** A strategy throws exactly in the listed failure cases. *)
Lemma capture_throws_iff (m : method) (w : world) (out : string) (d : files) :
  (exists e, (match m with
              | Onvif => captureViaOnvif w out d
              | Rtsp => captureViaRtsp w out d
              end).2 = Throw e)
  <-> fails m w out d.
Proof.
  split.
  - intros [e He]. destruct m; unfold captureViaOnvif, captureViaRtsp in He.
    + destruct (init_answer w) as [[] | e0] eqn:Hinit; [| by eapply fails_session].
      destruct (ffmpeg_answer w) as [[] | e1] eqn:Hff; [| by eapply fails_transcoder].
      destruct (ffmpeg_leaves w) as [bytes |] eqn:Hleft.
      * rewrite bool_decide_eq_true_2 in He by (rewrite lookup_insert_eq; eauto).
        discriminate He.
      * case_bool_decide as Hex; [discriminate He |].
        apply fails_no_file; [exact Hleft | by apply eq_None_not_Some].
    + destruct (init_answer w) as [[] | e0] eqn:Hinit; [| by eapply fails_session].
      destruct (http_answer w) as [data |] eqn:Hhttp; [| by eapply fails_request].
      destruct (String.eqb data "") eqn:Hdata.
      * apply String.eqb_eq in Hdata. subst data. by apply fails_empty_body.
      * destruct (write_answer w) as [| e1 leftover] eqn:Hwrite; [discriminate He |].
        by eapply fails_write.
  - intros Hfails.
    destruct Hfails as [m w out d e Hinit | w out d e Hhttp | w out d Hhttp
                       | w out d e leftover Hwrite | w out d e Hff | w out d Hleft Hnone].
    + destruct m; unfold captureViaOnvif, captureViaRtsp; rewrite Hinit; eauto.
    + unfold captureViaOnvif. rewrite Hhttp. destruct (init_answer w); eauto.
    + unfold captureViaOnvif. rewrite Hhttp. destruct (init_answer w); simpl; eauto.
    + unfold captureViaOnvif. rewrite Hwrite.
      destruct (init_answer w); [| eauto].
      destruct (http_answer w) as [data |]; [| eauto].
      destruct (String.eqb data ""); [eauto |]. destruct leftover; eauto.
    + unfold captureViaRtsp. rewrite Hff. destruct (init_answer w); eauto.
    + unfold captureViaRtsp. rewrite Hleft.
      destruct (init_answer w); [| eauto].
      destruct (ffmpeg_answer w); [| eauto].
      rewrite bool_decide_eq_false_2 by (rewrite Hnone; by intros [? ?]). eauto.
Qed.

(** C10: the capture fails, with either strategy, in the cases listed by
    [fails]: no session, a failed request or an empty body or a failed
    write (ONVIF), an error or the timeout of the transcoder or no file
    after it ended (RTSP).  In each of them the process exits with code 1
    after one line on the error stream, and the disk it leaves is the
    initial disk without the file at the resolved destination path,
    whether this run wrote that file or it was there before the run: the
    destination holds no file and no other path has changed.  The exit
    code is 1 in these cases only, and 0 otherwise. *)
Theorem captureSnapshot_failure_removes_destination
    (m : method) (w : world) (out : string) (d : files) :
  let run := captureSnapshot m w out d in
  (fails m w out d ->
   run.2 = 1 /\
   disk run.1 = delete out d /\
   disk run.1 !! out = None /\
   (forall p, p <> out -> disk run.1 !! p = d !! p) /\
   exists e, stderr run.1 = ["Error: " +:+ Common.formatError e]) /\
  (run.2 = 1 -> fails m w out d) /\
  (run.2 = 0 \/ run.2 = 1).
Proof.
  intros run. subst run. unfold captureSnapshot.
  pose proof (capture_disk m w out d) as Hdisk.
  pose proof (capture_throws_iff m w out d) as Hthrows.
  destruct (match m with
            | Onvif => captureViaOnvif w out d
            | Rtsp => captureViaRtsp w out d
            end) as [d' [[] | e]]; simpl in *.
  - split; [| split; [discriminate | by left]].
    intros Hf. apply Hthrows in Hf as [e He]. discriminate He.
  - split; [| split; [intros _; apply Hthrows; eauto | by right]].
    intros _.
    assert (Hfinal : (if bool_decide (is_Some (d' !! out)) then delete out d' else d')
                     = delete out d).
    { case_bool_decide as Hex; [exact Hdisk |].
      rewrite <- Hdisk. symmetry. apply delete_id. by apply eq_None_not_Some. }
    rewrite Hfinal. split; [reflexivity |]. split; [reflexivity |].
    split; [apply lookup_delete_eq |].
    split; [intros p Hp; by rewrite lookup_delete_ne | eauto].
Qed.

Lemma captureSnapshot_failure_removes_destination_witness :
  (captureSnapshot Onvif refusing_camera "/home/user/snap.jpg" disk_with_old_picture).2 = 1 /\
  disk (captureSnapshot Onvif refusing_camera "/home/user/snap.jpg" disk_with_old_picture).1
  = delete "/home/user/snap.jpg" disk_with_old_picture.
Proof.
  pose proof (proj1 (captureSnapshot_failure_removes_destination
                       Onvif refusing_camera "/home/user/snap.jpg" disk_with_old_picture)
                (fails_request refusing_camera "/home/user/snap.jpg" disk_with_old_picture
                   "HTTP 401 from snapshot endpoint" eq_refl))
    as (Hcode & Hdisk & _).
  split; [exact Hcode | exact Hdisk].
Defined.

End SnapshotProperties.

(** ** The dotfile *)

Section DotenvProperties.
Import Js Dotenv.

Lemma append_assoc (a b c : string) : (a +:+ b) +:+ c = a +:+ (b +:+ c).
Proof.
  induction a as [| x a IH]; [reflexivity |].
  change (String x ((a +:+ b) +:+ c) = String x (a +:+ (b +:+ c))).
  by rewrite IH.
Qed.

Lemma append_nonempty_r (a b : string) : b <> EmptyString -> a +:+ b <> EmptyString.
Proof. destruct a; simpl; [done | discriminate]. Qed.

Lemma skip_space_length (s : string) :
  (String.length (skip_space s) <= String.length s)%nat.
Proof.
  induction s as [| c s IH]; simpl; [lia |].
  destruct (is_space c); simpl; lia.
Qed.

Lemma skip_space_app (k x : string) :
  k <> EmptyString -> skip_space k = k -> skip_space (k +:+ x) = k +:+ x.
Proof.
  destruct k as [| c k]; [done |]. simpl. intros _ H.
  destruct (is_space c); [| reflexivity].
  exfalso. apply (f_equal String.length) in H.
  pose proof (skip_space_length k). simpl in H. lia.
Qed.

Lemma trim_end_app (x w : string) :
  w <> EmptyString -> trim_end w = w -> trim_end (x +:+ w) = x +:+ w.
Proof.
  intros Hw Ht. induction x as [| c x IH]; [exact Ht |].
  change (String c x +:+ w) with (String c (x +:+ w)).
  simpl. rewrite IH. destruct (x +:+ w) eqn:E; [| reflexivity].
  by apply append_nonempty_r in E.
Qed.

Lemma tidy_trim (s : string) : tidy s -> trim s = s.
Proof. intros [H1 H2]. unfold trim. by rewrite H1. Qed.

(** A line made of a tidy, non-empty left part and a tidy right part
    around a character that is not white space is tidy. *)
Lemma trim_around (k v : string) (c : ascii) :
  is_space c = false -> k <> EmptyString -> tidy k -> trim_end v = v ->
  trim (k +:+ String c v) = k +:+ String c v.
Proof.
  intros Hc Hk [Hk1 _] Hv. unfold trim. rewrite (skip_space_app k _ Hk Hk1).
  destruct v as [| d v].
  - apply trim_end_app; [discriminate |]. simpl. by rewrite Hc.
  - replace (k +:+ String c (String d v))
      with ((k +:+ String c EmptyString) +:+ String d v)
      by (by rewrite append_assoc).
    apply trim_end_app; [discriminate | exact Hv].
Qed.

Lemma cut_app (sep : ascii) (k v : string) :
  free_of sep k = true -> cut sep (k +:+ String sep v) = Some (k, v).
Proof.
  induction k as [| c k IH]; simpl.
  - intros _. by rewrite Ascii.eqb_refl.
  - intros [Hc Hk]%andb_true_iff. apply negb_true_iff in Hc.
    by rewrite Hc, (IH Hk).
Qed.

Lemma startsWith_char_app (c : ascii) (k x : string) :
  k <> EmptyString ->
  startsWith (String c EmptyString) (k +:+ x) = startsWith (String c EmptyString) k.
Proof. destruct k; [done | reflexivity]. Qed.

Lemma read_line_pair (result : gmap string string) (k v : string) :
  plain_key k -> plain_value v ->
  read_line result (k +:+ "=" +:+ v) = <[k := v]> result.
Proof.
  intros (Hk & Htk & Heq & _ & Hhash & Hproto) (Htv & _ & Hq).
  apply String.eqb_neq in Hproto.
  unfold read_line.
  change (k +:+ "=" +:+ v) with (k +:+ String "=" v).
  rewrite (trim_around k v "=") by (done || apply Htv).
  assert (String.eqb (k +:+ String "=" v) "" = false) as ->
    by (apply String.eqb_neq; destruct k; [done | discriminate]).
  rewrite (startsWith_char_app "#" k _ Hk), Hhash. simpl.
  rewrite (cut_app "=" k v Heq), (tidy_trim k Htk), (tidy_trim v Htv), Hq, Hproto.
  reflexivity.
Qed.

Lemma read_line_ignorable (result : gmap string string) (line : string) :
  ignorable line -> read_line result line = result.
Proof.
  unfold ignorable, read_line. intros [-> | [-> | ->]].
  - reflexivity.
  - by rewrite orb_true_r.
  - by destruct (_ || _).
Qed.

Lemma split_join (sep : ascii) (parts : list string) :
  parts <> [] -> Forall (fun p => free_of sep p = true) parts ->
  split sep (join sep parts) = parts.
Proof.
  intros Hne Hall. induction Hall as [| p parts Hp Hall IH]; [done |].
  destruct parts as [| q parts].
  - simpl. by apply split_free.
  - change (join sep (p :: q :: parts))
      with (p +:+ String sep EmptyString +:+ join sep (q :: parts)).
    rewrite split_app_free by exact Hp. by rewrite IH.
Qed.

Lemma foldl_insert_pairs (pairs : list (string * string)) :
  forall m : gmap string string,
    foldl (fun m kv => <[kv.1 := kv.2]> m) m pairs = list_to_map (reverse pairs) ∪ m.
Proof.
  induction pairs as [| [k v] pairs IH]; intros m; simpl.
  - by rewrite (left_id_L ∅ (∪)).
  - rewrite IH, reverse_cons, list_to_map_app. simpl.
    rewrite insert_empty. rewrite <- (assoc_L (∪)).
    by rewrite <- insert_union_singleton_l.
Qed.

Lemma read_lines_pairs (pairs : list (string * string)) :
  Forall (fun kv => plain_key kv.1 /\ plain_value kv.2) pairs ->
  forall m, foldl read_line m (map (fun kv => kv.1 +:+ "=" +:+ kv.2) pairs)
            = foldl (fun m kv => <[kv.1 := kv.2]> m) m pairs.
Proof.
  induction 1 as [| [k v] pairs [Hk Hv] _ IH]; intros m; simpl; [reflexivity |].
  rewrite (read_line_pair m k v Hk Hv). apply IH.
Qed.

Lemma free_of_app (sep : ascii) (a b : string) :
  free_of sep (a +:+ b) = free_of sep a && free_of sep b.
Proof.
  induction a as [| c a IH]; simpl; [reflexivity |].
  by rewrite IH, andb_assoc.
Qed.

Lemma loadDotenv_render (pairs : list (string * string)) :
  Forall (fun kv => plain_key kv.1 /\ plain_value kv.2) pairs ->
  loadDotenv (Some (render pairs)) = list_to_map (reverse pairs).
Proof.
  intros Hall. unfold loadDotenv, render, read_lines.
  destruct pairs as [| kv pairs]; [reflexivity |].
  rewrite split_join.
  - rewrite (read_lines_pairs _ Hall), foldl_insert_pairs.
    by rewrite (right_id_L ∅ (∪)).
  - discriminate.
  - apply Forall_map. eapply Forall_impl; [exact Hall |].
    intros [k v] [(_ & _ & _ & Hk & _ & _) (_ & Hv & _)]. simpl in *.
    change (k +:+ "=" +:+ v) with (k +:+ String "=" v).
    rewrite free_of_app. simpl. by rewrite Hk, Hv.
Qed.

(** Round trip through the dotfile: a text with one line [KEY=VALUE] per
    pair, keys and values being plain, is read back as the map of these
    pairs, a later line overriding an earlier one with the same key. *)
Theorem loadDotenv_reads_back_rendered_pairs (pairs : list (string * string)) :
  Forall (fun kv => plain_key kv.1 /\ plain_value kv.2) pairs ->
  loadDotenv (Some (render pairs)) = list_to_map (reverse pairs).
Proof. apply loadDotenv_render. Qed.

Lemma loadDotenv_reads_back_rendered_pairs_witness :
  loadDotenv (Some (render [("ONVIF_PORT", "2020"); ("IP_ADDRESS", "10.0.0.1");
                            ("ONVIF_PORT", "8080")]))
  = list_to_map (reverse [("ONVIF_PORT", "2020"); ("IP_ADDRESS", "10.0.0.1");
                          ("ONVIF_PORT", "8080")]).
Proof.
  apply loadDotenv_reads_back_rendered_pairs.
  repeat constructor; simpl; discriminate.
Defined.

Lemma loadDotenv_lines (lines : list string) :
  lines <> [] -> Forall (fun l => free_of newline l = true) lines ->
  loadDotenv (Some (join newline lines)) = read_lines lines.
Proof. intros Hne Hall. unfold loadDotenv. by rewrite split_join. Qed.

(** Blank lines, comments and lines without equals sign can be removed
    from a dotfile, or added to it, without changing what is read. *)
Theorem loadDotenv_skips_ignorable_lines (before after : list string) (junk : string) :
  ignorable junk ->
  Forall (fun l => free_of newline l = true) (before ++ junk :: after) ->
  loadDotenv (Some (join newline (before ++ junk :: after)))
  = loadDotenv (Some (join newline (before ++ after))).
Proof.
  intros Hjunk Hall.
  rewrite loadDotenv_lines by (done || by destruct before).
  unfold read_lines. rewrite foldl_app. cbn [foldl].
  rewrite (read_line_ignorable _ junk Hjunk), <- foldl_app.
  destruct (before ++ after) as [| l ls] eqn:E; [reflexivity |].
  rewrite loadDotenv_lines; [reflexivity | discriminate |].
  rewrite <- E. apply Forall_app in Hall as [Hb Ha].
  apply Forall_app. split; [exact Hb | by inversion Ha].
Qed.

Lemma loadDotenv_skips_ignorable_lines_witness :
  loadDotenv (Some (join newline (["IP_ADDRESS=10.0.0.1"] ++ "# the camera" :: ["USERNAME=admin"])))
  = loadDotenv (Some (join newline (["IP_ADDRESS=10.0.0.1"] ++ ["USERNAME=admin"]))).
Proof.
  apply loadDotenv_skips_ignorable_lines.
  - right. left. reflexivity.
  - repeat constructor.
Defined.

Lemma ends_with_snoc (q : ascii) (x : string) :
  ends_with q (x +:+ String q EmptyString) = true.
Proof.
  induction x as [| c x IH]; [simpl; apply Ascii.eqb_refl |].
  change (String c x +:+ String q EmptyString) with (String c (x +:+ String q EmptyString)).
  simpl. destruct (x +:+ String q EmptyString) eqn:E; [| exact IH].
  by apply append_nonempty_r in E.
Qed.

Lemma drop_last_snoc (q : ascii) (x : string) :
  drop_last (x +:+ String q EmptyString) = x.
Proof.
  induction x as [| c x IH]; [reflexivity |].
  change (String c x +:+ String q EmptyString) with (String c (x +:+ String q EmptyString)).
  simpl. destruct (x +:+ String q EmptyString) eqn:E; [by apply append_nonempty_r in E |].
  by rewrite IH.
Qed.

Lemma unquote_quoted (q : ascii) (v : string) :
  q = double_quote \/ q = single_quote ->
  unquote (String q (v +:+ String q EmptyString)) = v.
Proof.
  intros Hq. unfold unquote.
  assert (Hend : ends_with q (String q (v +:+ String q EmptyString)) = true)
    by apply (ends_with_snoc q (String q v)).
  assert (Hin : slice_inner (String q (v +:+ String q EmptyString)) = v)
    by apply drop_last_snoc.
  rewrite Hin.
  destruct Hq as [-> | ->]; rewrite Hend; reflexivity.
Qed.

(** A value written between matching double or single quotes is read
    without the quotes and with everything between them kept, white space
    at either end included. *)
Theorem loadDotenv_unquotes_value (k v : string) (q : ascii) :
  plain_key k -> q = double_quote \/ q = single_quote ->
  free_of newline v = true ->
  loadDotenv (Some (k +:+ "=" +:+ String q (v +:+ String q EmptyString))) = {[ k := v ]}.
Proof.
  intros Hkey Hq Hv.
  pose proof Hkey as (Hk & Htk & Heq & Hnl & Hhash & Hproto).
  apply String.eqb_neq in Hproto.
  assert (Hsp : is_space q = false) by (by destruct Hq as [-> | ->]).
  assert (Hqn : Ascii.eqb q newline = false) by (by destruct Hq as [-> | ->]).
  set (quoted := String q (v +:+ String q EmptyString)).
  assert (Hend : trim_end quoted = quoted).
  { unfold quoted.
    change (String q (v +:+ String q EmptyString))
      with (String q v +:+ String q EmptyString).
    apply trim_end_app; [discriminate |]. simpl. by rewrite Hsp. }
  assert (Htrim : trim quoted = quoted).
  { unfold trim. unfold quoted at 1. simpl skip_space. rewrite Hsp. exact Hend. }
  assert (Hun : unquote quoted = v).
  { by apply unquote_quoted. }
  etrans; [apply (loadDotenv_lines [k +:+ String "=" quoted]) |].
  - discriminate.
  - constructor; [| constructor].
    rewrite free_of_app, Hnl. unfold quoted. simpl. rewrite Hqn. simpl.
    rewrite free_of_app, Hv. simpl. by rewrite Hqn.
  - unfold read_lines. simpl. unfold read_line.
    rewrite (trim_around k quoted "=") by done.
    assert (String.eqb (k +:+ String "=" quoted) "" = false) as ->
      by (apply String.eqb_neq; destruct k; [done | discriminate]).
    rewrite (startsWith_char_app "#" k _ Hk), Hhash. simpl.
    rewrite (cut_app "=" k quoted Heq), (tidy_trim k Htk), Htrim, Hun, Hproto.
    by rewrite insert_empty.
Qed.

Lemma loadDotenv_unquotes_value_witness :
  loadDotenv (Some ("PASSWORD" +:+ "=" +:+ String double_quote (" a b " +:+ String double_quote EmptyString)))
  = {[ "PASSWORD" := " a b " ]}.
Proof.
  apply loadDotenv_unquotes_value.
  - repeat split; discriminate.
  - left. reflexivity.
  - reflexivity.
Defined.

End DotenvProperties.

(** ** Configuration resolution, continued *)

Section ConfigInvariants.
Import Js Common Notions.

(** Reading the raw port fails only on a configuration file that holds
    [null]. *)
Lemma effective_port_throws (argv : fields) (env dotenv : vars) (fileConfig : parsed)
    (defaults : fields) (msg : string) :
  effective_port argv env dotenv fileConfig defaults = Throw msg ->
  fileConfig = JsonNull /\ msg = null_read "port".
Proof.
  unfold effective_port, coalesce_with.
  destruct (nullish (f_port argv)); [| discriminate].
  destruct (nullish (of_env (ONVIF_PORT env))); [| discriminate].
  destruct (nullish (of_env (ONVIF_PORT dotenv))); [| discriminate].
  destruct fileConfig; simpl; [discriminate | | discriminate].
  intros [= <-]. split; reflexivity.
Qed.

(** A source above the configuration file that gives a port decides
    the raw port. *)
Lemma effective_port_above (argv : fields) (env dotenv : vars) (fileConfig : parsed)
    (defaults : fields) :
  let above := coalesce (f_port argv)
                 (coalesce (of_env (ONVIF_PORT env)) (of_env (ONVIF_PORT dotenv))) in
  nullish above = false ->
  effective_port argv env dotenv fileConfig defaults = Ok above.
Proof.
  unfold effective_port, coalesce_with, coalesce.
  destruct (nullish (f_port argv)); [| reflexivity].
  destruct (nullish (of_env (ONVIF_PORT env))); [| reflexivity].
  destruct (nullish (of_env (ONVIF_PORT dotenv))); [discriminate | reflexivity].
Qed.

(** One property of the returned object: the configuration file is read
    only when the three sources above it give nothing truthy. *)
Lemma or_else_chain (a b c : prim) (file : result prim) :
  or_else_with a (or_else_with b (or_else_with c file))
  = if truthy (or_else a (or_else b c)) then Ok (or_else a (or_else b c)) else file.
Proof.
  unfold or_else_with, or_else.
  destruct (truthy a) eqn:Ha; cbv iota; [by rewrite Ha |].
  destruct (truthy b) eqn:Hb; cbv iota; [by rewrite Hb |].
  destruct (truthy c) eqn:Hc; cbv iota; by rewrite ?Hc.
Qed.

(** The outcome of the [return] statement. *)
Lemma profile_keeps_port (argv : fields) (env dotenv : vars) (fileConfig : parsed)
    (defaults : fields) (p : Z) :
  keeps_port argv env dotenv fileConfig
    (profile argv env dotenv fileConfig defaults p) p.
Proof.
  unfold keeps_port, profile, credentials_above. rewrite !or_else_chain.
  destruct (truthy (or_else (f_ip argv) _)),
           (truthy (or_else (f_username argv) _)),
           (truthy (or_else (f_password argv) _));
    destruct fileConfig as [f | |]; simpl;
    first [ split; [reflexivity | first [discriminate | reflexivity]]
          | split; [reflexivity | split; [reflexivity | tauto]] ].
Qed.

(** The port of a configuration that [loadConfig] returns is the integer
    read from the first source that is neither [undefined] nor [null], and
    it lies between 1 and 65535.  When the call throws, either that
    integer is missing or out of range and the error is the one of the
    port check, or the configuration file holds [null] and the error is
    the [TypeError] of reading one of its properties. *)
Theorem loadConfig_port_in_range (argv : fields) (env dotenv : vars)
    (fileConfig : parsed) (defaults : fields) :
  match loadConfig argv env dotenv fileConfig defaults with
  | Ok cfg =>
      exists raw,
        effective_port argv env dotenv fileConfig defaults = Ok raw /\
        parseInt raw = Some (port cfg) /\ 1 <= port cfg <= 65535
  | Throw msg =>
      (fileConfig = JsonNull /\ null_file_error msg) \/
      (exists raw shown,
         effective_port argv env dotenv fileConfig defaults = Ok raw /\
         (forall p, parseInt raw = Some p -> p < 1 \/ 65535 < p) /\
         msg = "Invalid port number: " +:+ shown +:+ ". Must be 1-65535")
  end.
Proof.
  unfold loadConfig, null_file_error.
  destruct (effective_port argv env dotenv fileConfig defaults) as [raw | msg] eqn:Hraw.
  2:{ apply effective_port_throws in Hraw as [-> ->]. left.
      split; [reflexivity | left; reflexivity]. }
  simpl rbind.
  assert (Hreject : forall (bad : forall p, parseInt raw = Some p -> p < 1 \/ 65535 < p),
             match reject argv env fileConfig defaults with
             | Ok cfg =>
                 exists raw0, Ok raw = Ok raw0 /\
                   parseInt raw0 = Some (port cfg) /\ 1 <= port cfg <= 65535
             | Throw msg =>
                 (fileConfig = JsonNull /\
                  In msg [null_read "port"; null_read "ip"; null_read "username";
                          null_read "password"]) \/
                 (exists raw0 shown, Ok raw = Ok raw0 /\
                    (forall p, parseInt raw0 = Some p -> p < 1 \/ 65535 < p) /\
                    msg = "Invalid port number: " +:+ shown +:+ ". Must be 1-65535")
             end).
  { intros bad.
    destruct (reject_throws argv env fileConfig defaults)
      as (msg & -> & [[-> ->] | [shown ->]]).
    - left. split; [reflexivity | left; reflexivity].
    - right. exists raw, shown. repeat split; [exact bad]. }
  destruct (parseInt raw) as [p |] eqn:Hparse; [| apply Hreject; discriminate].
  destruct (p <? 1) eqn:Hlo; simpl.
  { apply Hreject. intros q [= <-]. lia. }
  destruct (p >? 65535) eqn:Hhi; simpl.
  { apply Hreject. intros q [= <-]. lia. }
  pose proof (profile_port argv env dotenv fileConfig defaults p) as Hprof.
  destruct (profile argv env dotenv fileConfig defaults p) as [cfg | msg].
  - subst p. exists raw. repeat split; [exact Hparse | lia | lia].
  - destruct Hprof as [-> Hin]. left. split; [reflexivity |].
    simpl in Hin. simpl. tauto.
Qed.

Lemma loadConfig_port_in_range_witness :
  exists raw,
    effective_port (only_port (PNum 8080)) no_vars no_vars no_file no_fields = Ok raw /\
    parseInt raw = Some 8080 /\ 1 <= 8080 <= 65535.
Proof.
  exact (loadConfig_port_in_range (only_port (PNum 8080)) no_vars no_vars
           no_file no_fields).
Defined.

Lemma holds_from_spec (f : Z -> bool) (count : nat) :
  forall start z,
    holds_from f start count = true -> start <= z < start + Z.of_nat count ->
    f z = true.
Proof.
  induction count as [| count IH]; intros start z; [lia |].
  simpl holds_from. intros [Hs Hrest]%andb_true_iff Hz.
  destruct (decide (z = start)) as [-> | Hne]; [exact Hs |].
  apply (IH (start + 1)); [exact Hrest | lia].
Qed.

Lemma ports_checked : holds_from prints_and_reads 0 (Z.to_nat 65536) = true.
Proof. vm_compute. reflexivity. Qed.

Lemma port_prints_and_reads (p : Z) :
  0 <= p <= 65535 ->
  all_digits (string_of_Z p) = true /\ read_digits (string_of_Z p) None = Some p.
Proof.
  intros [Hlo Hhi].
  assert (Hin : prints_and_reads p = true)
    by (apply (holds_from_spec _ _ 0 p ports_checked); lia).
  unfold prints_and_reads in Hin.
  apply andb_true_iff in Hin as [Hd Hr]. split; [exact Hd |].
  destruct (read_digits (string_of_Z p) None) as [m |]; [| discriminate].
  apply Z.eqb_eq in Hr. by subst.
Qed.

Lemma read_digits_app (s tail : string) :
  all_digits s = true -> stops_number tail ->
  forall acc, read_digits (s +:+ tail) acc = read_digits s acc.
Proof.
  intros Hs Htail. induction s as [| c s IH]; intros acc.
  - destruct tail as [| d tail]; [reflexivity |]. simpl in *. by rewrite Htail.
  - simpl in Hs. apply andb_true_iff in Hs as [Hc Hs].
    change (String c s +:+ tail) with (String c (s +:+ tail)).
    simpl. rewrite Hc. by apply IH.
Qed.

Lemma digit_is_plain (c : ascii) :
  is_digit c = true ->
  is_space c = false /\ c <> "-"%char /\ c <> "+"%char.
Proof.
  destruct c as [[] [] [] [] [] [] [] []]; vm_compute; intros H;
    try discriminate H; repeat split; discriminate.
Qed.

Lemma parseInt_str_digits (c : ascii) (s tail : string) :
  all_digits (String c s) = true -> stops_number tail ->
  parseInt_str (String c s +:+ tail) = read_digits (String c s) None.
Proof.
  intros Hs Htail.
  pose proof Hs as [Hc _]%andb_true_iff.
  destruct (digit_is_plain c Hc) as (Hsp & Hminus & Hplus).
  unfold parseInt_str.
  change (String c s +:+ tail) with (String c (s +:+ tail)).
  simpl skip_space. rewrite Hsp.
  transitivity (read_digits (String c (s +:+ tail)) None).
  - destruct c as [[] [] [] [] [] [] [] []]; try reflexivity; congruence.
  - by apply (read_digits_app (String c s) tail).
Qed.

Lemma parseInt_port_text (p : Z) (tail : string) :
  0 <= p <= 65535 -> stops_number tail ->
  parseInt_str (string_of_Z p +:+ tail) = Some p.
Proof.
  intros Hp Htail. destruct (port_prints_and_reads p Hp) as [Hd Hr].
  destruct (string_of_Z p) as [| c s]; [discriminate |].
  by rewrite parseInt_str_digits.
Qed.

(** Every integer from 1 to 65535 given on the command line, as a number
    or as its decimal text, possibly followed by characters that do not
    continue the number, is the port of the configuration that is
    returned, and the port check never refuses it, whatever the
    environment, the dotfile, the defaults and an object in the
    configuration file hold.  The call fails in one case only: the
    configuration file holds [null] and is read for an address, a user
    name or a password that no source above it gives. *)
Theorem loadConfig_cli_port_is_kept (argv : fields) (env dotenv : vars)
    (fileConfig : parsed) (defaults : fields) (p : Z) (tail : string) :
  1 <= p <= 65535 -> stops_number tail ->
  f_port argv = PNum p \/ f_port argv = PStr (string_of_Z p +:+ tail) ->
  keeps_port argv env dotenv fileConfig
    (loadConfig argv env dotenv fileConfig defaults) p /\
  (fileConfig <> JsonNull \/ credentials_above argv env dotenv = true ->
   port_of (loadConfig argv env dotenv fileConfig defaults) = Some p).
Proof.
  intros Hp Htail Hport.
  assert (Hparse : parseInt (f_port argv) = Some p).
  { destruct Hport as [-> | ->]; unfold parseInt, to_string.
    - rewrite <- (parseInt_port_text p EmptyString) by (lia || exact I).
      f_equal. clear. induction (string_of_Z p) as [| c s IH]; [reflexivity |].
      change (String c s +:+ "") with (String c (s +:+ "")). by rewrite <- IH.
    - apply parseInt_port_text; [lia | exact Htail]. }
  assert (Hnn : nullish (f_port argv) = false) by (by destruct Hport as [-> | ->]).
  rewrite (loadConfig_accepts _ _ _ _ _ (f_port argv) p);
    [| unfold effective_port, coalesce_with; by rewrite Hnn | exact Hparse | exact Hp].
  pose proof (profile_keeps_port argv env dotenv fileConfig defaults p) as Hkeep.
  split; [exact Hkeep |].
  unfold keeps_port in Hkeep.
  destruct (profile argv env dotenv fileConfig defaults p) as [cfg | msg].
  - intros _. simpl. f_equal. apply Hkeep.
  - destruct Hkeep as (-> & Hc & _). intros [H | H]; [done | congruence].
Qed.

Lemma loadConfig_cli_port_is_kept_witness :
  port_of (loadConfig (only_port (PStr ("554" +:+ "/tcp")))
             {| IP_ADDRESS := None; USERNAME := None; PASSWORD := None;
                ONVIF_PORT := Some "8080" |}
             no_vars no_file no_fields)
  = Some 554.
Proof.
  apply (loadConfig_cli_port_is_kept _ _ _ _ _ 554 "/tcp").
  - lia.
  - reflexivity.
  - right. reflexivity.
  - left. discriminate.
Defined.

(** A port given on the command line (anything but [undefined] and
    [null]) hides the port of every other source.  As long as the
    configuration file does not hold [null], neither the success of the
    call nor the port it returns depends on the other sources; and a
    configuration file that holds [null] can turn a returned configuration
    into a [TypeError], never into another port.  The scripts declare 2020
    as the default of the flag, so they always give one. *)
Theorem loadConfig_cli_port_hides_other_sources (argv : fields)
    (env env' dotenv dotenv' : vars) (fileConfig fileConfig' : parsed)
    (defaults defaults' : fields) :
  nullish (f_port argv) = false ->
  (fileConfig <> JsonNull -> fileConfig' <> JsonNull ->
   port_of (loadConfig argv env dotenv fileConfig defaults)
   = port_of (loadConfig argv env' dotenv' fileConfig' defaults')) /\
  (forall p,
     port_of (loadConfig argv env dotenv fileConfig defaults) = Some p ->
     keeps_port argv env' dotenv' fileConfig'
       (loadConfig argv env' dotenv' fileConfig' defaults') p).
Proof.
  intros Hnn.
  assert (Hraw : forall e d f df, effective_port argv e d f df = Ok (f_port argv))
    by (intros; unfold effective_port, coalesce_with; by rewrite Hnn).
  assert (Hrej : forall e f df, port_of (reject argv e f df) = None)
    by (intros e f df; by destruct (reject_throws argv e f df) as (msg & -> & _)).
  unfold loadConfig. rewrite !Hraw. simpl rbind.
  destruct (parseInt (f_port argv)) as [p |].
  2:{ rewrite !Hrej. split; [reflexivity | discriminate]. }
  destruct ((p <? 1) || (p >? 65535)).
  { rewrite !Hrej. split; [reflexivity | discriminate]. }
  split.
  - intros Hf Hf'.
    destruct (profile_returns argv env dotenv fileConfig defaults p Hf) as (cfg & -> & Hc).
    destruct (profile_returns argv env' dotenv' fileConfig' defaults' p Hf')
      as (cfg' & -> & Hc').
    simpl. congruence.
  - intros q Hq.
    pose proof (profile_port argv env dotenv fileConfig defaults p) as Hprof.
    destruct (profile argv env dotenv fileConfig defaults p) as [cfg | msg];
      [| discriminate].
    simpl in Hq. injection Hq as <-. rewrite Hprof.
    apply profile_keeps_port.
Qed.

Lemma loadConfig_cli_port_hides_other_sources_witness :
  port_of (loadConfig (only_port (PNum 2020))
             {| IP_ADDRESS := None; USERNAME := None; PASSWORD := None;
                ONVIF_PORT := Some "8080" |}
             no_vars (JsonObject (only_port (PNum 9000))) no_fields)
  = port_of (loadConfig (only_port (PNum 2020)) no_vars no_vars JsonOther no_fields).
Proof.
  apply loadConfig_cli_port_hides_other_sources; [reflexivity | discriminate | discriminate].
Defined.

(** A variable ONVIF_PORT that is set but holds no number (the empty text,
    for one) is not skipped: without a port on the command line the call
    throws, whatever the dotfile, the configuration file and the defaults
    hold. *)
Theorem loadConfig_unreadable_env_port_throws (argv : fields) (env dotenv : vars)
    (fileConfig : parsed) (defaults : fields) (text : string) :
  nullish (f_port argv) = true -> ONVIF_PORT env = Some text ->
  parseInt_str text = None ->
  exists msg, loadConfig argv env dotenv fileConfig defaults = Throw msg.
Proof.
  intros Hnull Henv Hparse. unfold loadConfig, effective_port, coalesce_with.
  rewrite Hnull, Henv. simpl nullish. cbv iota. simpl rbind.
  unfold parseInt. simpl to_string. rewrite Hparse.
  destruct (reject_throws argv env fileConfig defaults) as (msg & Hmsg & _).
  by exists msg.
Qed.

Lemma loadConfig_unreadable_env_port_throws_witness :
  exists msg,
    loadConfig no_fields
      {| IP_ADDRESS := None; USERNAME := None; PASSWORD := None; ONVIF_PORT := Some "" |}
      no_vars (JsonObject (only_port (PNum 8080))) no_fields = Throw msg.
Proof.
  apply (loadConfig_unreadable_env_port_throws _ _ _ _ _ ""); reflexivity.
Defined.

End ConfigInvariants.

(** ** Error formatting and validation, continued *)

Section FormatAndValidate.
Import Js Common Notions Num Range.

Lemma startsWith_app (p b : string) : startsWith p (p +:+ b) = true.
Proof.
  induction p as [| c p IH]; [reflexivity |].
  change (String c p +:+ b) with (String c (p +:+ b)).
  simpl. by rewrite Ascii.eqb_refl, IH.
Qed.

Lemma includes_app_l (a s p : string) :
  includes s p = true -> includes (a +:+ s) p = true.
Proof.
  intros H. induction a as [| c a IH]; [exact H |].
  change (String c a +:+ s) with (String c (a +:+ s)).
  simpl. rewrite IH. apply orb_true_r.
Qed.

Lemma includes_middle (a m b : string) : includes (a +:+ m +:+ b) m = true.
Proof.
  apply includes_app_l.
  destruct m as [| c m]; [by destruct b |].
  change (String c m +:+ b) with (String c (m +:+ b)).
  change (includes (String c (m +:+ b)) (String c m))
    with (startsWith (String c m) (String c (m +:+ b)) || includes (m +:+ b) (String c m)).
  change (String c (m +:+ b)) with (String c m +:+ b).
  by rewrite startsWith_app.
Qed.

Lemma append_empty_r (s : string) : s +:+ EmptyString = s.
Proof.
  induction s as [| c s IH]; [reflexivity |].
  change (String c s +:+ "") with (String c (s +:+ "")). by rewrite IH.
Qed.

Lemma includes_self (m : string) : includes m m = true.
Proof.
  pose proof (includes_middle EmptyString m EmptyString) as H.
  change ("" +:+ m +:+ "") with (m +:+ "") in H.
  by rewrite append_empty_r in H.
Qed.

Lemma wrapped_differs (pre m suf : string) :
  pre <> EmptyString -> pre +:+ m +:+ suf <> m.
Proof.
  intros Hpre H. apply (f_equal String.length) in H.
  rewrite !string_length_append in H.
  destruct pre; [done |]. simpl in H. lia.
Qed.

(** [formatError] never loses the message it was given: the result always
    contains it; and the result is the message itself exactly when the
    message mentions none of the nine keywords. *)
Theorem formatError_keeps_message (msg : string) :
  includes (formatError msg) msg = true /\
  (formatError msg = msg <-> Forall (fun k => includes msg k = false) keywords).
Proof.
  unfold formatError, keywords.
  rewrite !Forall_cons, Forall_nil.
  destruct (includes msg "ECONNREFUSED") eqn:K1; cbn [orb];
    [split; [apply includes_middle |];
     split; [intros H; by apply wrapped_differs in H | intros (? & _); discriminate] |].
  destruct (includes msg "EHOSTUNREACH") eqn:K2; cbn [orb];
    [split; [apply includes_middle |];
     split; [intros H; by apply wrapped_differs in H | intros (_ & ? & _); discriminate] |].
  destruct (includes msg "ETIMEDOUT") eqn:K3; cbn [orb];
    [split; [apply includes_middle |];
     split; [intros H; by apply wrapped_differs in H | intros (_ & _ & ? & _); discriminate] |].
  destruct (includes msg "Unauthorized") eqn:K4; cbn [orb];
    [split; [apply includes_middle |];
     split; [intros H; by apply wrapped_differs in H
            | intros (_ & _ & _ & ? & _); discriminate] |].
  destruct (includes msg "401") eqn:K5; cbn [orb];
    [split; [apply includes_middle |];
     split; [intros H; by apply wrapped_differs in H
            | intros (_ & _ & _ & _ & ? & _); discriminate] |].
  destruct (includes msg "ffmpeg") eqn:K6; cbn [orb];
    [split; [apply includes_middle |];
     split; [intros H; by apply wrapped_differs in H
            | intros (_ & _ & _ & _ & _ & ? & _); discriminate] |].
  destruct (includes msg "ENOENT") eqn:K7; cbn [orb];
    [split; [apply includes_middle |];
     split; [intros H; by apply wrapped_differs in H
            | intros (_ & _ & _ & _ & _ & _ & ? & _); discriminate] |].
  destruct (includes msg "timeout") eqn:K8; cbn [orb];
    [split; [apply includes_middle |];
     split; [intros H; by apply wrapped_differs in H
            | intros (_ & _ & _ & _ & _ & _ & _ & ? & _); discriminate] |].
  destruct (includes msg "Timeout") eqn:K9; cbn [orb];
    [split; [apply includes_middle |];
     split; [intros H; by apply wrapped_differs in H
            | intros (_ & _ & _ & _ & _ & _ & _ & _ & ? & _); discriminate] |].
  split; [apply includes_self |]. split; [| reflexivity].
  intros _. repeat split.
Qed.

(** [validateRange] with finite bounds accepts exactly the finite values
    between the bounds, both included; it reports [NaN] as not a number
    and anything else as out of range, with the label, the two bounds and
    the value. *)
Theorem validateRange_accepts_iff_within (v : num) (lo hi : Q) (name : string) :
  match validateRange v (Fin lo) (Fin hi) name with
  | None => Ptz.within v lo hi
  | Some e =>
      ~ Ptz.within v lo hi /\
      e = if isNaN v then NotANumber name v else OutOfRange name (Fin lo) (Fin hi) v
  end.
Proof.
  destruct (validateRange v (Fin lo) (Fin hi) name) as [e |] eqn:Hv.
  - split.
    + intros Hw. apply (validateRange_within v lo hi name) in Hw. congruence.
    + unfold validateRange in Hv. destruct (isNaN v); [congruence |].
      destruct (ltb v (Fin lo) || ltb (Fin hi) v); congruence.
  - by apply (validateRange_within v lo hi name).
Qed.

End FormatAndValidate.

(** ** Address validation and argument preprocessing, continued *)

Section AddressAndArguments.
Import Js Common Notions.

Lemma octets_short_checked :
  forallb (fun k => prints_short (Z.of_nat k)) (seq 0 256) = true.
Proof. vm_compute. reflexivity. Qed.

Lemma octet_short (n : Z) :
  octet n ->
  (1 <= String.length (string_of_Z n) <= 3)%nat /\ all_digits (string_of_Z n) = true.
Proof.
  intros [Hlo Hhi]. pose proof octets_short_checked as H.
  rewrite forallb_forall in H. specialize (H (Z.to_nat n)).
  rewrite Z2Nat.id in H by exact Hlo.
  assert (Hin : In (Z.to_nat n) (seq 0 256)) by (apply in_seq; lia).
  apply H in Hin. unfold prints_short in Hin.
  apply andb_true_iff in Hin as [[H1 H2]%andb_true_iff H3].
  apply Nat.leb_le in H1, H2. done.
Qed.

Lemma digits_and_dots_app (a b : string) :
  digits_and_dots (a +:+ b) = digits_and_dots a && digits_and_dots b.
Proof.
  induction a as [| c a IH]; [reflexivity |].
  change (String c a +:+ b) with (String c (a +:+ b)).
  simpl. by rewrite IH, andb_assoc.
Qed.

Lemma all_digits_and_dots (s : string) : all_digits s = true -> digits_and_dots s = true.
Proof.
  induction s as [| c s IH]; [done |]. simpl.
  intros [Hc Hs]%andb_true_iff. by rewrite Hc, (IH Hs).
Qed.

(** An address that [validateIp] accepts has 7 to 15 characters, all of
    them decimal digits or dots: no sign, no white space, no letter. *)
Theorem validateIp_accepted_shape (s : string) :
  validateIp (PStr s) = Ok None ->
  (7 <= String.length s <= 15)%nat /\ digits_and_dots s = true.
Proof.
  unfold validateIp. destruct (truthy (PStr s)); simpl; [| discriminate].
  pose proof (join_split "." s) as Hjoin.
  destruct (split "." s) as [| p1 [| p2 [| p3 [| p4 [| p5 rest]]]]];
    simpl; try discriminate.
  destruct (group_ok p1) eqn:H1; simpl; [| discriminate].
  destruct (group_ok p2) eqn:H2; simpl; [| discriminate].
  destruct (group_ok p3) eqn:H3; simpl; [| discriminate].
  destruct (group_ok p4) eqn:H4; simpl; [| discriminate].
  intros _.
  apply group_ok_octet in H1 as (a & [La Da]%octet_short & ->).
  apply group_ok_octet in H2 as (b & [Lb Db]%octet_short & ->).
  apply group_ok_octet in H3 as (c & [Lc Dc]%octet_short & ->).
  apply group_ok_octet in H4 as (d & [Ld Dd]%octet_short & ->).
  apply all_digits_and_dots in Da, Db, Dc, Dd.
  rewrite <- Hjoin.
  change (join "." [string_of_Z a; string_of_Z b; string_of_Z c; string_of_Z d])
    with (string_of_Z a +:+ String "." (string_of_Z b +:+ String "."
            (string_of_Z c +:+ String "." (string_of_Z d)))).
  split.
  - rewrite !string_length_append. simpl.
    rewrite !string_length_append. simpl.
    rewrite !string_length_append. simpl. lia.
  - rewrite digits_and_dots_app, Da. simpl.
    rewrite digits_and_dots_app, Db. simpl.
    rewrite digits_and_dots_app, Dc. simpl. exact Dd.
Qed.

Lemma validateIp_accepted_shape_witness :
  (7 <= String.length "192.168.0.107" <= 15)%nat /\ digits_and_dots "192.168.0.107" = true.
Proof. apply validateIp_accepted_shape. reflexivity. Defined.

Lemma strip_dashes_keeps_equals (a b : string) :
  free_of "=" (strip_dashes (a +:+ String "=" b)) = false.
Proof.
  assert (Hfull : forall x, free_of "=" (x +:+ String "=" b) = false).
  { intros x. rewrite free_of_app. simpl. apply andb_false_r. }
  destruct a as [| c [| d a]].
  - reflexivity.
  - change (String c "" +:+ String "=" b) with (String c (String "=" b)).
    destruct c as [[] [] [] [] [] [] [] []]; reflexivity.
  - change (String c (String d a) +:+ String "=" b)
      with (String c (String d (a +:+ String "=" b))).
    pose proof (Hfull (String c (String d a))) as Hcd.
    change (String c (String d a) +:+ String "=" b)
      with (String c (String d (a +:+ String "=" b))) in Hcd.
    destruct c as [[] [] [] [] [] [] [] []]; try exact Hcd;
      destruct d as [[] [] [] [] [] [] [] []]; try exact Hcd; apply Hfull.
Qed.

Lemma fused_token_not_numeric (numericKeys : list string) (a b : string) :
  Forall (fun k => free_of "=" k = true) numericKeys ->
  ~ names_numeric numericKeys (a +:+ "=" +:+ b).
Proof.
  intros Hkeys Hin. unfold names_numeric in Hin.
  rewrite Forall_forall in Hkeys. apply list_elem_of_In, Hkeys in Hin.
  change (a +:+ "=" +:+ b) with (a +:+ String "=" b) in Hin.
  by rewrite strip_dashes_keeps_equals in Hin.
Qed.

Lemma negative_looking_fused (b c : string) :
  negative_looking (b +:+ "=" +:+ c) -> negative_looking b.
Proof.
  intros (d & tail & Heq & Hd).
  destruct b as [| x [| y b]].
  - discriminate Heq.
  - change (String x "" +:+ "=" +:+ c) with (String x (String "=" c)) in Heq.
    injection Heq as -> <- _.
    destruct Hd as [Hd | Hd]; [| discriminate Hd].
    unfold digit in Hd. simpl in Hd.
    repeat (destruct Hd as [Hd | Hd]; [discriminate Hd |]). destruct Hd.
  - change (String x (String y b) +:+ "=" +:+ c)
      with (String x (String y (b +:+ "=" +:+ c))) in Heq.
    injection Heq as -> -> _. exists d, b. split; [reflexivity | exact Hd].
Qed.

(** The head of a traversal is the first token, alone or fused. *)
Lemma fuse_pairs_head (numericKeys : list string) (b : string) (rest : list string) :
  exists out,
    fuse_pairs numericKeys (b :: rest) = b :: out \/
    exists c, fuse_pairs numericKeys (b :: rest) = (b +:+ "=" +:+ c) :: out.
Proof.
  destruct rest as [| c rest].
  - exists []. by left.
  - rewrite fuse_pairs_cons2. destruct (fuses numericKeys b (Some c)).
    + eexists. right. eexists. reflexivity.
    + eexists. left. reflexivity.
Qed.

Lemma fuse_pairs_no_exposed_value (numericKeys : list string) (n : nat) :
  Forall (fun k => free_of "=" k = true) numericKeys ->
  forall args, (length args <= n)%nat ->
    no_exposed_value numericKeys (fuse_pairs numericKeys args).
Proof.
  intros Hkeys. induction n as [| n IH]; intros args Hlen.
  - destruct args; [exact I | simpl in Hlen; lia].
  - destruct args as [| a [| b rest]]; [exact I | exact I |].
    rewrite fuse_pairs_cons2. simpl in Hlen.
    destruct (fuses numericKeys a (Some b)) eqn:Hf.
    + assert (Hrest : no_exposed_value numericKeys (fuse_pairs numericKeys rest))
        by (apply IH; lia).
      destruct (fuse_pairs numericKeys rest) as [| x out]; [exact I |].
      split; [| exact Hrest].
      intros [Hn _]. by apply (fused_token_not_numeric numericKeys a b Hkeys).
    + assert (Hrest : no_exposed_value numericKeys (fuse_pairs numericKeys (b :: rest)))
        by (apply IH; simpl; lia).
      destruct (fuse_pairs_head numericKeys b rest) as (out & [E | [c E]]);
        rewrite E in *; (split; [| exact Hrest]); intros [Hn Hv].
      * assert (fuses numericKeys a (Some b) = true) by (by apply fuses_spec).
        congruence.
      * apply negative_looking_fused in Hv.
        assert (fuses numericKeys a (Some b) = true) by (by apply fuses_spec).
        congruence.
Qed.

(** What the preprocessing is for: when no numeric key contains an equals
    sign, the result has no token naming a numeric key that is directly
    followed by a token reading as a negative value, so the flag parser
    never meets a negative value where it could take it for a flag. *)
Theorem preprocessArgs_leaves_no_exposed_value (args numericKeys : list string) :
  Forall (fun k => free_of "=" k = true) numericKeys ->
  no_exposed_value numericKeys (preprocessArgs args numericKeys).
Proof.
  intros Hkeys. rewrite preprocessArgs_unfold.
  by apply (fuse_pairs_no_exposed_value numericKeys (length args)).
Qed.

Lemma preprocessArgs_leaves_no_exposed_value_witness :
  no_exposed_value ["pan"; "tilt"]
    (preprocessArgs ["--pan"; "-0.8"; "-1"; "--tilt"; "--pan"; "-.5"] ["pan"; "tilt"]).
Proof.
  apply preprocessArgs_leaves_no_exposed_value. repeat constructor.
Defined.

Lemma fuse_pairs_length (numericKeys : list string) (n : nat) :
  forall args, (length args <= n)%nat ->
    (length (fuse_pairs numericKeys args) <= length args <=
     2 * length (fuse_pairs numericKeys args))%nat.
Proof.
  induction n as [| n IH]; intros args Hlen.
  - destruct args; simpl in *; lia.
  - destruct args as [| a [| b rest]]; [simpl; lia | simpl; lia |].
    rewrite fuse_pairs_cons2. simpl in Hlen.
    destruct (fuses numericKeys a (Some b)).
    + specialize (IH rest). simpl. lia.
    + specialize (IH (b :: rest)). simpl in *. lia.
Qed.

Lemma fuse_pairs_positive (numericKeys : list string) (n : nat) :
  forall args, (length args <= n)%nat ->
    Forall (fun tok => ~ negative_looking tok) args ->
    fuse_pairs numericKeys args = args.
Proof.
  induction n as [| n IH]; intros args Hlen Hall.
  - destruct args; [reflexivity | simpl in Hlen; lia].
  - destruct args as [| a [| b rest]]; [reflexivity | reflexivity |].
    rewrite fuse_pairs_cons2. simpl in Hlen.
    inversion Hall as [| ? ? _ Hrest]; subst.
    destruct (fuses numericKeys a (Some b)) eqn:Hf.
    + apply fuses_spec in Hf as [_ Hv]. inversion Hrest; subst. contradiction.
    + f_equal. apply IH; [simpl; lia | exact Hrest].
Qed.

(** The preprocessing never adds a token and removes at most every second
    one; and a token list in which nothing reads as a negative value comes
    out unchanged, whatever the numeric keys. *)
Theorem preprocessArgs_length_and_identity (args numericKeys : list string) :
  (length (preprocessArgs args numericKeys) <= length args <=
   2 * length (preprocessArgs args numericKeys))%nat /\
  (Forall (fun tok => ~ negative_looking tok) args ->
   preprocessArgs args numericKeys = args).
Proof.
  rewrite preprocessArgs_unfold. split.
  - by apply (fuse_pairs_length numericKeys (length args)).
  - by apply (fuse_pairs_positive numericKeys (length args)).
Qed.

Lemma preprocessArgs_length_and_identity_witness :
  preprocessArgs ["--pan"; "0.8"; "--left"; "--speed"; "0.3"] ["pan"; "speed"]
  = ["--pan"; "0.8"; "--left"; "--speed"; "0.3"].
Proof.
  apply (proj2 (preprocessArgs_length_and_identity _ _)).
  repeat (apply List.Forall_cons;
          [intros H; apply looks_negative_spec in H; discriminate H |]).
  apply List.Forall_nil.
Defined.

End AddressAndArguments.

(** ** The PTZ controller, continued *)

Section PtzInvariants.
Import Num Range Eff Ptz.

Lemma try_catch_exits {A} (m : M A) (handler : string -> M A) :
  (forall e, exists code, outcome (handler e) = Exit code) ->
  forall msg, outcome (try_catch m handler) <> Raise msg.
Proof.
  intros Hh msg. unfold try_catch.
  destruct (outcome m) as [a | e | code] eqn:Hm; simpl.
  - by rewrite Hm.
  - destruct (Hh e) as [code ->]. discriminate.
  - by rewrite Hm.
Qed.

(** No error escapes [controlPTZ]: whatever the flags and whatever the
    camera answers, the run ends with [process.exit] or by reaching the
    end of the function, never with an exception. *)
Theorem controlPTZ_never_throws (config : Common.config) (a : argv) (speed : num)
    (duration : option num) (dev : device) (msg : string) :
  outcome (controlPTZ config a speed duration dev) <> Raise msg.
Proof.
  unfold controlPTZ. apply try_catch_exits.
  intros e. exists 1. reflexivity.
Qed.

Lemma zero_in_range : in_range (uniform zero).
Proof. repeat split; vm_compute; discriminate. Qed.

(** Every absolute move that [controlPTZ] ever sends, in any run, carries
    a position within the documented ranges: pan and tilt in [-1,1], zoom
    in [0,1]. *)
Theorem controlPTZ_moves_only_in_range (config : Common.config) (a : argv) (speed : num)
    (duration : option num) (dev : device) (tok : string) (position sp : vec) :
  In (AbsoluteMove tok position sp) (trace (controlPTZ config a speed duration dev)) ->
  in_range position.
Proof.
  unfold controlPTZ, homeBranch, continuousBranch, absoluteBranch, createDevice, fail_range.
  destruct (init_answer dev) as [[] | e0];
    [| cbn; intros [H | [H | []]]; discriminate H].
  destruct (has_ptz dev); [| cbn; intros [H | [H | []]]; discriminate H].
  destruct (profile dev) as [profileToken |];
    [| cbn; intros [H | [H | []]]; discriminate H].
  destruct (a_stop a).
  { destruct (stop_answer dev) as [[] | e1]; cbn;
      intros H; repeat (destruct H as [H | H]; [discriminate H |]); destruct H. }
  destruct (a_home a).
  { destruct (home_answer dev) as [[] | e1], (absolute_answer dev) as [[] | e2]; cbn;
      intros H;
      repeat (destruct H as [H | H];
              [first [discriminate H | injection H as _ <- _; apply zero_in_range] |]);
      destruct H. }
  destruct (hasRelativeMove a).
  { destruct (continuous_answer dev) as [[] | e1], duration as [d |],
      (stop_answer dev) as [[] | e2]; cbn;
      intros H; repeat (destruct H as [H | H]; [discriminate H |]); destruct H. }
  destruct (hasAbsoluteMove a).
  2:{ destruct (status_first dev) as [st | e1]; cbn;
        intros H; repeat (destruct H as [H | H]; [discriminate H |]); destruct H. }
  destruct (status_first dev) as [st | e1];
    cbn -[validateRange target current_position];
    (destruct (validateRange _ _ _ "Pan") as [e1' |] eqn:H1;
     [cbn; intros H; repeat (destruct H as [H | H]; [discriminate H |]); destruct H |];
     destruct (validateRange _ _ _ "Tilt") as [e2' |] eqn:H2;
     [cbn; intros H; repeat (destruct H as [H | H]; [discriminate H |]); destruct H |];
     destruct (validateRange _ _ _ "Zoom") as [e3' |] eqn:H3;
     [cbn; intros H; repeat (destruct H as [H | H]; [discriminate H |]); destruct H |];
     apply validateRange_within in H1, H2, H3;
     destruct (absolute_answer dev) as [[] | e4], (status_second dev) as [st2 | e5];
     cbn -[target current_position];
     intros H;
     repeat (destruct H as [H | H];
             [first [discriminate H | injection H as _ <- _; repeat split; assumption] |]);
     destruct H).
Qed.

Lemma controlPTZ_moves_only_in_range_witness :
  in_range {| vx := Fin (-0.8); vy := Fin 0; vz := Fin 0 |}.
Proof.
  apply (controlPTZ_moves_only_in_range sample_config (flag_pan (Fin (-0.8))) (Fin 0.5)
           None friendly_camera "profile_1" _ (uniform (Fin 0.5))).
  vm_compute. right. right. left. reflexivity.
Defined.

(** Stop comes first: with the stop flag on an open session the run is
    the handshake and one stop request on both axes, whatever the other
    flags ask for; no request that moves the camera is sent. *)
Theorem controlPTZ_stop_has_priority (config : Common.config) (a : argv) (speed : num)
    (duration : option num) (dev : device) (tok : string) :
  a_stop a = true -> connected dev tok ->
  let run := controlPTZ config a speed duration dev in
  run = Run ([init_event config; Stop tok true true] ++ (report (stop_answer dev)).1)
            (report (stop_answer dev)).2 /\
  List.filter is_move (trace run) = [].
Proof.
  intros Hstop (Hinit & Hptz & Hprof) run. subst run.
  unfold controlPTZ, createDevice. rewrite Hinit, Hptz, Hprof, Hstop.
  destruct (stop_answer dev) as [[] | e]; split; reflexivity.
Qed.

Lemma controlPTZ_stop_has_priority_witness :
  List.filter is_move
    (trace (controlPTZ sample_config PtzScript.all_flags (Fin 0.5) (Some (Fin 2))
              friendly_camera)) = [].
Proof.
  apply (controlPTZ_stop_has_priority sample_config PtzScript.all_flags (Fin 0.5)
           (Some (Fin 2)) friendly_camera "profile_1").
  - reflexivity.
  - repeat split; reflexivity.
Defined.

(** A session that cannot be used: when the handshake fails, or the
    camera has no PTZ service, or no media profile, the handshake is the
    only request of the run, which ends with exit code 1 and one line on
    the error stream. *)
Theorem controlPTZ_unusable_session (config : Common.config) (a : argv) (speed : num)
    (duration : option num) (dev : device) :
  (exists e, init_answer dev = Js.Throw e) \/ has_ptz dev = false \/ profile dev = None ->
  let run := controlPTZ config a speed duration dev in
  network_calls run = [init_event config] /\
  outcome run = Exit 1 /\
  exists line, trace run = [init_event config; StderrText line].
Proof.
  intros H run. subst run. unfold controlPTZ, createDevice.
  destruct (init_answer dev) as [[] | e0].
  2:{ repeat split; try reflexivity. eexists. reflexivity. }
  destruct (has_ptz dev).
  2:{ repeat split; try reflexivity. eexists. reflexivity. }
  destruct (profile dev) as [tok |].
  2:{ repeat split; try reflexivity. eexists. reflexivity. }
  destruct H as [[e H] | [H | H]]; discriminate H.
Qed.

Lemma controlPTZ_unusable_session_witness :
  network_calls
    (controlPTZ sample_config flag_left (Fin 0.5) None PtzScript.deaf_camera)
  = [init_event sample_config].
Proof.
  apply (controlPTZ_unusable_session sample_config flag_left (Fin 0.5) None
           PtzScript.deaf_camera).
  left. eexists. reflexivity.
Defined.

(** A continuous move without duration is left running: the run is the
    handshake and one continuous-move request without timeout hint, then
    exit code 0; there is no local wait and no stop request. *)
Theorem controlPTZ_continuous_without_duration (config : Common.config) (a : argv)
    (speed : num) (dev : device) (tok : string) :
  a_stop a = false -> a_home a = false -> hasRelativeMove a = true ->
  connected dev tok -> continuous_answer dev = Js.Ok tt ->
  controlPTZ config a speed None dev
  = Run [init_event config; ContinuousMove tok (velocity a speed) None] (Exit 0).
Proof.
  intros Hstop Hhome Hrel (Hinit & Hptz & Hprof) Hans.
  unfold controlPTZ, continuousBranch, createDevice.
  rewrite Hinit, Hptz, Hprof, Hstop, Hhome, Hrel, Hans. reflexivity.
Qed.

Lemma controlPTZ_continuous_without_duration_witness :
  controlPTZ sample_config flag_left (Fin 0.3) None friendly_camera
  = Run [init_event sample_config;
         ContinuousMove "profile_1" (velocity flag_left (Fin 0.3)) None] (Exit 0).
Proof.
  apply controlPTZ_continuous_without_duration; try reflexivity.
  repeat split; reflexivity.
Defined.

(** An absolute move with pan only: tilt and zoom are sent as read from
    the camera, and as 0 when the status cannot be read, has no data, or
    holds no number for them; so a pan-only command on a camera whose
    status query fails drives tilt and zoom to 0. *)
Theorem controlPTZ_pan_only_fills_other_axes (config : Common.config) (a : argv)
    (speed : num) (duration : option num) (dev : device) (tok : string) (pan : num) :
  a_stop a = false -> a_home a = false -> hasRelativeMove a = false ->
  a_pan a = Some pan -> a_tilt a = None -> a_zoom a = None ->
  connected dev tok ->
  let current :=
    match status_first dev with
    | Js.Ok (StatusData _ y z) => (or_zero y, or_zero z)
    | _ => (Fin 0, Fin 0)
    end in
  let wanted := {| vx := pan; vy := current.1; vz := current.2 |} in
  in_range wanted ->
  List.filter is_move (trace (controlPTZ config a speed duration dev))
  = [AbsoluteMove tok wanted (uniform speed)].
Proof.
  intros Hstop Hhome Hrel Hpan Htilt Hzoom Hconn current wanted Hin.
  assert (Habs : hasAbsoluteMove a = true) by (unfold hasAbsoluteMove; by rewrite Hpan).
  assert (Hw : wanted = target a (position_read dev)).
  { unfold wanted, current, target, position_read. rewrite Hpan, Htilt, Hzoom.
    destruct (status_first dev) as [[| x y z] | e]; reflexivity. }
  rewrite Hw in *. by apply controlPTZ_absolute_accepted.
Qed.

Lemma controlPTZ_pan_only_fills_other_axes_witness :
  List.filter is_move
    (trace (controlPTZ sample_config (flag_pan (Fin 0.5)) (Fin 0.5) None
              PtzScript.blind_camera))
  = [AbsoluteMove "profile_1" {| vx := Fin 0.5; vy := Fin 0; vz := Fin 0 |}
                  (uniform (Fin 0.5))].
Proof.
  apply (controlPTZ_pan_only_fills_other_axes sample_config (flag_pan (Fin 0.5)) (Fin 0.5)
           None PtzScript.blind_camera "profile_1" (Fin 0.5)); try reflexivity.
  - repeat split; reflexivity.
  - repeat split; vm_compute; discriminate.
Defined.

(** The velocity of a continuous move: on each axis it is the speed, its
    opposite or 0, the first flag of a pair (left, up, zoom-in) winning
    when both are set; with a speed between 0 and 1 every component lies
    between -1 and 1. *)
Theorem velocity_components (a : argv) (speed : num) :
  (a_left a = true -> vx (velocity a speed) = neg speed) /\
  (a_up a = true -> vy (velocity a speed) = speed) /\
  (a_zoom_in a = true -> vz (velocity a speed) = speed) /\
  (within speed 0 1 ->
   within (vx (velocity a speed)) (-1) 1 /\
   within (vy (velocity a speed)) (-1) 1 /\
   within (vz (velocity a speed)) (-1) 1).
Proof.
  split; [intros H; unfold velocity; simpl; by rewrite H |].
  split; [intros H; unfold velocity; simpl; by rewrite H |].
  split; [intros H; unfold velocity; simpl; by rewrite H |].
  intros Hs. destruct speed as [| | q |]; simpl in Hs; try contradiction.
  destruct Hs as [H0 H1]. unfold velocity.
  destruct (a_left a), (a_right a), (a_up a), (a_down a), (a_zoom_in a), (a_zoom_out a);
    simpl; repeat split; lra.
Qed.

Lemma velocity_components_witness :
  within (vx (velocity flag_left (Fin 0.3))) (-1) 1 /\
  within (vy (velocity flag_left (Fin 0.3))) (-1) 1 /\
  within (vz (velocity flag_left (Fin 0.3))) (-1) 1.
Proof.
  apply velocity_components. split; vm_compute; discriminate.
Defined.

End PtzInvariants.

(** ** The PTZ script *)

Section PtzScriptProperties.
Import Num Range Eff Ptz PtzScript.

(** Validation comes before the network: a run of the script that sends
    any request to the camera has a configuration that was resolved, an
    address that [validateIp] accepts, a user name and a password, a speed
    between 0 and 1 and, when a duration is given, a duration between 0.1
    and 300 seconds. *)
Theorem main_validates_before_network (c : cli) (env dotenv : Common.vars)
    (fileConfig : Common.parsed) (dev : device) :
  network_calls (main c env dotenv fileConfig dev) <> [] ->
  validated c env dotenv fileConfig.
Proof.
  unfold main, validated, fail_range.
  destruct (c_help c); [by intros [] |].
  destruct (Common.loadConfig _ _ _ _ _) as [config | e]; [| by intros []].
  destruct (Common.validateIp (Common.ip config)) as [[ipErr |] | e] eqn:Hip;
    [by intros [] | | by intros []].
  destruct (Js.truthy (Common.username config)) eqn:Hu; [| by intros []].
  destruct (Js.truthy (Common.password config)) eqn:Hp; [| by intros []].
  simpl negb. cbn [orb].
  destruct (validateRange (speed_of c) (Fin 0) (Fin 1) "Speed") as [e |] eqn:Hs;
    [by intros [] |].
  apply validateRange_within in Hs.
  destruct (c_duration c) as [d |].
  - destruct (validateRange d (Fin 0.1) (Fin 300) "Duration") as [e |] eqn:Hd;
      [by intros [] |].
    apply validateRange_within in Hd.
    intros _. exists config. repeat split; assumption.
  - intros _. exists config. repeat split; assumption.
Qed.

Lemma main_validates_before_network_witness :
  validated sample_cli Common.no_vars Common.no_vars Common.no_file.
Proof.
  apply (main_validates_before_network sample_cli Common.no_vars Common.no_vars
           Common.no_file friendly_camera).
  vm_compute. discriminate.
Defined.

(** The local waits of [controlPTZ]: the settle interval of one second
    after an absolute move, or the duration of a continuous move. *)
Lemma controlPTZ_sleeps (config : Common.config) (a : argv) (speed : num)
    (duration : option num) (dev : device) (ms : num) :
  In (Sleep ms) (trace (controlPTZ config a speed duration dev)) ->
  ms = Fin 1000 \/ exists d, duration = Some d /\ ms = times1000 d.
Proof.
  unfold controlPTZ, homeBranch, continuousBranch, absoluteBranch, createDevice, fail_range.
  destruct (init_answer dev) as [[] | e0];
    [| cbn; intros [H | [H | []]]; discriminate H].
  destruct (has_ptz dev); [| cbn; intros [H | [H | []]]; discriminate H].
  destruct (profile dev) as [profileToken |];
    [| cbn; intros [H | [H | []]]; discriminate H].
  destruct (a_stop a).
  { destruct (stop_answer dev) as [[] | e1]; cbn;
      intros H; repeat (destruct H as [H | H]; [discriminate H |]); destruct H. }
  destruct (a_home a).
  { destruct (home_answer dev) as [[] | e1], (absolute_answer dev) as [[] | e2]; cbn;
      intros H; repeat (destruct H as [H | H]; [discriminate H |]); destruct H. }
  destruct (hasRelativeMove a).
  { destruct (continuous_answer dev) as [[] | e1], duration as [d |],
      (stop_answer dev) as [[] | e2]; cbn -[times1000];
      intros H;
      repeat (destruct H as [H | H];
              [first [discriminate H
                     | injection H as <-; right; exists d; split; reflexivity] |]);
      destruct H. }
  destruct (hasAbsoluteMove a).
  2:{ destruct (status_first dev) as [st | e1]; cbn;
        intros H; repeat (destruct H as [H | H]; [discriminate H |]); destruct H. }
  destruct (status_first dev) as [st | e1];
    cbn -[validateRange target current_position];
    (destruct (validateRange _ _ _ "Pan") as [e1' |];
     [cbn; intros H; repeat (destruct H as [H | H]; [discriminate H |]); destruct H |];
     destruct (validateRange _ _ _ "Tilt") as [e2' |];
     [cbn; intros H; repeat (destruct H as [H | H]; [discriminate H |]); destruct H |];
     destruct (validateRange _ _ _ "Zoom") as [e3' |];
     [cbn; intros H; repeat (destruct H as [H | H]; [discriminate H |]); destruct H |];
     destruct (absolute_answer dev) as [[] | e4], (status_second dev) as [st2 | e5];
     cbn -[target current_position];
     intros H;
     repeat (destruct H as [H | H];
             [first [discriminate H | injection H as <-; left; reflexivity] |]);
     destruct H).
Qed.

(** No runaway wait: every local wait of a run of the script lasts between
    100 ms and 300000 ms. *)
Theorem main_waits_are_bounded (c : cli) (env dotenv : Common.vars)
    (fileConfig : Common.parsed) (dev : device) (ms : num) :
  In (Sleep ms) (trace (main c env dotenv fileConfig dev)) ->
  within ms 100 300000.
Proof.
  unfold main, fail_range.
  destruct (c_help c); [by intros [] |].
  destruct (Common.loadConfig _ _ _ _ _) as [config | e]; [| by intros []].
  destruct (Common.validateIp (Common.ip config)) as [[ipErr |] | e];
    [cbn; intros [H | []]; discriminate H | | by intros []].
  destruct (negb (Js.truthy (Common.username config)) ||
            negb (Js.truthy (Common.password config)));
    [cbn; intros [H | []]; discriminate H |].
  destruct (validateRange (speed_of c) (Fin 0) (Fin 1) "Speed") as [e |];
    [cbn; intros [H | []]; discriminate H |].
  destruct (c_duration c) as [d |].
  - destruct (validateRange d (Fin 0.1) (Fin 300) "Duration") as [e |] eqn:Hd;
      [cbn; intros [H | []]; discriminate H |].
    apply validateRange_within in Hd.
    intros [-> | (d' & [= <-] & ->)]%controlPTZ_sleeps.
    + simpl. split; lra.
    + destruct d as [| | q |]; simpl in Hd; try contradiction.
      simpl. destruct Hd. split; lra.
  - intros [-> | (d' & [=] & _)]%controlPTZ_sleeps. simpl. split; lra.
Qed.

Lemma main_waits_are_bounded_witness : within (Fin 2000) 100 300000.
Proof.
  apply (main_waits_are_bounded sample_cli Common.no_vars Common.no_vars
           Common.no_file friendly_camera).
  vm_compute. right. right. left. reflexivity.
Defined.

End PtzScriptProperties.

(** ** The preset script *)

Section PresetScriptProperties.
Import Js Preset PresetScript.

Lemma matches_raw_of (valStr : string) (p : preset) :
  matches_raw valStr (raw_of p) = Ok (matches valStr p).
Proof.
  unfold matches_raw, matches, raw_of. simpl.
  destruct (String.eqb (token p) valStr); [reflexivity |].
  destruct (String.eqb (name p) ""); reflexivity.
Qed.

Lemma find_raw_of (presets : list preset) (valStr : string) :
  find_raw valStr (map raw_of presets) = Ok (raw_of <$> find (matches valStr) presets).
Proof.
  induction presets as [| p presets IH]; [reflexivity |].
  simpl. rewrite matches_raw_of. simpl.
  destruct (matches valStr p); [reflexivity | exact IH].
Qed.

(** On presets whose token and name are strings, the lookup that the
    script performs on the records of [extractPresets] never throws and
    finds the record of the preset that [findPreset] finds. *)
Theorem findPresetRaw_agrees_with_findPreset (presets : list preset) (val : prim) :
  findPresetRaw (map raw_of presets) val = Ok (raw_of <$> findPreset presets val).
Proof. unfold findPresetRaw, findPreset. apply find_raw_of. Qed.

Lemma record_of_value_of (p : preset) : record_of (value_of p) = raw_of p.
Proof.
  unfold record_of, value_of, raw_of, record, vor_else. simpl.
  destruct (String.eqb_spec (token p) "") as [-> | _],
           (String.eqb_spec (name p) "") as [-> | _]; reflexivity.
Qed.

Lemma extract_payload_array (presets : list preset) :
  extractPresets (response_with (VArr (map value_of presets))) = Ok (map raw_of presets).
Proof.
  unfold extractPresets.
  change (preset_field (response_with (VArr (map value_of presets))))
    with (VArr (map value_of presets)).
  cbn [vtruthy negb].
  rewrite rmap_normalize_ok.
  - f_equal. rewrite map_map. apply map_ext. intros p. apply record_of_value_of.
  - apply Forall_map. apply Forall_forall. intros p _. reflexivity.
Qed.

(** Round trip through the payload: a response whose Preset field is the
    array of the payload records of some presets, or the single record of
    one preset, is read back as these presets, in order. *)
Theorem extractPresets_reads_back_payload (presets : list preset) :
  extractPresets (response_with (VArr (map value_of presets))) = Ok (map raw_of presets) /\
  forall p, extractPresets (response_with (value_of p)) = Ok [raw_of p].
Proof.
  split; [apply extract_payload_array |].
  intros p. rewrite <- record_of_value_of. reflexivity.
Qed.

(** The run of the goto and delete branches on a camera that serves
    well-formed presets. *)
Lemma resolve_and_send_served (config : Common.config) (cam : camera) (tok : string)
    (presets : list preset) (val : prim) (send : value -> event) (answer : result unit) :
  presets_answer cam = Ok (response_with (VArr (map value_of presets))) ->
  resolve_and_send config cam tok val send answer
  = match findPreset presets val with
    | Some p =>
        match answer with
        | Ok _ => ([init_event config; GetPresets tok; send (VStr (token p))], Some 0)
        | Throw e => fail [init_event config; GetPresets tok; send (VStr (token p))] e
        end
    | None =>
        ([init_event config; GetPresets tok] ++ not_found_lines val (map raw_of presets),
         Some 1)
    end.
Proof.
  intros Hans. unfold resolve_and_send. rewrite Hans.
  rewrite extract_payload_array.
  unfold findPresetRaw, findPreset. rewrite find_raw_of.
  destruct (find (matches (to_string val)) presets) as [p |]; reflexivity.
Qed.

Lemma not_found_lines_harmless (val : prim) (presets : list raw_preset) :
  List.filter is_mutation (not_found_lines val presets) = [].
Proof.
  unfold not_found_lines. simpl.
  induction presets as [| p presets IH]; [reflexivity | exact IH].
Qed.

(** Deleting by identifier, on a camera that serves well-formed presets:
    the only request that changes the camera is one removal, of the token
    of the first preset that matches the identifier by token or by name;
    when nothing matches, nothing is removed and the exit code is 1. *)
Theorem managePresets_delete_removes_first_match (config : Common.config) (a : argv)
    (cam : camera) (tok : string) (presets : list preset) :
  a_list a = false -> truthy (a_save a) = false -> truthy (a_goto a) = false ->
  truthy (a_delete a) = true -> serves cam tok presets ->
  let r := managePresets config a cam in
  match findPreset presets (a_delete a) with
  | Some p => List.filter is_mutation r.1 = [RemovePreset tok (VStr (token p))]
  | None => List.filter is_mutation r.1 = [] /\ r.2 = Some 1
  end.
Proof.
  intros Hlist Hsave Hgoto Hdel (Hinit & Hptz & Hprof & Hans) r. subst r.
  unfold managePresets. rewrite Hinit, Hptz, Hprof, Hlist, Hsave, Hgoto, Hdel.
  cbn [negb].
  rewrite (resolve_and_send_served config cam tok presets) by exact Hans.
  destruct (findPreset presets (a_delete a)) as [p |].
  - destruct (remove_answer cam) as [[] | e]; reflexivity.
  - split; [| reflexivity]. cbn [fst].
    change ([init_event config; GetPresets tok] ++ ?l)
      with (init_event config :: GetPresets tok :: l).
    cbn [List.filter is_mutation init_event]. apply not_found_lines_harmless.
Qed.

Lemma managePresets_delete_removes_first_match_witness :
  List.filter is_mutation (managePresets Ptz.sample_config delete_door sample_camera).1
  = [RemovePreset "profile_1" (VStr "2")].
Proof.
  apply (managePresets_delete_removes_first_match Ptz.sample_config delete_door
           sample_camera "profile_1" sample_presets); try reflexivity.
  repeat split; reflexivity.
Defined.

(** Going to a preset by identifier, on a camera that serves well-formed
    presets: the request carries the token of the first preset that
    matches, also when the preset was named; when nothing matches no
    request moves the camera, the available presets are listed on the
    error stream and the exit code is 1. *)
Theorem managePresets_goto_resolves_identifier (config : Common.config) (a : argv)
    (cam : camera) (tok : string) (presets : list preset) :
  a_list a = false -> truthy (a_save a) = false -> truthy (a_goto a) = true ->
  serves cam tok presets ->
  let r := managePresets config a cam in
  match findPreset presets (a_goto a) with
  | Some p => List.filter is_mutation r.1 = [GotoPreset tok (VStr (token p))]
  | None =>
      r = ([init_event config; GetPresets tok]
           ++ not_found_lines (a_goto a) (map raw_of presets), Some 1)
  end.
Proof.
  intros Hlist Hsave Hgoto (Hinit & Hptz & Hprof & Hans) r. subst r.
  unfold managePresets. rewrite Hinit, Hptz, Hprof, Hlist, Hsave, Hgoto.
  cbn [negb].
  rewrite (resolve_and_send_served config cam tok presets) by exact Hans.
  destruct (findPreset presets (a_goto a)) as [p |]; [| reflexivity].
  destruct (goto_answer cam) as [[] | e]; reflexivity.
Qed.

Lemma managePresets_goto_resolves_identifier_witness :
  managePresets Ptz.sample_config goto_unknown sample_camera
  = ([init_event Ptz.sample_config; GetPresets "profile_1"]
     ++ not_found_lines (PStr "garage") (map raw_of sample_presets), Some 1).
Proof.
  apply (managePresets_goto_resolves_identifier Ptz.sample_config goto_unknown
           sample_camera "profile_1" sample_presets); try reflexivity.
  repeat split; reflexivity.
Defined.

Lemma resolve_and_send_mutations (config : Common.config) (cam : camera) (tok : string)
    (val : prim) (send : value -> event) (answer : result unit) :
  (forall v, is_mutation (send v) = true) ->
  (length (List.filter is_mutation
             (resolve_and_send config cam tok val send answer).1) <= 1)%nat.
Proof.
  intros Hsend. unfold resolve_and_send, fail.
  destruct (presets_answer cam) as [response | e]; [| simpl; lia].
  destruct (extractPresets response) as [presets | e]; [| simpl; lia].
  destruct (findPresetRaw presets val) as [[found |] | e]; [| | simpl; lia].
  - destruct answer as [[] | e]; simpl; rewrite Hsend; simpl; lia.
  - cbn [fst].
    change ([init_event config; GetPresets tok] ++ ?l)
      with (init_event config :: GetPresets tok :: l).
    cbn [List.filter is_mutation init_event]. rewrite not_found_lines_harmless.
    simpl. lia.
Qed.

(** Whatever the flags and whatever the camera answers, a run of
    [managePresets] sends at most one request that changes the camera,
    and none at all when [--list] is given: listing wins over saving,
    going and deleting. *)
Theorem managePresets_changes_at_most_one_thing (config : Common.config) (a : argv)
    (cam : camera) :
  (length (List.filter is_mutation (managePresets config a cam).1) <= 1)%nat /\
  (a_list a = true -> List.filter is_mutation (managePresets config a cam).1 = []).
Proof.
  unfold managePresets, fail.
  destruct (init_answer cam) as [[] | e]; [| split; [simpl; lia | reflexivity]].
  destruct (has_ptz cam); [| split; [simpl; lia | reflexivity]].
  destruct (profile cam) as [tok |]; [| split; [simpl; lia | reflexivity]].
  cbn [negb].
  destruct (a_list a).
  { destruct (presets_answer cam) as [response | e];
      [destruct (extractPresets response) as [presets | e];
       [destruct (rmap padded_token presets) as [listed | e] |] |];
      split; (simpl; lia) || reflexivity. }
  split; [| discriminate].
  destruct (truthy (a_save a)).
  { destruct (set_answer cam) as [[] | e]; simpl; lia. }
  destruct (truthy (a_goto a)); [by apply resolve_and_send_mutations |].
  destruct (truthy (a_delete a)); [by apply resolve_and_send_mutations |].
  simpl. lia.
Qed.

Lemma managePresets_changes_at_most_one_thing_witness :
  List.filter is_mutation
    (managePresets Ptz.sample_config
       {| a_list := true; a_save := PStr "home"; a_goto := PStr "1";
          a_delete := PStr "2"; a_name := PUndefined |} sample_camera).1 = [].
Proof.
  apply managePresets_changes_at_most_one_thing. reflexivity.
Defined.

End PresetScriptProperties.

(** ** Snapshot capture, continued *)

Section SnapshotMore.
Import Js Snapshot SnapshotNames.

(** A capture that ends with exit code 0 leaves a file at the resolved
    destination path, nothing on the error stream, and every other path
    as it was; with the direct-fetch strategy the file holds exactly the
    body that was fetched, which is not empty. *)
Theorem captureSnapshot_success_leaves_file (m : method) (w : world) (out : string)
    (d : files) :
  let r := captureSnapshot m w out d in
  r.2 = 0 ->
  is_Some (disk r.1 !! out) /\
  stderr r.1 = [] /\
  (forall p, p <> out -> disk r.1 !! p = d !! p) /\
  (m = Onvif ->
   exists data, http_answer w = Ok data /\ data <> EmptyString /\
                disk r.1 !! out = Some data).
Proof.
  intros r. subst r. unfold captureSnapshot.
  pose proof (capture_frame m w out d) as Hframe.
  destruct m; unfold captureViaOnvif, captureViaRtsp in *.
  - destruct (init_answer w) as [[] | e]; [| discriminate].
    destruct (ffmpeg_answer w) as [[] | e]; [| discriminate].
    case_bool_decide as Hex; [| discriminate].
    simpl. intros _. repeat split; try done.
  - destruct (init_answer w) as [[] | e]; [| discriminate].
    destruct (http_answer w) as [data | e]; [| discriminate].
    destruct (String.eqb data "") eqn:Hdata; [discriminate |].
    apply String.eqb_neq in Hdata.
    destruct (write_answer w) as [| e [part |]]; [| discriminate | discriminate].
    simpl. intros _. repeat split.
    + rewrite lookup_insert_eq. by eexists.
    + exact Hframe.
    + intros _. exists data. by rewrite lookup_insert_eq.
Qed.

Lemma captureSnapshot_success_leaves_file_witness :
  is_Some (disk (captureSnapshot Onvif
                   {| init_answer := Ok tt; http_answer := Ok "JFIF";
                      write_answer := Written; ffmpeg_answer := Ok tt;
                      ffmpeg_leaves := None |}
                   "/home/user/snap.jpg" ∅).1 !! "/home/user/snap.jpg").
Proof.
  apply (captureSnapshot_success_leaves_file Onvif
           {| init_answer := Ok tt; http_answer := Ok "JFIF";
              write_answer := Written; ffmpeg_answer := Ok tt;
              ffmpeg_leaves := None |} "/home/user/snap.jpg" ∅).
  reflexivity.
Defined.

Lemma encode_unit_escapes (c : ascii) : escapes_delimiters c = true.
Proof. destruct c as [[] [] [] [] [] [] [] []]; vm_compute; reflexivity. Qed.

Lemma encodeURIComponent_free (s : string) :
  free_of ":" (encodeURIComponent s) = true /\ free_of "@" (encodeURIComponent s) = true /\
  free_of "/" (encodeURIComponent s) = true /\ free_of "?" (encodeURIComponent s) = true /\
  free_of "#" (encodeURIComponent s) = true /\ free_of " " (encodeURIComponent s) = true.
Proof.
  induction s as [| c s (H1 & H2 & H3 & H4 & H5 & H6)]; [repeat split |].
  pose proof (encode_unit_escapes c) as Hc. unfold escapes_delimiters in Hc.
  repeat (apply andb_true_iff in Hc as [Hc ?]).
  cbn [encodeURIComponent]. rewrite !free_of_app.
  repeat split; apply andb_true_iff; split; assumption.
Qed.

Lemma encodeURIComponent_unreserved (s : string) :
  all_unreserved s = true -> encodeURIComponent s = s.
Proof.
  induction s as [| c s IH]; [reflexivity |]. simpl.
  intros [Hc Hs]%andb_true_iff. unfold encode_unit. rewrite Hc, (IH Hs). reflexivity.
Qed.

(** Escaped credentials cannot move the host of the fallback stream
    address: an escaped text holds none of the delimiters [: @ / ? #] and
    no space, so the address splits at its first at-sign into the
    credentials and the host, and the credentials split at their first
    colon into the escaped user name and the escaped password; a text of
    letters, digits and unreserved marks is escaped to itself. *)
Theorem fallback_rtsp_url_keeps_credentials_apart (config : Common.config) :
  let user := encodeURIComponent (to_string (Common.username config)) in
  let pass := encodeURIComponent (to_string (Common.password config)) in
  exists rest,
    fallback_rtsp_url config = "rtsp://" +:+ rest /\
    Dotenv.cut "@" rest
    = Some (user +:+ ":" +:+ pass, to_string (Common.ip config) +:+ ":554/stream1") /\
    Dotenv.cut ":" (user +:+ ":" +:+ pass) = Some (user, pass) /\
    free_of "/" (user +:+ ":" +:+ pass) = true /\
    forall s, all_unreserved s = true -> encodeURIComponent s = s.
Proof.
  intros user pass.
  destruct (encodeURIComponent_free (to_string (Common.username config)))
    as (U1 & U2 & U3 & _).
  destruct (encodeURIComponent_free (to_string (Common.password config)))
    as (P1 & P2 & P3 & _).
  fold user in U1, U2, U3. fold pass in P1, P2, P3.
  exists (user +:+ ":" +:+ pass +:+ "@" +:+ to_string (Common.ip config) +:+ ":554/stream1").
  split; [reflexivity |]. split; [| split; [| split]].
  - replace (user +:+ ":" +:+ pass +:+ "@" +:+ to_string (Common.ip config) +:+ ":554/stream1")
      with ((user +:+ ":" +:+ pass) +:+
            String "@" (to_string (Common.ip config) +:+ ":554/stream1")).
    + apply cut_app.
      change (user +:+ ":" +:+ pass) with (user +:+ String ":" pass).
      rewrite free_of_app. simpl. by rewrite U2, P2.
    + rewrite append_assoc. f_equal.
  - apply cut_app. exact U1.
  - change (user +:+ ":" +:+ pass) with (user +:+ String ":" pass).
    rewrite free_of_app. simpl. by rewrite U3, P3.
  - apply encodeURIComponent_unreserved.
Qed.

Lemma take_app_length (base ext : string) :
  take (String.length (base +:+ ext) - String.length ext) (base +:+ ext) = base.
Proof.
  rewrite string_length_append.
  replace (String.length base + String.length ext - String.length ext)%nat
    with (String.length base) by lia.
  induction base as [| c base IH]; [by destruct ext |].
  change (String c base +:+ ext) with (String c (base +:+ ext)).
  simpl. by rewrite IH.
Qed.

Lemma append_inj_length (a a' b b' : string) :
  String.length a = String.length a' -> a +:+ b = a' +:+ b' -> a = a' /\ b = b'.
Proof.
  revert a'. induction a as [| c a IH]; intros [| c' a'] Hlen H; try discriminate Hlen.
  - by split.
  - change (String c (a +:+ b) = String c' (a' +:+ b')) in H.
    injection H as -> H. simpl in Hlen.
    destruct (IH a' ltac:(lia) H) as [-> ->]. by split.
Qed.

Lemma fallback_rtsp_url_keeps_credentials_apart_witness :
  encodeURIComponent "admin" = "admin".
Proof.
  destruct (fallback_rtsp_url_keeps_credentials_apart tricky_config)
    as (rest & _ & _ & _ & _ & H).
  apply H. reflexivity.
Defined.

Lemma pads_checked : Notions.holds_from pads_and_reads 0 (Z.to_nat 100) = true.
Proof. vm_compute. reflexivity. Qed.

Lemma years_checked : Notions.holds_from prints_four 1000 (Z.to_nat 9000) = true.
Proof. vm_compute. reflexivity. Qed.

Lemma pad2_spec (n : Z) :
  0 <= n <= 99 ->
  String.length (pad2 n) = 2%nat /\ read_digits (pad2 n) None = Some n.
Proof.
  intros [Hlo Hhi].
  assert (Hn : pads_and_reads n = true)
    by (apply (holds_from_spec _ _ 0 n pads_checked); lia).
  unfold pads_and_reads in Hn. apply andb_true_iff in Hn as [Hl Hr].
  apply Nat.eqb_eq in Hl. split; [exact Hl |].
  destruct (read_digits (pad2 n) None) as [m |]; [| discriminate].
  apply Z.eqb_eq in Hr. by subst.
Qed.

Lemma year_spec (y : Z) :
  1000 <= y <= 9999 ->
  String.length (string_of_Z y) = 4%nat /\ read_digits (string_of_Z y) None = Some y.
Proof.
  intros [Hlo Hhi]. split.
  - assert (Hy : prints_four y = true)
      by (apply (holds_from_spec _ _ 1000 y years_checked); lia).
    unfold prints_four in Hy. apply orb_true_iff in Hy as [Hy | Hy]; [lia |].
    by apply Nat.eqb_eq.
  - apply port_prints_and_reads. lia.
Qed.

Lemma timestamp_length (d : date) : calendar d -> String.length (timestamp d) = 15%nat.
Proof.
  intros (Hy & Hmo & Hd & Hh & Hmi & Hs). unfold timestamp.
  destruct (year_spec (year d) Hy) as [Ly _].
  destruct (pad2_spec (month d + 1)) as [Lmo _]; [lia |].
  destruct (pad2_spec (day d)) as [Ld _]; [lia |].
  destruct (pad2_spec (hours d)) as [Lh _]; [lia |].
  destruct (pad2_spec (minutes d)) as [Lmi _]; [lia |].
  destruct (pad2_spec (seconds d)) as [Ls _]; [lia |].
  rewrite !string_length_append, Ly, Lmo, Ld, Lh, Lmi, Ls. reflexivity.
Qed.

Lemma timestamp_inj (d1 d2 : date) :
  calendar d1 -> calendar d2 -> timestamp d1 = timestamp d2 -> d1 = d2.
Proof.
  intros (Hy1 & Hmo1 & Hd1 & Hh1 & Hmi1 & Hs1) (Hy2 & Hmo2 & Hd2 & Hh2 & Hmi2 & Hs2).
  unfold timestamp. intros H.
  destruct (year_spec (year d1) Hy1) as [Ly1 Ry1].
  destruct (year_spec (year d2) Hy2) as [Ly2 Ry2].
  destruct (pad2_spec (month d1 + 1)) as [Lmo1 Rmo1]; [lia |].
  destruct (pad2_spec (month d2 + 1)) as [Lmo2 Rmo2]; [lia |].
  destruct (pad2_spec (day d1)) as [Ld1 Rd1]; [lia |].
  destruct (pad2_spec (day d2)) as [Ld2 Rd2]; [lia |].
  destruct (pad2_spec (hours d1)) as [Lh1 Rh1]; [lia |].
  destruct (pad2_spec (hours d2)) as [Lh2 Rh2]; [lia |].
  destruct (pad2_spec (minutes d1)) as [Lmi1 Rmi1]; [lia |].
  destruct (pad2_spec (minutes d2)) as [Lmi2 Rmi2]; [lia |].
  destruct (pad2_spec (seconds d1)) as [Ls1 Rs1]; [lia |].
  destruct (pad2_spec (seconds d2)) as [Ls2 Rs2]; [lia |].
  apply append_inj_length in H as [Ey H]; [| congruence].
  apply append_inj_length in H as [Emo H]; [| congruence].
  apply append_inj_length in H as [Ed H]; [| congruence].
  apply append_inj_length in H as [_ H]; [| reflexivity].
  apply append_inj_length in H as [Eh H]; [| congruence].
  apply append_inj_length in H as [Emi Es]; [| congruence].
  rewrite Ey in Ry1. rewrite Emo in Rmo1. rewrite Ed in Rd1.
  rewrite Eh in Rh1. rewrite Emi in Rmi1. rewrite Es in Rs1.
  destruct d1, d2. simpl in *. f_equal; try congruence.
  assert (Some (month0 + 1) = Some (month1 + 1)) by congruence.
  assert (month0 + 1 = month1 + 1) by congruence. lia.
Qed.

(** Timestamped file names: with the flag off the path is returned as it
    is; with the flag on, the name keeps what precedes the extension and
    the extension itself and gets a stamp of 15 characters between them;
    and two captures to the same path at different seconds (of years 1000
    to 9999) get different names. *)
Theorem applyTimestamp_names_are_distinct (base ext : string) (d1 d2 : date) :
  calendar d1 -> calendar d2 ->
  applyTimestamp false (base +:+ ext) ext d1 = base +:+ ext /\
  applyTimestamp true (base +:+ ext) ext d1 = base +:+ "_" +:+ timestamp d1 +:+ ext /\
  String.length (timestamp d1) = 15%nat /\
  (applyTimestamp true (base +:+ ext) ext d1 = applyTimestamp true (base +:+ ext) ext d2 ->
   d1 = d2).
Proof.
  intros H1 H2. unfold applyTimestamp. cbn [negb]. rewrite take_app_length.
  split; [reflexivity |]. split; [reflexivity |].
  split; [by apply timestamp_length |].
  intros H.
  apply append_inj_length in H as [_ H]; [| reflexivity].
  apply append_inj_length in H as [_ H]; [| reflexivity].
  apply append_inj_length in H as [H _];
    [| by rewrite !timestamp_length].
  by apply timestamp_inj.
Qed.

Lemma applyTimestamp_names_are_distinct_witness :
  applyTimestamp true ("/tmp/snap" +:+ ".jpg") ".jpg" noon
  = "/tmp/snap" +:+ "_" +:+ timestamp noon +:+ ".jpg".
Proof.
  apply (applyTimestamp_names_are_distinct "/tmp/snap" ".jpg" noon noon);
    repeat split; simpl; lia.
Defined.

End SnapshotMore.

(** ** The dotfile and the configuration together *)

Section DotfileAndConfig.
Import Js Common Dotenv Notions.

(** From the dotfile to the profile: when the command line and the
    environment give no port, the port written on the last line
    [ONVIF_PORT=...] of the dotfile is the port of the configuration that
    is returned, whatever the defaults and an object in the configuration
    file hold.  The call fails in one case only: the configuration file
    holds [null] and is read for an address, a user name or a password
    that no source above it gives. *)
Theorem loadConfig_reads_port_from_dotfile (argv : fields) (env : vars)
    (fileConfig : parsed) (defaults : fields) (pairs : list (string * string)) (p : Z) :
  Forall (fun kv => plain_key kv.1 /\ plain_value kv.2) pairs ->
  (list_to_map (reverse pairs) : gmap string string) !! "ONVIF_PORT" = Some (string_of_Z p) ->
  1 <= p <= 65535 ->
  nullish (f_port argv) = true -> ONVIF_PORT env = None ->
  let dotenv := vars_of (loadDotenv (Some (render pairs))) in
  keeps_port argv env dotenv fileConfig
    (loadConfig argv env dotenv fileConfig defaults) p /\
  (fileConfig <> JsonNull \/ credentials_above argv env dotenv = true ->
   port_of (loadConfig argv env dotenv fileConfig defaults) = Some p).
Proof.
  intros Hall Hlook Hp Hargv Henv dotenv. subst dotenv.
  rewrite (loadDotenv_render pairs Hall).
  set (dotenv := vars_of (list_to_map (reverse pairs))).
  assert (Hdot : ONVIF_PORT dotenv = Some (string_of_Z p))
    by (unfold dotenv, vars_of; cbn [ONVIF_PORT]; exact Hlook).
  rewrite (loadConfig_accepts _ _ _ _ _ (PStr (string_of_Z p)) p).
  - pose proof (profile_keeps_port argv env dotenv fileConfig defaults p) as Hkeep.
    split; [exact Hkeep |].
    unfold keeps_port in Hkeep.
    destruct (profile argv env dotenv fileConfig defaults p) as [cfg | msg].
    + intros _. simpl. f_equal. apply Hkeep.
    + destruct Hkeep as (-> & Hc & _). intros [H | H]; [done | congruence].
  - unfold effective_port, coalesce_with. by rewrite Hargv, Henv, Hdot.
  - unfold parseInt. cbn [to_string].
    rewrite <- (append_empty_r (string_of_Z p)).
    apply parseInt_port_text; [lia | exact I].
  - exact Hp.
Qed.

Lemma loadConfig_reads_port_from_dotfile_witness :
  port_of (loadConfig no_fields no_vars
             (vars_of (loadDotenv (Some (render [("ONVIF_PORT", "2020");
                                                 ("USERNAME", "admin");
                                                 ("ONVIF_PORT", "8080")]))))
             (JsonObject (only_port (PNum 9000))) no_fields)
  = Some 8080.
Proof.
  apply (loadConfig_reads_port_from_dotfile no_fields no_vars
           (JsonObject (only_port (PNum 9000))) no_fields
           [("ONVIF_PORT", "2020"); ("USERNAME", "admin"); ("ONVIF_PORT", "8080")] 8080).
  - repeat constructor; simpl; discriminate.
  - reflexivity.
  - lia.
  - reflexivity.
  - reflexivity.
  - left. discriminate.
Defined.

End DotfileAndConfig.
